(** * Book-mechanics validator of kaichronicles (BookValidator)

    A shallow embedding of the class [BookValidator]
    (src/ts/views/loadGameView.ts, second document of the file), of the list
    of saved games of the same file and of the game controller, with the
    properties of the rule checks, the error list and the section traversal.

    Modelling conventions.
    - An XML element is a tree: element name, attribute map, element children.
      jQuery's [.children()] and the DOM [nodeName] read the tree directly.
    - A jQuery matched set is the list of the matched elements. The matching
      of a selector text by [find] is jQuery's own and is a collaborator: it
      receives the text the source concatenates and answers with a matched
      set or with a syntax error.
    - JavaScript truthiness is written out: a string is truthy when it is not
      empty, [undefined] and [null] are falsy, every object (a jQuery set
      included) is truthy.
    - JavaScript numbers are the integers of [Z] or [NaN]; rounding of
      integers beyond 2^53 is not modelled, and the text of a number in a
      string concatenation is the runtime's, a collaborator.
    - Texts are UTF-8: a character beyond ASCII is its sequence of bytes.
    - The validator object is a record threaded through the methods. A method
      that can end with an exception returns a [Result]: the validator as the
      method left it, the calls made outside of the object, and how the
      method ended.
    - The lookup [this[rule.nodeName]] is resolved over every member the
      object answers to: the four rule checks, the other methods and the
      fields of the class, and the members inherited from [Object.prototype].
      The call of a rule check, of [addError], of [validateXml], of the two
      pending checks, of [validateRule] and of [validateChildrenRules] with
      the rule as their argument is followed; the call of a field is a
      [TypeError]; the call of any other member is not followed, and a run
      that makes one ends as [NotFollowed], about which nothing is stated.
    - The field [currentSection] has the declared type of the source: every
      read of it comes after the assignment in [validateSectionInternal]. *)

From Stdlib Require Import ZArith List Ascii String Lia.
From stdpp Require Import base decidable option list strings gmap pretty.

Local Set Warnings "-register-all,-clear-no-such-hyp".
Local Open Scope string_scope.
Local Open Scope Z_scope.

(** ** XML elements and jQuery sets *)

Inductive Element : Type :=
  Elem { nodeName : string;
         attributes : gmap string string;
         childNodes : list Element }.

Abbreviation JQuery := (list Element).

(** [$rule.attr(name)]: the attribute value, or [undefined]. *)
Definition attr (e : Element) (name : string) : option string :=
  attributes e !! name.

(** Truthiness of a string-or-undefined value. *)
Definition truthy (v : option string) : bool :=
  match v with
  | Some s => negb (String.eqb s "")
  | None => false
  end.

(** Truthiness of a jQuery object: it is an object, hence always truthy,
    whatever it matched. *)
Definition jqTruthy (q : JQuery) : bool := true.

(** [$e.children()]. *)
Definition children (e : Element) : JQuery := childNodes e.

(** All elements strictly below [e], in document order. *)
Fixpoint descendants (e : Element) : list Element :=
  (fix below (cs : list Element) : list Element :=
     match cs with
     | [] => []
     | c :: cs' => c :: descendants c ++ below cs'
     end) (childNodes e).

(** The elements below the elements of [q] that a predicate selects, in
    document order: what [$q.find(sel)] matches for a selector that reads as
    the predicate [sel]. *)
Definition jqFind (sel : Element -> bool) (q : JQuery) : JQuery :=
  flat_map (fun e => filter (fun d => Is_true (sel d)) (descendants e)) q.

(** The reading of the selector [name[att=value]]. *)
Definition selNameAttr (name att value : string) (e : Element) : bool :=
  String.eqb (nodeName e) name &&
  bool_decide (attr e att = Some value).

(** A JavaScript number: an integer, or [NaN]. *)
Inductive Num : Type := NaN | Int (z : Z).

(** The reading of the positional filter [:eq(i)]: the element at index [i]
    of the matched set, counted from the end when [i] is negative. *)
Definition jqEq (index : Num) (q : JQuery) : JQuery :=
  match index with
  | NaN => []
  | Int i =>
      let j := if i <? 0 then i + Z.of_nat (length q) else i in
      if j <? 0 then []
      else match q !! Z.to_nat j with
           | Some e => [e]
           | None => []
           end
  end.

(** ** JavaScript numbers and strings *)

(** [a <= b] and [a > b] on numbers: false as soon as one side is [NaN]. *)
Definition num_le (a b : Num) : bool :=
  match a, b with
  | Int x, Int y => x <=? y
  | _, _ => false
  end.

Definition num_gt (a b : Num) : bool :=
  match a, b with
  | Int x, Int y => y <? x
  | _, _ => false
  end.

Definition isDigit (c : ascii) : bool :=
  (48 <=? nat_of_ascii c)%nat && (nat_of_ascii c <=? 57)%nat.

(** The blanks of ASCII: tab, line feed, vertical tab, form feed, carriage
    return, space. *)
Definition isSpace (c : ascii) : bool :=
  let n := nat_of_ascii c in
  ((9 <=? n)%nat && (n <=? 13)%nat) || (n =? 32)%nat.

(** Value of the longest prefix of decimal digits, [None] without a digit. *)
Fixpoint digitsPrefix (acc : option Z) (s : string) : option Z :=
  match s with
  | String c rest =>
      if isDigit c
      then digitsPrefix
             (Some (10 * default 0 acc + Z.of_nat (nat_of_ascii c - 48))) rest
      else acc
  | EmptyString => acc
  end.

Fixpoint skipSpaces (s : string) : string :=
  match s with
  | String c rest => if isSpace c then skipSpaces rest else s
  | EmptyString => s
  end.

(** [parseInt(s)] in base ten: leading blanks, an optional sign, digits. *)
Definition parseInt (s : string) : Num :=
  match skipSpaces s with
  | String "-" rest =>
      match digitsPrefix None rest with
      | Some n => Int (- n)
      | None => NaN
      end
  | String "+" rest =>
      match digitsPrefix None rest with
      | Some n => Int n
      | None => NaN
      end
  | t =>
      match digitsPrefix None t with
      | Some n => Int n
      | None => NaN
      end
  end.

(** The white space and the line terminators of ECMAScript beyond ASCII, as
    UTF-8 bytes: U+00A0 (194 160); U+1680 (225 154 128); U+2000 to U+200A,
    U+2028, U+2029 and U+202F (226 128 128..138, 168, 169, 175); U+205F
    (226 129 159); U+3000 (227 128 128); U+FEFF (239 187 191). *)
Definition blank2 (c1 c2 : ascii) : bool :=
  (nat_of_ascii c1 =? 194)%nat && (nat_of_ascii c2 =? 160)%nat.

Definition blank3 (c1 c2 c3 : ascii) : bool :=
  let a := nat_of_ascii c1 in
  let b := nat_of_ascii c2 in
  let c := nat_of_ascii c3 in
  ((a =? 225)%nat && (b =? 154)%nat && (c =? 128)%nat)
  || ((a =? 226)%nat && (b =? 128)%nat
      && (((128 <=? c)%nat && (c <=? 138)%nat)
          || (c =? 168)%nat || (c =? 169)%nat || (c =? 175)%nat))
  || ((a =? 226)%nat && (b =? 129)%nat && (c =? 159)%nat)
  || ((a =? 227)%nat && (b =? 128)%nat && (c =? 128)%nat)
  || ((a =? 239)%nat && (b =? 187)%nat && (c =? 191)%nat).

(** The text after its leading blanks: the blanks of ASCII, and the blanks of
    two and of three bytes that [two] and [three] recognise. *)
Fixpoint skipBlanks (two : ascii -> ascii -> bool)
    (three : ascii -> ascii -> ascii -> bool) (s : string) : string :=
  match s with
  | EmptyString => s
  | String c1 t1 =>
      if isSpace c1 then skipBlanks two three t1
      else
        match t1 with
        | EmptyString => s
        | String c2 t2 =>
            if two c1 c2 then skipBlanks two three t2
            else
              match t2 with
              | EmptyString => s
              | String c3 t3 =>
                  if three c1 c2 c3 then skipBlanks two three t3 else s
              end
        end
  end.

Definition trimStart (s : string) : string := skipBlanks blank2 blank3 s.

(** The trailing blanks are the leading blanks of the reversed text, their
    bytes read backwards. *)
Definition trimEnd (s : string) : string :=
  String.rev
    (skipBlanks (fun c1 c2 => blank2 c2 c1) (fun c1 c2 c3 => blank3 c3 c2 c1)
       (String.rev s)).

(** [s.trim()] *)
Definition trim (s : string) : string := trimEnd (trimStart s).

(** [xmlText.replace( /[áéíóú¡¿\’]/gi , '' )] on UTF-8 text: the two-byte
    codes of the accented vowels (both cases, the flag [i]), of the inverted
    marks, and the three-byte code of the right single quotation mark are
    dropped. *)
Definition special2 (c1 c2 : ascii) : bool :=
  let a := nat_of_ascii c1 in
  let b := nat_of_ascii c2 in
  ((a =? 195)%nat &&
   bool_decide (b ∈ [161; 129; 169; 137; 173; 141; 179; 147; 186; 154]%nat))
  || ((a =? 194)%nat && bool_decide (b ∈ [161; 191]%nat)).

Definition special3 (c1 c2 c3 : ascii) : bool :=
  (nat_of_ascii c1 =? 226)%nat && (nat_of_ascii c2 =? 128)%nat
  && (nat_of_ascii c3 =? 153)%nat.

Fixpoint stripSpecialChars (s : string) : string :=
  match s with
  | EmptyString => EmptyString
  | String c1 t1 =>
      match t1 with
      | EmptyString => String c1 EmptyString
      | String c2 t2 =>
          if special2 c1 c2 then stripSpecialChars t2
          else
            match t2 with
            | EmptyString => String c1 (stripSpecialChars t1)
            | String c3 t3 =>
                if special3 c1 c2 c3 then stripSpecialChars t3
                else String c1 (stripSpecialChars t1)
            end
      end
  end.

(** The double quote, for the messages that quote attribute names. *)
Definition dq : string := String (ascii_of_nat 34) EmptyString.

(** The names every JavaScript object answers to through [Object.prototype];
    each of them is a function or an object, hence truthy. *)
Definition objectPrototypeNames : list string :=
  ["constructor"; "__defineGetter__"; "__defineSetter__"; "hasOwnProperty";
   "__lookupGetter__"; "__lookupSetter__"; "isPrototypeOf";
   "propertyIsEnumerable"; "toString"; "valueOf"; "__proto__";
   "toLocaleString"].

Definition inNames (name : string) (names : list string) : bool :=
  existsb (String.eqb name) names.

(** [table[key]] on a JavaScript object used as a table, as a truth value:
    an entry of the table (each entry is an object), or a member inherited
    from [Object.prototype]. *)
Definition tableHas {A : Type} (table : gmap string A) (key : string) : bool :=
  bool_decide (is_Some (table !! key)) || inNames key objectPrototypeNames.

(** ** Book, mechanics, section *)

(** The classes [Book], [Mechanics] and [Section] are collaborators of the
    validator and are not among the sources; the records hold what the
    validator reads from them, after the data model of the specification. *)
Record Book : Type := {
  bookNumber : Z;
  (** section id -> XML of the section *)
  bookSections : gmap string Element;
  (** [getDisciplinesTable()]: discipline id -> definition *)
  disciplinesTable : gmap string Element;
  (** section id -> id of the section its next-section link leads to *)
  nextSectionLink : string -> string
}.

Record Mechanics : Type := {
  (** the text the rules were downloaded as, when it was kept *)
  mechanicsXmlText : option string;
  (** the document element of the parsed rules XML *)
  mechanicsXml : Element;
  (** object id -> definition of the object *)
  objectsTable : gmap string Element;
  lastSectionId : string
}.

(** Modelled from the spec: [book.getSectionXml(id)], of the absent class
    [Book]. "getSectionXml(id) -> XML-or-empty": a jQuery set, empty when
    there is no section. *)
Definition getSectionXml (b : Book) (sectionId : string) : JQuery :=
  option_list (bookSections b !! sectionId).

(** Modelled from the spec: [book.getDisciplinesTable()], of the absent class
    [Book]. "getDisciplinesTable() -> map(id -> definition)". *)
Definition getDisciplinesTable (b : Book) : gmap string Element :=
  disciplinesTable b.

(** Modelled from the spec: [mechanics.getSection(id)], of the absent class
    [Mechanics]. "parsed rules XML"; "exposes lookup of a section's rule
    subtree by section id"; "getSection(id) -> rule-subtree-or-null": the
    first [section] element with that [id] among the children of the
    [sections] elements of the document. *)
Definition getSection (m : Mechanics) (sectionId : string) : option Element :=
  head (filter (fun e => Is_true (selNameAttr "section" "id" sectionId e))
          (flat_map children
             (filter (fun e => Is_true (String.eqb (nodeName e) "sections"))
                     (children (mechanicsXml m))))).

(** Modelled from the spec: [mechanics.getObject(id)], of the absent class
    [Mechanics]. "getObject(id) -> definition-or-null". *)
Definition getObject (m : Mechanics) (objectId : string) : option Element :=
  objectsTable m !! objectId.

(** Modelled from the spec: [mechanics.getLastSectionId()], of the absent
    class [Mechanics]. "getLastSectionId() -> id". *)
Definition getLastSectionId (m : Mechanics) : string := lastSectionId m.

(** The runtime view of one section (class [Section]). *)
Record BookSection : Type := {
  sectionId : string;
  xmlSection : JQuery;
  getNextSectionId : string
}.

(** Modelled from the spec: the constructor of the class [Section], which is
    not among the sources. "Section: a runtime view over one section's XML
    within a Book, computed from (book, sectionId, mechanics); exposes
    navigation links (previous/next section id)". *)
Definition newSection (b : Book) (id : string) (m : Mechanics) : BookSection :=
  {| sectionId := id;
     xmlSection := getSectionXml b id;
     getNextSectionId := nextSectionLink b id |}.

(** ** External collaborators *)

(** The argument of the schema validator [validateXML] (xmllint.js). *)
Record XmllintModule : Type := {
  xml : string;
  schema : string;
  arguments : list string
}.

(** What a run does outside of the validator object. *)
Inductive Event : Type :=
  | CallValidateXML (module : XmllintModule)
  | ConsoleLog (text : string).

(** Functions and constants the validator calls and that live in other
    files of the application, in its libraries or in the runtime. *)
Class Collaborators : Type := {
  (** [mechanicsEngine.getArrayProperty($rule, property)] *)
  getArrayProperty : Element -> string -> list string;
  (** [randomMechanics.getCaseRuleBounds($rule)]: [from, to], or [null] *)
  getCaseRuleBounds : Element -> option (Num * Num);
  (** [validateXML(module)] of xmllint.js *)
  validateXML : XmllintModule -> string;
  (** [new XMLSerializer().serializeToString(documentElement)] *)
  serializeToString : Element -> string;
  (** [$set.find(selector)] of jQuery: the matched set, or [None] when
      jQuery rejects the selector text with a syntax error *)
  jQueryFind : JQuery -> string -> option JQuery;
  (** the text of a number in a string concatenation *)
  numberToString : Z -> string;
  (** [Book.INITIAL_SECTION] *)
  INITIAL_SECTION : string
}.

(** ** The validator object *)

Record BookValidator : Type := {
  mechanics : Mechanics;
  book : Book;
  errors : list string;
  currentSection : BookSection
}.

Definition setErrors (es : list string) (v : BookValidator) : BookValidator :=
  {| mechanics := mechanics v; book := book v;
     errors := es; currentSection := currentSection v |}.

Definition setCurrentSection (s : BookSection) (v : BookValidator)
  : BookValidator :=
  {| mechanics := mechanics v; book := book v;
     errors := errors v; currentSection := s |}.

(** [this.errors.push(text)] *)
Definition pushError (text : string) (v : BookValidator) : BookValidator :=
  setErrors (errors v ++ [text]) v.

(** The text [addError] builds. *)
Definition errorText (id tagName errorMsg : string) : string :=
  "Section " +:+ id +:+ ", rule " +:+ tagName +:+ ": " +:+ errorMsg.

Definition addError (rule : Element) (errorMsg : string) (v : BookValidator)
  : BookValidator :=
  pushError (errorText (sectionId (currentSection v)) (nodeName rule) errorMsg) v.

(** A [for ... of] loop whose body updates the validator. *)
Definition forOf {A : Type} (body : A -> BookValidator -> BookValidator)
    (items : list A) (v : BookValidator) : BookValidator :=
  fold_left (fun v x => body x v) items v.

(** How a method ended: it returned, it threw an exception, or it called a
    member whose call is not followed. *)
Inductive Completion : Type := Returned | Threw | NotFollowed.

(** The validator as a method left it, the calls it made outside of the
    object, and how it ended. *)
Record Result : Type := {
  after : BookValidator;
  calls : list Event;
  completion : Completion
}.

Definition returned (v : BookValidator) : Result :=
  {| after := v; calls := []; completion := Returned |}.

Definition threw (v : BookValidator) : Result :=
  {| after := v; calls := []; completion := Threw |}.

Definition notFollowed (v : BookValidator) : Result :=
  {| after := v; calls := []; completion := NotFollowed |}.

(** The calls [log] were made before those of [r]. *)
Definition withCalls (log : list Event) (r : Result) : Result :=
  {| after := after r; calls := (log ++ calls r)%list;
     completion := completion r |}.

(** Sequence of two statements: the second runs when the first returned. *)
Definition andThen (r : Result) (next : BookValidator -> Result) : Result :=
  match completion r with
  | Returned => withCalls (calls r) (next (after r))
  | _ => r
  end.

(** A [for ... of] loop whose body can end with an exception. *)
Fixpoint forEach {A : Type} (body : A -> BookValidator -> Result)
    (items : list A) (v : BookValidator) : Result :=
  match items with
  | [] => returned v
  | x :: items' => andThen (body x v) (forEach body items')
  end.

Section Checks.
Context `{Collaborators}.

(** *** Common attributes validation *)

Definition getPropertyValueAsArray (rule : Element) (property : string)
    (allowMultiple : bool) : list string :=
  if allowMultiple then getArrayProperty rule property
  else
    let value := attr rule property in
    if truthy value then [default "" value] else [].

Definition validateObjectIdsAttribute (rule : Element) (property : string)
    (allowMultiple : bool) (v : BookValidator) : bool * BookValidator :=
  let objectIds := getPropertyValueAsArray rule property allowMultiple in
  if (length objectIds =? 0)%nat then (false, v)
  else
    (true,
     forOf (fun objectId v =>
              if negb (bool_decide (is_Some (getObject (mechanics v) objectId)))
              then addError rule ("Object id " +:+ objectId +:+ " not found") v
              else v)
           objectIds v).

(** [// TODO: Pending] in the source: both do nothing. *)
Definition validateNumericExpression (rule : Element) (property : string)
    (v : BookValidator) : BookValidator := v.

Definition validateBooleanExpression (rule : Element) (property : string)
    (v : BookValidator) : BookValidator := v.

Definition validateDisciplinesAttribute (rule : Element) (property : string)
    (allowMultiple : bool) (v : BookValidator) : BookValidator :=
  let disciplinesIds := getPropertyValueAsArray rule property allowMultiple in
  if (length disciplinesIds =? 0)%nat then v
  else
    let table := getDisciplinesTable (book v) in
    forOf (fun disciplineId v =>
             if negb (tableHas table disciplineId)
             then addError rule ("Wrong discipline id: " +:+ disciplineId) v
             else v)
          disciplinesIds v.

Definition validateSectionsAttribute (rule : Element) (property : string)
    (allowMultiple : bool) (v : BookValidator) : BookValidator :=
  let sectionIds := getPropertyValueAsArray rule property allowMultiple in
  forOf (fun id v =>
           if (length (getSectionXml (book v) id) =? 0)%nat
           then addError rule ("Section does not exists: " +:+ id) v
           else v)
        sectionIds v.

(** The syntax error of a selector that jQuery rejects is thrown by [find],
    before anything is appended. *)
Definition validateSectionChoiceAttribute (rule : Element) (property : string)
    (v : BookValidator) : Result :=
  let id := attr rule property in
  if negb (truthy id) then returned v
  else
    let id := default "" id in
    match jQueryFind (xmlSection (currentSection v))
            ("choice[idref=" +:+ id +:+ "]") with
    | None => threw v
    | Some choices =>
        returned
          (if (length choices =? 0)%nat
           then addError rule
                  ("No choice found on this section with destination to " +:+ id) v
           else v)
    end.

(** *** Validate XML *)

Definition msgXsdNotLoaded : string :=
  "The XSD for mechanics validation has not been downloaded".

(** [xsdText] is the static field [BookValidator.xsdText], [undefined] until
    [downloadXsd] has stored the schema. *)
Definition validateXml (xsdText : option string) (v : BookValidator)
  : BookValidator * list Event :=
  if negb (truthy xsdText) then (pushError msgXsdNotLoaded v, [])
  else
    let xmlText :=
      if truthy (mechanicsXmlText (mechanics v))
      then default "" (mechanicsXmlText (mechanics v))
      else serializeToString (mechanicsXml (mechanics v)) in
    let xmlText := stripSpecialChars xmlText in
    let mechanicsFileName :=
      "mechanics-" +:+ numberToString (bookNumber (book v)) +:+ ".xml" in
    let module :=
      {| xml := xmlText;
         schema := default "" xsdText;
         arguments := ["--noout"; "--schema"; "mechanics.xsd"; mechanicsFileName] |} in
    let xmllint := trim (validateXML module) in
    let v :=
      if negb (String.eqb xmllint (mechanicsFileName +:+ " validates"))
      then pushError xmllint v
      else v in
    (v, [CallValidateXML module; ConsoleLog xmllint]).

(** *** Rules validation *)

Definition msgOnlyOne : string := Eval vm_compute in
    "Must to have a " +:+ dq +:+ "objectId" +:+ dq +:+ " or " +:+ dq +:+ "class"
    +:+ dq +:+ " attribute, and only one".

Definition msgCount : string := Eval vm_compute in
    "Must to have a " +:+ dq +:+ "count" +:+ dq +:+ " attribute".

Definition msgNeedsBounds : string := Eval vm_compute in
    "Needs " +:+ dq +:+ "value" +:+ dq +:+ " or " +:+ dq +:+ "from" +:+ dq
    +:+ " / " +:+ dq +:+ "to" +:+ dq +:+ " attributes".

Definition pick (rule : Element) (v : BookValidator) : BookValidator :=
  let '(objectIdFound, v) := validateObjectIdsAttribute rule "objectId" false v in
  let classFound := truthy (attr rule "class") in
  let onlyOne :=
    (objectIdFound && negb classFound) || (negb objectIdFound && classFound) in
  let v := if negb onlyOne then addError rule msgOnlyOne v else v in
  let v :=
    if classFound && negb (truthy (attr rule "count"))
    then addError rule msgCount v
    else v in
  validateNumericExpression rule "count" v.

(** Modelled from the spec: [Array.prototype.contains], an extension of
    arrays that is defined in another file of the application. "flags
    overlap if any integer is covered by two cases": [coverage.contains(i)]
    tells whether [i] is an element of [coverage]. *)
Definition contains (coverage : list Z) (i : Z) : bool :=
  bool_decide (i ∈ coverage).

(** The loop [for( let i=bounds[0]; i<= bounds[1]; i++)] of [randomTable],
    on the pair (coverage, overlapped). *)
Definition coverRange (from to : Z) (st : list Z * bool) : list Z * bool :=
  fold_left
    (fun '(coverage, overlapped) i =>
       if contains coverage i then (coverage, true)
       else ((coverage ++ [i])%list, overlapped))
    (seqZ from (to - from + 1)) st.

(** One turn of the loop over the children of a [randomTable], on the triple
    (coverage, overlapped, nCasesFound). *)
Definition coverChild (st : list Z * bool * nat) (child : Element)
  : list Z * bool * nat :=
  let '(coverage, overlapped, nCasesFound) := st in
  if String.eqb (nodeName child) "case" then
    let nCasesFound := S nCasesFound in
    match getCaseRuleBounds child with
    | Some (b0, b1) =>
        if num_le b0 b1 then
          match b0, b1 with
          | Int from, Int to =>
              let '(coverage, overlapped) :=
                coverRange from to (coverage, overlapped) in
              (coverage, overlapped, nCasesFound)
          | _, _ => (coverage, overlapped, nCasesFound)
          end
        else (coverage, overlapped, nCasesFound)
    | None => (coverage, overlapped, nCasesFound)
    end
  else st.

(** The loop that looks for a number of [numberToTest] out of [coverage]. *)
Definition findMissed (coverage : list Z) (numberToTest : Z * Z) : bool :=
  fold_left
    (fun missedNumbers i =>
       if negb (contains coverage i) then true else missedNumbers)
    (seqZ (fst numberToTest) (snd numberToTest - fst numberToTest + 1)) false.

Definition msgLinkNotFound : string := "Link to random table not found".

(** The statements of [randomTable] from [// Check numbers coverage] on. *)
Definition checkNumbersCoverage (rule : Element) (v : BookValidator)
  : BookValidator :=
  let '(coverage, overlapped, nCasesFound) :=
    fold_left coverChild (children rule) ([], false, 0%nat) in
  if (nCasesFound =? 0)%nat then v
  else
    let numberToTest :=
      if bool_decide (attr rule "zeroAsTen" = Some "true") then (1, 10)
      else (0, 9) in
    let missedNumbers := findMissed coverage numberToTest in
    let v := if missedNumbers then addError rule "Missed numbers" v else v in
    let v := if overlapped then addError rule "Overlapped numbers" v else v in
    v.

(** The syntax error of a selector that jQuery rejects is thrown by [find],
    before the coverage is looked at. *)
Definition randomTable (rule : Element) (v : BookValidator) : Result :=
  let checkIndex : Result :=
    if negb (truthy (attr rule "text-en")) then
      let txtIndex :=
        if negb (truthy (attr rule "index")) then "0"
        else default "" (attr rule "index") in
      match jQueryFind (xmlSection (currentSection v))
              ("a[href=random]:eq( " +:+ txtIndex +:+ ")") with
      | None => threw v
      | Some random =>
          returned
            (if negb (jqTruthy random) then addError rule msgLinkNotFound v
             else v)
      end
    else returned v in
  andThen checkIndex (fun v => returned (checkNumbersCoverage rule v)).

Definition case (rule : Element) (v : BookValidator) : BookValidator :=
  match getCaseRuleBounds rule with
  | None => addError rule msgNeedsBounds v
  | Some (b0, b1) =>
      if num_gt b0 b1 then addError rule "Wrong range" v else v
  end.

Definition test (rule : Element) (v : BookValidator) : Result :=
  let v := validateDisciplinesAttribute rule "hasDiscipline" true v in
  let v := snd (validateObjectIdsAttribute rule "hasObject" true v) in
  let v := validateBooleanExpression rule "expression" v in
  let v := validateSectionsAttribute rule "sectionVisited" true v in
  let v := snd (validateObjectIdsAttribute rule "currentWeapon" false v) in
  let language := attr rule "bookLanguage" in
  let v :=
    if truthy language
       && (negb (String.eqb (default "" language) "en")
           && negb (String.eqb (default "" language) "es"))
    then addError rule ("Wrong language: " +:+ default "" language) v
    else v in
  validateSectionChoiceAttribute rule "isChoiceEnabled" v.

(** *** The walk over the rules *)

(** What [this[name]] is, for the walk that calls it with the rule as its
    only argument. *)
Inductive Member : Type :=
  | NoMember       (** [undefined]: there is no such member *)
  | RuleCheck (check : Element -> BookValidator -> Result)
                   (** [pick], [randomTable], [case], [test] *)
  | AddErrorMember (** [addError]: the message is [undefined] *)
  | ValidateXmlMember (** [validateXml]: it takes no argument *)
  | PendingMember  (** the two checks that are pending: nothing is done *)
  | WalkMember     (** [validateRule], [validateChildrenRules]: the argument
                       has no [nodeName], its children are validated *)
  | FieldMember    (** a field: an object, truthy, that is not a function *)
  | OtherMember.   (** any other method of the class or of
                       [Object.prototype]: its call is not followed *)

(** The fields of the object; [currentSection] is assigned before the walk. *)
Definition fieldNames : list string :=
  ["mechanics"; "book"; "errors"; "currentSection"].

(** The methods of the class whose call with a rule as argument is not
    followed: those that take a section id, a property name or nothing. *)
Definition otherMethodNames : list string :=
  ["validateBook"; "validateSection"; "validateSectionInternal";
   "getPropertyValueAsArray"; "validateObjectIdsAttribute";
   "validateDisciplinesAttribute"; "validateSectionsAttribute";
   "validateSectionChoiceAttribute"].

(** [this[name]] *)
Definition member (name : string) : Member :=
  if String.eqb name "pick" then RuleCheck (fun rule v => returned (pick rule v))
  else if String.eqb name "randomTable" then RuleCheck randomTable
  else if String.eqb name "case" then RuleCheck (fun rule v => returned (case rule v))
  else if String.eqb name "test" then RuleCheck test
  else if String.eqb name "addError" then AddErrorMember
  else if String.eqb name "validateXml" then ValidateXmlMember
  else if inNames name ["validateNumericExpression"; "validateBooleanExpression"]
  then PendingMember
  else if inNames name ["validateRule"; "validateChildrenRules"] then WalkMember
  else if inNames name fieldNames then FieldMember
  else if inNames name otherMethodNames || inNames name objectPrototypeNames
  then OtherMember
  else NoMember.

(** [validateRule], with the loop of [validateChildrenRules] over the
    children of the rule written in place: [if( this[rule.nodeName] )
    this[rule.nodeName]( $(rule) )], then the children. *)
Fixpoint validateRule (xsdText : option string) (rule : Element)
    (v : BookValidator) : Result :=
  let validateChildren :=
    (fix loop (cs : list Element) (v : BookValidator) : Result :=
       match cs with
       | [] => returned v
       | child :: cs' => andThen (validateRule xsdText child v) (loop cs')
       end) (childNodes rule) in
  let own : Result :=
    match member (nodeName rule) with
    | NoMember => returned v
    | RuleCheck check => check rule v
    | AddErrorMember => returned (addError rule "undefined" v)
    | ValidateXmlMember =>
        let '(v, log) := validateXml xsdText v in withCalls log (returned v)
    | PendingMember => returned v
    | WalkMember => validateChildren v
    | FieldMember => threw v
    | OtherMember => notFollowed v
    end in
  andThen own validateChildren.

Definition validateChildrenRules (xsdText : option string)
    (parent : option Element) (v : BookValidator) : Result :=
  match parent with
  | None => returned v
  | Some p => forEach (validateRule xsdText) (children p) v
  end.

Definition validateSectionInternal (xsdText : option string) (id : string)
    (v : BookValidator) : Result :=
  let v := setCurrentSection (newSection (book v) id (mechanics v)) v in
  let sectionMechanics := getSection (mechanics v) id in
  validateChildrenRules xsdText sectionMechanics v.

Definition validateSection (xsdText : option string) (id : string)
    (v : BookValidator) : Result :=
  let v := setErrors [] v in
  validateSectionInternal xsdText id v.

(** The loop [while( currentSectionId != lastSectionId )] of [validateBook];
    [fuel] bounds the number of turns, [None] when it does not suffice. An
    exception in a section ends the loop. *)
Fixpoint traverseSections (fuel : nat) (xsdText : option string)
    (lastId currentSectionId : string) (v : BookValidator) : option Result :=
  if String.eqb currentSectionId lastId then Some (returned v)
  else
    match fuel with
    | O => None
    | S fuel' =>
        let r := validateSectionInternal xsdText currentSectionId v in
        match completion r with
        | Returned =>
            withCalls (calls r) <$>
              traverseSections fuel' xsdText lastId
                (getNextSectionId (currentSection (after r))) (after r)
        | _ => Some r
        end
    end.

Definition validateBook (xsdText : option string) (fuel : nat)
    (v : BookValidator) : option Result :=
  let v := setErrors [] v in
  let '(v, log) := validateXml xsdText v in
  let lastId := getLastSectionId (mechanics v) in
  withCalls log <$> traverseSections fuel xsdText lastId INITIAL_SECTION v.

End Checks.

(** ** Calls of the public operations *)

Inductive Call : Type :=
  | CallValidateSection (id : string)
  | CallValidateBook.

Definition runCall `{Collaborators} (xsdText : option string) (fuel : nat)
    (c : Call) (v : BookValidator) : option Result :=
  match c with
  | CallValidateSection id => Some (validateSection xsdText id v)
  | CallValidateBook => validateBook xsdText fuel v
  end.

(** ** Vocabulary of the properties *)

(** The bounds of a child that the coverage loop of [randomTable] counts: a
    [case] element whose bounds are integers with [from <= to]. *)
Definition validRange `{Collaborators} (child : Element) : option (Z * Z) :=
  if String.eqb (nodeName child) "case" then
    match getCaseRuleBounds child with
    | Some (Int from, Int to) => if from <=? to then Some (from, to) else None
    | _ => None
    end
  else None.

Definition covers `{Collaborators} (child : Element) (z : Z) : Prop :=
  exists from to, validRange child = Some (from, to) /\ from <= z <= to.

Definition coveredIn `{Collaborators} (cs : list Element) (z : Z) : Prop :=
  exists child, child ∈ cs /\ covers child z.

Definition overlapIn `{Collaborators} (cs : list Element) : Prop :=
  exists (i j : nat) (c1 c2 : Element) (z : Z),
    i <> j /\ cs !! i = Some c1 /\ cs !! j = Some c2 /\
    covers c1 z /\ covers c2 z.

(** [z] is in the union of the valid ranges of the [case] children. *)
Definition coveredBy `{Collaborators} (rule : Element) (z : Z) : Prop :=
  coveredIn (children rule) z.

(** Some integer is in the valid ranges of two distinct [case] children. *)
Definition overlap `{Collaborators} (rule : Element) : Prop :=
  overlapIn (children rule).

Definition isCase (e : Element) : bool := String.eqb (nodeName e) "case".

(** The numbers a [randomTable] has to cover. *)
Definition numberToTest (rule : Element) : Z * Z :=
  if bool_decide (attr rule "zeroAsTen" = Some "true") then (1, 10) else (0, 9).

(** The selector text [randomTable] hands to jQuery for the rule. *)
Definition linkSelector (rule : Element) : string :=
  "a[href=random]:eq( "
  +:+ (if negb (truthy (attr rule "index")) then "0"
       else default "" (attr rule "index"))
  +:+ ")".

(** The check [randomTable] gets as far as the coverage of the numbers: the
    rule has a [text-en], or jQuery accepts the selector of its link. *)
Definition reachesCoverage `{Collaborators} (rule : Element)
    (v : BookValidator) : bool :=
  truthy (attr rule "text-en")
  || bool_decide
       (is_Some (jQueryFind (xmlSection (currentSection v)) (linkSelector rule))).

(** The rule subtree of the section [id] in the rules document [doc]: what
    [getSection] gives for mechanics with that document. *)
Definition sectionOf (doc : Element) (id : string) : option Element :=
  getSection
    {| mechanicsXmlText := None; mechanicsXml := doc; objectsTable := ∅;
       lastSectionId := "" |} id.

(** [r] is a rule node of the section [id] of the mechanics. *)
Definition ruleNodeOf (m : Mechanics) (id : string) (r : Element) : Prop :=
  exists root, getSection m id = Some root /\ r ∈ descendants root.

(** The shape of the texts of [addError]. *)
Definition sectionRuleError (m : Mechanics) (id : string) (s : string) : Prop :=
  exists r msg, ruleNodeOf m id r /\ s = errorText id (nodeName r) msg.

(** The [k]-th section on the chain of next-section links. *)
Definition spineSection `{Collaborators} (b : Book) (k : nat) : string :=
  Nat.iter k (nextSectionLink b) INITIAL_SECTION.

(** [n] links lead from the initial section to the section [lastId], and
    fewer do not. *)
Definition firstReach `{Collaborators} (b : Book) (lastId : string) (n : nat)
  : Prop :=
  spineSection b n = lastId /\
  forall k, (k < n)%nat -> spineSection b k <> lastId.

(** No rule node of the section [id] is named after the method
    [validateXml]. *)
Definition noSchemaRule (m : Mechanics) (id : string) : Prop :=
  forall r, ruleNodeOf m id r -> nodeName r <> "validateXml".

(** The call [this[rule.nodeName]( $(rule) )] of [validateRule], when the
    object has such a member. *)
Definition callMember `{Collaborators} (xsdText : option string)
    (rule : Element) (v : BookValidator) : Result :=
  match member (nodeName rule) with
  | NoMember => returned v
  | RuleCheck check => check rule v
  | AddErrorMember => returned (addError rule "undefined" v)
  | ValidateXmlMember =>
      let '(v, log) := validateXml xsdText v in withCalls log (returned v)
  | PendingMember => returned v
  | WalkMember => validateChildrenRules xsdText (Some rule) v
  | FieldMember => threw v
  | OtherMember => notFollowed v
  end.

(** What a caller observes of a call: the error list, the calls made outside
    of the validator, and how the call ended. *)
Definition outcome (r : Result) : list string * list Event * Completion :=
  (errors (after r), calls r, completion r).

(** The validator with other errors and another rules document. *)
Definition remake (es : list string) (text : option string) (doc : Element)
    (v : BookValidator) : BookValidator :=
  {| mechanics :=
       {| mechanicsXmlText := text;
          mechanicsXml := doc;
          objectsTable := objectsTable (mechanics v);
          lastSectionId := lastSectionId (mechanics v) |};
     book := book v;
     errors := es;
     currentSection := currentSection v |}.

(** [f] only appends errors, each of them in [P], and what it appends
    depends neither on the errors already there nor on the rules document of
    the mechanics. *)
Definition appends (P : string -> Prop)
    (f : BookValidator -> BookValidator) (v : BookValidator) : Prop :=
  exists new, Forall P new /\
    forall es text doc, f (remake es text doc v) = remake (es ++ new) text doc v.

(** The rules documents a property is stated for: any document, or the
    document of the validator [v]. *)
Definition anyDocument : option string -> Element -> Prop := fun _ _ => True.

Definition documentOf (v : BookValidator) : option string -> Element -> Prop :=
  fun text doc =>
    text = mechanicsXmlText (mechanics v) /\ doc = mechanicsXml (mechanics v).

(** The same for a method that has a [Result]: the errors it appends, the
    calls it makes outside of the validator and how it ends do not depend on
    the errors already there, nor on the rules document among [docs]. *)
Definition appendsWith (docs : option string -> Element -> Prop)
    (P : string -> Prop) (f : BookValidator -> Result) (v : BookValidator)
  : Prop :=
  exists new log c, Forall P new /\
    forall es text doc, docs text doc ->
      f (remake es text doc v)
      = {| after := remake (es ++ new) text doc v; calls := log;
           completion := c |}.

(** The texts [addError] builds for the rule [rule] in the state [v]. *)
Definition ruleError (v : BookValidator) (rule : Element) (s : string) : Prop :=
  exists msg, s = errorText (sectionId (currentSection v)) (nodeName rule) msg.

(** The texts [addError] builds in the section [id] for one of [nodes]. *)
Definition nodesError (id : string) (nodes : list Element) (s : string) : Prop :=
  exists r msg, r ∈ nodes /\ s = errorText id (nodeName r) msg.


(** A text without any of the lead bytes (194, 195, 226) of the characters
    that [validateXml] strips; a text of ASCII characters is one. *)
Fixpoint plainText (s : string) : bool :=
  match s with
  | EmptyString => true
  | String c rest =>
      negb (bool_decide (nat_of_ascii c ∈ [194; 195; 226]%nat))
      && plainText rest
  end.

(** ** A small book, for the examples *)

Fixpoint splitOn (sep : ascii) (cur s : string) : list string :=
  match s with
  | EmptyString => [String.rev cur]
  | String c rest =>
      if Ascii.eqb c sep then String.rev cur :: splitOn sep EmptyString rest
      else splitOn sep (String c cur) rest
  end.

(** Modelled from the spec: [mechanicsEngine.getArrayProperty], which is not
    among the sources. "splits a property into several values via an
    external array-property reader; returns empty list if absent". The
    values are taken to be separated by a vertical bar. *)
Definition arrayProperty (rule : Element) (property : string) : list string :=
  if truthy (attr rule property)
  then splitOn "|" EmptyString (default "" (attr rule property))
  else [].

(** Modelled from the spec: [randomMechanics.getCaseRuleBounds], which is not
    among the sources. "Requires either a value attribute or a from / to
    pair (resolved via a shared bounds-extraction routine)". *)
Definition caseRuleBounds (rule : Element) : option (Num * Num) :=
  if truthy (attr rule "value") then
    let n := parseInt (default "" (attr rule "value")) in Some (n, n)
  else if truthy (attr rule "from") then
    Some (parseInt (default "" (attr rule "from")),
          parseInt (default "" (attr rule "to")))
  else None.

(** [s] without the prefix [p], when it has it. *)
Fixpoint stripPrefix (p s : string) : option string :=
  match p, s with
  | EmptyString, _ => Some s
  | String a p', String b s' =>
      if Ascii.eqb a b then stripPrefix p' s' else None
  | String _ _, EmptyString => None
  end.

Definition stripSuffix (p s : string) : option string :=
  String.rev <$> stripPrefix (String.rev p) (String.rev s).

Fixpoint allChars (p : ascii -> bool) (s : string) : bool :=
  match s with
  | EmptyString => true
  | String c rest => p c && allChars p rest
  end.

(** Letters, digits, hyphen and underscore. *)
Definition isTokenChar (c : ascii) : bool :=
  let n := nat_of_ascii c in
  isDigit c
  || ((65 <=? n)%nat && (n <=? 90)%nat)
  || ((97 <=? n)%nat && (n <=? 122)%nat)
  || (n =? 45)%nat || (n =? 95)%nat.

Definition isToken (s : string) : bool :=
  negb (String.eqb s "") && allChars isTokenChar s.

(** Decimal digits, after an optional minus sign. *)
Definition isIndex (s : string) : bool :=
  match s with
  | String "-" rest => negb (String.eqb rest "") && allChars isDigit rest
  | _ => negb (String.eqb s "") && allChars isDigit s
  end.

(** jQuery's [find] on the two selector texts of the validator, for the
    examples: [choice[idref=id]] with a token as id selects the [choice]
    elements with that [idref], [a[href=random]:eq( i)] with an index of
    digits selects the link at that position, and any other text (one with
    a stray parenthesis or bracket, for instance) is a syntax error. *)
Definition sampleFind (q : JQuery) (selector : string) : option JQuery :=
  match stripPrefix "choice[idref=" selector with
  | Some rest =>
      match stripSuffix "]" rest with
      | Some id =>
          if isToken id then Some (jqFind (selNameAttr "choice" "idref" id) q)
          else None
      | None => None
      end
  | None =>
      match stripPrefix "a[href=random]:eq( " selector with
      | Some rest =>
          match stripSuffix ")" rest with
          | Some index =>
              if isIndex index
              then Some (jqEq (parseInt index)
                           (jqFind (selNameAttr "a" "href" "random") q))
              else None
          | None => None
          end
      | None => None
      end
  end.

(** The text of an element, for the examples: the names of the elements,
    without their attributes. *)
Fixpoint serialize (e : Element) : string :=
  "<" +:+ nodeName e +:+ ">"
  +:+ (fix inner (cs : list Element) : string :=
         match cs with
         | [] => ""
         | c :: cs' => serialize c +:+ inner cs'
         end) (childNodes e)
  +:+ "</" +:+ nodeName e +:+ ">".

(** [p] occurs in [s]. *)
Fixpoint occurs (p s : string) : bool :=
  match stripPrefix p s with
  | Some _ => true
  | None =>
      match s with
      | EmptyString => false
      | String _ rest => occurs p rest
      end
  end.

(** A schema validator for the examples: a document validates unless it
    holds an element [unknown]. *)
Definition sampleValidateXML (module : XmllintModule) : string :=
  let fileName := default "" (last (arguments module)) in
  if occurs "<unknown>" (xml module)
  then fileName +:+ ":1: element unknown: Schemas validity error"
  else fileName +:+ " validates ".

Definition sampleCollaborators : Collaborators :=
  {| getArrayProperty := arrayProperty;
     getCaseRuleBounds := caseRuleBounds;
     validateXML := sampleValidateXML;
     serializeToString := serialize;
     jQueryFind := sampleFind;
     numberToString := pretty;
     INITIAL_SECTION := "tssf" |}.

Definition sampleBook : Book :=
  {| bookNumber := 1;
     bookSections :=
       {[ "tssf" := Elem "section" {[ "id" := "tssf" ]}
                      [Elem "data" ∅ [Elem "choice" {[ "idref" := "sect1" ]} []]];
          "sect1" := Elem "section" {[ "id" := "sect1" ]}
                      [Elem "data" ∅ [Elem "a" {[ "href" := "random" ]} []]];
          "sect2" := Elem "section" {[ "id" := "sect2" ]} [] ]};
     disciplinesTable := {[ "camflage" := Elem "discipline" ∅ [] ]};
     nextSectionLink := fun id =>
       if String.eqb id "tssf" then "sect1" else "sect2" |}.

Definition caseFromTo (from to : string) : Element :=
  Elem "case" {[ "from" := from; "to" := to ]} [].

(** A rules document with the rules of the three sections. *)
Definition rulesDocument (tssf sect1 sect2 : list Element) : Element :=
  Elem "mechanics" ∅
    [Elem "sections" ∅
       [Elem "section" {[ "id" := "tssf" ]} tssf;
        Elem "section" {[ "id" := "sect1" ]} sect1;
        Elem "section" {[ "id" := "sect2" ]} sect2]].

Definition mechanicsOf (doc : Element) : Mechanics :=
  {| mechanicsXmlText := None;
     mechanicsXml := doc;
     objectsTable := {[ "axe" := Elem "weapon" {[ "id" := "axe" ]} [] ]};
     lastSectionId := "sect2" |}.

Definition sampleMechanics : Mechanics :=
  mechanicsOf
    (rulesDocument
       [Elem "pick" {[ "objectId" := "sword" ]} []; Elem "randomTable" ∅ []]
       [Elem "randomTable" ∅ [caseFromTo "0" "4"; caseFromTo "3" "8"]]
       [Elem "pick" ∅ []]).

(** [new BookValidator( mechanics , book )], before any validation. *)
Definition sampleValidator : BookValidator :=
  {| mechanics := sampleMechanics;
     book := sampleBook;
     errors := [];
     currentSection := newSection sampleBook "tssf" sampleMechanics |}.

(** The same book with other rules for its last section: an element that
    the schema validator of the examples does not know. *)
Definition otherLastMechanics : Mechanics :=
  mechanicsOf
    (rulesDocument
       [Elem "pick" {[ "objectId" := "sword" ]} []; Elem "randomTable" ∅ []]
       [Elem "randomTable" ∅ [caseFromTo "0" "4"; caseFromTo "3" "8"]]
       [Elem "unknown" ∅ []]).

(** Rules with odd names and an odd index: an element named after the
    method [validateXml] in the first section, and in the second a random
    table whose index is a closing parenthesis. *)
Definition oddMechanics : Mechanics :=
  mechanicsOf
    (rulesDocument
       [Elem "validateXml" ∅ []]
       [Elem "randomTable" {[ "index" := ")" ]}
          [caseFromTo "0" "4"; caseFromTo "3" "8"]]
       []).

(** A table with the cases 0..4 and 3..8, and the same table with a closing
    parenthesis as index. *)
Definition sampleTable : Element :=
  Elem "randomTable" ∅ [caseFromTo "0" "4"; caseFromTo "3" "8"].



(** A [test] rule for a language that is none of the two, with a [pick]
    without attributes inside. *)
Definition nestedRule : Element :=
  Elem "test" {[ "bookLanguage" := "fr" ]} [Elem "pick" ∅ []].

(** Rules that no member of the validator is named after: a combat with a
    rule inside, for the first section. *)
Definition unknownRulesMechanics : Mechanics :=
  mechanicsOf
    (rulesDocument [Elem "combat" ∅ [Elem "disableCombats" ∅ []]] [] []).

(** The small book with other links: every section leads to sect1. *)
Definition loopBook : Book :=
  {| bookNumber := 1;
     bookSections := bookSections sampleBook;
     disciplinesTable := disciplinesTable sampleBook;
     nextSectionLink := fun _ => "sect1" |}.

Definition validatorOf (m : Mechanics) : BookValidator :=
  {| mechanics := m;
     book := sampleBook;
     errors := [];
     currentSection := newSection sampleBook "tssf" m |}.

(** ** The rest of the validator: constructor and schema download *)

(** [new BookValidator( mechanics , book )]: no error yet. The field
    [currentSection] is [undefined] until [validateSectionInternal] assigns
    it; the record holds a section without content in its place, which no
    operation reads before the assignment. *)
Definition unsetSection : BookSection :=
  {| sectionId := ""; xmlSection := []; getNextSectionId := "" |}.

Definition newBookValidator (m : Mechanics) (b : Book) : BookValidator :=
  {| mechanics := m; book := b; errors := []; currentSection := unsetSection |}.

(** The outcome of [BookValidator.downloadXsd()]: the static field afterwards,
    whether the request [$.ajax({ url: 'data/mechanics.xsd' })] was sent, and
    whether the promise it returns is resolved. *)
Record XsdDownload : Type := {
  xsdTextAfter : option string;
  requestSent : bool;
  promiseResolved : bool
}.

(** [downloadXsd]; [answer] is what the server gives when it is asked: the
    text of the schema, or [None] when the request fails. *)
Definition downloadXsd (answer : option string) (xsdText : option string)
  : XsdDownload :=
  if truthy xsdText then
    {| xsdTextAfter := xsdText; requestSent := false; promiseResolved := true |}
  else
    match answer with
    | Some xmlText =>
        {| xsdTextAfter := Some xmlText; requestSent := true;
           promiseResolved := true |}
    | None =>
        {| xsdTextAfter := xsdText; requestSent := true;
           promiseResolved := false |}
    end.

(** ** The list of saved games (loadGameView.addFilesToList) *)

(** The row of one file, as the three [html +=] of the loop build it. *)
Definition fileRowHtml (fileName : string) : string :=
  ("<tr id=" +:+ dq +:+ fileName +:+ dq +:+ "><td>")
  +:+ ("<button class=" +:+ dq +:+ "btn btn-default table-op" +:+ dq
       +:+ " title=" +:+ dq +:+ "Delete" +:+ dq
       +:+ " data-filename=" +:+ dq +:+ fileName +:+ dq +:+ ">"
       +:+ "<span class=" +:+ dq +:+ "glyphicon glyphicon-remove" +:+ dq
       +:+ "></span>"
       +:+ "</button>"
       +:+ "<a class=" +:+ dq +:+ "savegame" +:+ dq
       +:+ " href=" +:+ dq +:+ fileName +:+ dq +:+ ">"
       +:+ fileName
       +:+ "</a>")
  +:+ "</td></tr>".

(** [addFilesToList(fileNames)]: the html it appends to the body of the
    table; [noSavedGames] is [translations.text( 'noSavedGames' )]. *)
Definition addFilesToList (noSavedGames : string) (fileNames : list string)
  : string :=
  if (length fileNames =? 0)%nat
  then "" +:+ ("<tr><td><i>" +:+ noSavedGames +:+ "</i></td></tr>")
  else fold_left (fun html fileName => html +:+ fileRowHtml fileName)
         fileNames "".

(** ** The game controller (gameController) *)

(** [state.actionChart], of which the controller reads and writes the scroll
    position only. *)
Record ActionChart : Type := { yScrollPosition : Num }.

(** The global [state], as far as the controller reads and writes it. *)
Record GameState : Type := {
  stateBook : Book;
  stateMechanics : Mechanics;
  (** [state.sectionStates.currentSection], [null] before the first section *)
  sectionStatesCurrentSection : option string;
  (** [state.actionChart], possibly [null] *)
  stateActionChart : option ActionChart
}.

(** The global [state], possibly [null], and the field
    [gameController.currentSection], [null] at first. *)
Record GameWorld : Type := {
  state : option GameState;
  controllerCurrentSection : option BookSection
}.

(** What the controller asks the browser and the other parts of the
    application. *)
Record Browser : Type := {
  (** [window.getUrlParameter('debug')] *)
  debugParameter : option string;
  (** [window.pageYOffset] *)
  pageYOffset : Num;
  (** [routing.getControllerName()] *)
  controllerName : string;
  (** [setupController.checkBook()] *)
  checkBook : bool;
  (** the static field [BookValidator.xsdText], as the validation of the
      debug mode finds it *)
  schemaText : option string
}.

(** The calls of the controller into the views, the mechanics engine, the
    routing and the browser, in the order they are made. What these calls do
    is outside of the model; they are taken not to write the fields of
    [GameWorld]. *)
Inductive GameEvent : Type :=
  | EvConsoleLog (text : string)
  | EvToastrClear
  | EvFireChoiceSelected (id : string)
  | EvSetSectionContent (s : BookSection)
  | EvUpdateNavigation (s : BookSection)
  | EvMechanicsRun (s : BookSection)
  | EvBindChoiceLinks
  | EvScrollTo (x y : Num)
  | EvPersistState (st : GameState)
  | EvShowOriginSections
  | EvValidator (e : Event)
  | EvDebugWarning (text : string)
  | EvShowStatistics (show : bool)
  | EvSetNavTitle (title link : string) (showTitle : bool)
  | EvRedirect (route : string)
  | EvLoadView (view : string)
  | EvGameViewSetup.

(** Constants and functions of the classes [Book] and [Section] that only the
    controller uses. *)
Class GameCollaborators : Type := {
  (** [Book.KAIMONASTERY_SECTION] *)
  KAIMONASTERY_SECTION : string;
  (** [book.getBookTitle()] *)
  getBookTitle : Book -> string;
  (** [section.getPreviousSectionId()] *)
  getPreviousSectionId : BookSection -> string
}.

(** Modelled from the spec: [section.exists()], of the absent class
    [Section]. "existence = non-empty section XML". *)
Definition sectionExists (s : BookSection) : bool :=
  negb (length (xmlSection s) =? 0)%nat.

(** Truthiness of a number: [0] and [NaN] are falsy. *)
Definition numTruthy (n : Num) : bool :=
  match n with
  | NaN => false
  | Int z => negb (z =? 0)
  end.

(** [a == b] on numbers. *)
Definition num_eq (a b : Num) : bool :=
  match a, b with
  | Int x, Int y => x =? y
  | _, _ => false
  end.

(** [a < b] on numbers. *)
Definition num_lt (a b : Num) : bool :=
  match a, b with
  | Int x, Int y => x <? y
  | _, _ => false
  end.

Definition setState (st : option GameState) (w : GameWorld) : GameWorld :=
  {| state := st; controllerCurrentSection := controllerCurrentSection w |}.

Definition setControllerCurrentSection (s : option BookSection)
    (w : GameWorld) : GameWorld :=
  {| state := state w; controllerCurrentSection := s |}.

Definition setSectionStatesCurrentSection (id : option string)
    (st : GameState) : GameState :=
  {| stateBook := stateBook st; stateMechanics := stateMechanics st;
     sectionStatesCurrentSection := id;
     stateActionChart := stateActionChart st |}.

Definition setYScrollPosition (y : Num) (st : GameState) : GameState :=
  {| stateBook := stateBook st; stateMechanics := stateMechanics st;
     sectionStatesCurrentSection := sectionStatesCurrentSection st;
     stateActionChart := Some {| yScrollPosition := y |} |}.

Section GameController.
Context `{Collaborators} `{GameCollaborators}.

(** The block [if( window.getUrlParameter('debug') )] of [loadSection]: the
    section is validated and, when the validation returns, every error goes
    to the debug overlay; an exception of the validation leaves the block
    and [loadSection]. *)
Definition debugValidate (browser : Browser) (st : GameState)
    (current : BookSection) : list GameEvent * Completion :=
  let validator :=
    validateSection (schemaText browser) (sectionId current)
      (newBookValidator (stateMechanics st) (stateBook st)) in
  (EvShowOriginSections
     :: (map EvValidator (calls validator)
         ++ match completion validator with
            | Returned => map EvDebugWarning (errors (after validator))
            | _ => []
            end)%list,
   completion validator).

(** [gameController.loadSection]: the world it leaves, the calls it makes
    and how it ends; [None] is the [TypeError] of reading [state.book] when
    [state] is [null]. *)
Definition loadSection (browser : Browser) (id : string)
    (choiceLinkClicked : bool) (yScroll : Num) (w : GameWorld)
  : option (GameWorld * list GameEvent * Completion) :=
  match state w with
  | None => None
  | Some st =>
      let newSec := newSection (stateBook st) id (stateMechanics st) in
      if negb (sectionExists newSec) then
        Some (w, [EvConsoleLog ("Section " +:+ id +:+ " does not exists")],
              Returned)
      else
        let w := setControllerCurrentSection (Some newSec) w in
        let fired :=
          if choiceLinkClicked then [EvFireChoiceSelected id] else [] in
        let st := setSectionStatesCurrentSection (Some id) st in
        let w := setState (Some st) w in
        let yScroll := if negb (numTruthy yScroll) then Int 0 else yScroll in
        let '(debug, end_) :=
          if truthy (debugParameter browser) then debugValidate browser st newSec
          else ([], Returned) in
        Some (w,
              ([EvToastrClear] ++ fired
               ++ [EvSetSectionContent newSec; EvUpdateNavigation newSec;
                   EvMechanicsRun newSec; EvBindChoiceLinks;
                   EvScrollTo (Int 0) yScroll; EvPersistState st]
               ++ debug)%list,
              end_)
  end.

(** [gameController.gameTemplateSetup] *)
Definition gameTemplateSetup (st : GameState) : list GameEvent :=
  [EvShowStatistics true;
   EvSetNavTitle (getBookTitle (stateBook st)) "#game" false].

(** [gameController.index]; the function given to [then] runs once the view
    game.html is loaded. [None] is a [TypeError]: [state] or
    [state.actionChart] is [null] where the controller reads it. *)
Definition index (browser : Browser) (w : GameWorld)
  : option (GameWorld * list GameEvent * Completion) :=
  if negb (checkBook browser) then Some (w, [], Returned)
  else
    match state w with
    | None => None
    | Some st =>
        if bool_decide (sectionStatesCurrentSection st
                        = Some KAIMONASTERY_SECTION)
        then Some (w, (gameTemplateSetup st ++ [EvRedirect "kaimonastery"])%list,
                   Returned)
        else
          let sec :=
            if negb (truthy (sectionStatesCurrentSection st))
            then INITIAL_SECTION
            else default "" (sectionStatesCurrentSection st) in
          match stateActionChart st with
          | None => None
          | Some chart =>
              match loadSection browser sec false (yScrollPosition chart) w with
              | None => None
              | Some (w', evs, end_) =>
                  Some (w',
                        ([EvLoadView "game.html"] ++ gameTemplateSetup st
                         ++ [EvGameViewSetup] ++ evs)%list,
                        end_)
              end
          end
    end.

(** [gameController.onNavigatePrevNext]; [None] is the [TypeError] of a
    [null] current section. *)
Definition onNavigatePrevNext (browser : Browser) (increment : Num)
    (w : GameWorld) : option (GameWorld * list GameEvent * Completion) :=
  match controllerCurrentSection w with
  | None => None
  | Some s =>
      let newId :=
        if num_lt increment (Int 0) then getPreviousSectionId s
        else getNextSectionId s in
      loadSection browser newId false (Int 0) w
  end.

(** [gameController.getBackController] *)
Definition getBackController : string := "mainMenu".

(** [gameController.onLeave] *)
Definition onLeave (browser : Browser) (w : GameWorld)
  : GameWorld * list GameEvent :=
  match state w with
  | None => (w, [])
  | Some st =>
      match stateActionChart st with
      | None => (w, [])
      | Some chart =>
          let st :=
            if negb (String.eqb (controllerName browser) "kaimonasteryController"
                     && num_eq (pageYOffset browser) (Int 0))
            then setYScrollPosition (pageYOffset browser) st
            else st in
          (setState (Some st) w, [EvPersistState st])
      end
  end.

End GameController.

(** The calls the application makes to the controller. *)
Inductive GameCall : Type :=
  | CallIndex
  | CallLoadSection (id : string) (choiceLinkClicked : bool) (yScroll : Num)
  | CallNavigate (increment : Num)
  | CallOnLeave.

Definition runGameCall `{Collaborators} `{GameCollaborators}
    (browser : Browser) (c : GameCall) (w : GameWorld)
  : option (GameWorld * list GameEvent * Completion) :=
  match c with
  | CallIndex => index browser w
  | CallLoadSection id clicked y => loadSection browser id clicked y w
  | CallNavigate increment => onNavigatePrevNext browser increment w
  | CallOnLeave =>
      let '(w', evs) := onLeave browser w in Some (w', evs, Returned)
  end.

(** The two records of the current section agree: when the controller has a
    current section, [state.sectionStates.currentSection] is its id. *)
Definition sectionsAgree (w : GameWorld) : Prop :=
  forall s, controllerCurrentSection w = Some s ->
    exists st, state w = Some st /\
               sectionStatesCurrentSection st = Some (sectionId s).

(** The texts sent to [mechanicsEngine.debugWarning], in order. *)
Definition debugWarnings (evs : list GameEvent) : list string :=
  omap (fun e => match e with
                 | EvDebugWarning text => Some text
                 | _ => None
                 end) evs.

(** The section [index] shows: the current one, or the initial one. *)
Definition sectionToShow `{Collaborators} (st : GameState) : string :=
  if negb (truthy (sectionStatesCurrentSection st)) then INITIAL_SECTION
  else default "" (sectionStatesCurrentSection st).

(** ** A small game, for the examples *)

Definition sampleGameCollaborators : GameCollaborators :=
  {| KAIMONASTERY_SECTION := "kaimonastery";
     getBookTitle := fun _ => "Flight from the Dark";
     getPreviousSectionId := fun _ => "tssf" |}.

Definition sampleGameState : GameState :=
  {| stateBook := sampleBook;
     stateMechanics := sampleMechanics;
     sectionStatesCurrentSection := Some "sect1";
     stateActionChart := Some {| yScrollPosition := Int 0 |} |}.

Definition sampleWorld : GameWorld :=
  {| state := Some sampleGameState; controllerCurrentSection := None |}.

(** The world once the controller has shown the first section. *)
Definition shownWorld : GameWorld :=
  {| state :=
       Some (setSectionStatesCurrentSection (Some "tssf") sampleGameState);
     controllerCurrentSection :=
       Some (newSection sampleBook "tssf" sampleMechanics) |}.

Definition sampleBrowser : Browser :=
  {| debugParameter := Some "true";
     pageYOffset := Int 240;
     controllerName := "mainMenuController";
     checkBook := true;
     schemaText := None |}.
(** * Properties *)

(** ** Elementary facts *)

Lemma Element_tree_ind (P : Element -> Prop) :
  (forall name atts cs, Forall P cs -> P (Elem name atts cs)) ->
  forall e, P e.
Proof.
  intros step. fix IH 1. intros [name atts cs]. apply step.
  induction cs as [|c cs IHcs]; constructor; [apply IH | exact IHcs].
Qed.

Lemma app_cons_neq {A : Type} (l l' : list A) (x : A) : (l ++ x :: l')%list <> l.
Proof.
  intros E. apply (f_equal length) in E. rewrite length_app in E.
  simpl in E. lia.
Qed.

Lemma append_inj_l (p a b : string) : p +:+ a = p +:+ b -> a = b.
Proof.
  induction p as [|c p IH]; simpl; [tauto | intros E; injection E; auto].
Qed.

Lemma errorText_inj_msg (id tag a b : string) :
  errorText id tag a = errorText id tag b -> a = b.
Proof.
  unfold errorText. intros E.
  repeat (apply append_inj_l in E). exact E.
Qed.

Lemma errors_pushError (text : string) (v : BookValidator) :
  errors (pushError text v) = (errors v ++ [text])%list.
Proof. reflexivity. Qed.

Lemma errors_addError (rule : Element) (msg : string) (v : BookValidator) :
  errors (addError rule msg v) =
  (errors v ++ [errorText (sectionId (currentSection v)) (nodeName rule) msg])%list.
Proof. reflexivity. Qed.

Section PickProperties.
Context `{Collaborators}.

(** The check [pick] on a rule whose [objectId] is empty or absent. *)
Lemma pick_without_objectId (rule : Element) (v : BookValidator) :
  truthy (attr rule "objectId") = false ->
  pick rule v =
  (if truthy (attr rule "class")
   then if truthy (attr rule "count") then v else addError rule msgCount v
   else addError rule msgOnlyOne v).
Proof.
  intros E. unfold pick, validateObjectIdsAttribute, getPropertyValueAsArray.
  rewrite E. simpl.
  destruct (truthy (attr rule "class")), (truthy (attr rule "count"));
    reflexivity.
Qed.

(** The check [pick] on a rule with an [objectId]. *)
Lemma pick_with_objectId (rule : Element) (v : BookValidator) (id : string) :
  attr rule "objectId" = Some id -> id <> "" ->
  pick rule v =
  (let v1 :=
     if bool_decide (is_Some (getObject (mechanics v) id)) then v
     else addError rule ("Object id " +:+ id +:+ " not found") v in
   if truthy (attr rule "class")
   then let v2 := addError rule msgOnlyOne v1 in
        if truthy (attr rule "count") then v2 else addError rule msgCount v2
   else v1).
Proof.
  intros E Hid. unfold pick, validateObjectIdsAttribute, getPropertyValueAsArray.
  rewrite E. simpl. apply String.eqb_neq in Hid. rewrite Hid. simpl.
  destruct (bool_decide (is_Some (getObject (mechanics v) id)));
    destruct (truthy (attr rule "class")), (truthy (attr rule "count"));
    reflexivity.
Qed.

(** C3, as amended. The check [pick] appends no error if and only if exactly
    one of the attributes [objectId] and [class] has a non-empty value, the
    attribute [count] has a non-empty value whenever [class] has one, and the
    [objectId], when it has a non-empty value, is the id of an object of the
    mechanics. *)
Theorem pick_no_error_iff (rule : Element) (v : BookValidator) :
  errors (pick rule v) = errors v <->
  xorb (truthy (attr rule "objectId")) (truthy (attr rule "class")) = true
  /\ (truthy (attr rule "class") = true -> truthy (attr rule "count") = true)
  /\ (forall id, attr rule "objectId" = Some id -> id <> "" ->
        is_Some (getObject (mechanics v) id)).
Proof.
  destruct (truthy (attr rule "objectId")) eqn:Eo.
  - destruct (attr rule "objectId") as [id|] eqn:Ea; [|discriminate].
    assert (Hid : id <> "").
    { intros ->. discriminate. }
    rewrite (pick_with_objectId rule v id Ea Hid). cbv zeta.
    destruct (bool_decide (is_Some (getObject (mechanics v) id))) eqn:Eg.
    + apply bool_decide_eq_true in Eg.
      destruct (truthy (attr rule "class")) eqn:Ec; simpl.
      * split; [|intros (? & _); discriminate].
        destruct (truthy (attr rule "count")); rewrite ?errors_addError;
          intros E; exfalso; revert E; rewrite <- ?app_assoc;
          apply app_cons_neq.
      * split; [intros _|reflexivity].
        split; [reflexivity|]. split; [discriminate|].
        intros id' E' _. congruence.
    + apply bool_decide_eq_false in Eg.
      split.
      * destruct (truthy (attr rule "class")), (truthy (attr rule "count"));
          rewrite ?errors_addError; intros E; exfalso; revert E;
          rewrite <- ?app_assoc; apply app_cons_neq.
      * intros (_ & _ & Hobj). exfalso. apply Eg. now apply Hobj.
  - rewrite (pick_without_objectId rule v Eo).
    assert (Hno : forall id, attr rule "objectId" = Some id -> id <> "" ->
                    is_Some (getObject (mechanics v) id)).
    { intros id E Hid. rewrite E in Eo. simpl in Eo.
      apply String.eqb_neq in Hid. rewrite Hid in Eo. discriminate. }
    destruct (truthy (attr rule "class")) eqn:Ec; simpl.
    + destruct (truthy (attr rule "count")) eqn:En.
      * split; [intros _; auto | reflexivity].
      * split; [|intros (_ & Hc & _); specialize (Hc eq_refl); discriminate].
        rewrite ?errors_addError. intros E. exfalso. revert E.
        apply app_cons_neq.
    + split; [|intros (? & _); discriminate].
      rewrite ?errors_addError. intros E. exfalso. revert E.
      apply app_cons_neq.
Qed.

End PickProperties.

(** C3, as it is stated, fails: with [objectId="sword"] alone, exactly one of
    the two attributes is present and [class] is absent, yet the check
    appends an error, because no object of the mechanics is called sword. *)
Lemma pick_unknown_object_counterexample :
  ~ (errors (pick (H:=sampleCollaborators)
               (Elem "pick" {[ "objectId" := "sword" ]} []) sampleValidator)
     = errors sampleValidator
     <->
     ((is_Some (attr (Elem "pick" {[ "objectId" := "sword" ]} []) "objectId")
       /\ ~ is_Some (attr (Elem "pick" {[ "objectId" := "sword" ]} []) "class"))
      \/ (~ is_Some (attr (Elem "pick" {[ "objectId" := "sword" ]} []) "objectId")
          /\ is_Some (attr (Elem "pick" {[ "objectId" := "sword" ]} []) "class")))
     /\ (is_Some (attr (Elem "pick" {[ "objectId" := "sword" ]} []) "class") ->
         is_Some (attr (Elem "pick" {[ "objectId" := "sword" ]} []) "count"))).
Proof.
  intros [_ back].
  assert (E : errors (pick (H:=sampleCollaborators)
                        (Elem "pick" {[ "objectId" := "sword" ]} [])
                        sampleValidator) = errors sampleValidator).
  { apply back. split.
    - left. split; [eexists; vm_compute; reflexivity|].
      intros [x Hx]. vm_compute in Hx. discriminate.
    - intros [x Hx]. vm_compute in Hx. discriminate. }
  vm_compute in E. discriminate.
Qed.

Section RandomTableProperties.
Context `{Collaborators}.

(** The coverage part of [randomTable], with its loops folded. *)
Lemma checkNumbersCoverage_unfold (rule : Element) (v : BookValidator) :
  checkNumbersCoverage rule v =
  (let '(coverage, overlapped, nCasesFound) :=
     fold_left coverChild (children rule) ([], false, 0%nat) in
   if (nCasesFound =? 0)%nat then v
   else
     let v1 :=
       if findMissed coverage (numberToTest rule)
       then addError rule "Missed numbers" v else v in
     if overlapped then addError rule "Overlapped numbers" v1 else v1).
Proof. reflexivity. Qed.

(** The test of the link never fires: a jQuery object is truthy. Either the
    check gets as far as the coverage and returns, or jQuery rejects the
    selector of the link and the check throws at once. *)
Lemma randomTable_reaches (rule : Element) (v : BookValidator) :
  reachesCoverage rule v = true ->
  randomTable rule v = returned (checkNumbersCoverage rule v).
Proof.
  unfold reachesCoverage, randomTable, linkSelector. intros E.
  destruct (truthy (attr rule "text-en")); [reflexivity|].
  simpl in E. apply bool_decide_eq_true in E. destruct E as [q E].
  simpl negb. cbv iota. cbv zeta. rewrite E. reflexivity.
Qed.

Lemma randomTable_throws (rule : Element) (v : BookValidator) :
  reachesCoverage rule v = false ->
  randomTable rule v = threw v.
Proof.
  unfold reachesCoverage, randomTable, linkSelector. intros E.
  destruct (truthy (attr rule "text-en")); [discriminate|].
  simpl in E. apply bool_decide_eq_false in E.
  simpl negb. cbv iota. cbv zeta.
  destruct (jQueryFind _ _) as [q|] eqn:Eq; [|reflexivity].
  exfalso. apply E. eauto.
Qed.

Lemma coverLoop_spec (l : list Z) (coverage : list Z) (overlapped : bool) :
  NoDup l ->
  let r :=
    fold_left
      (fun '(coverage, overlapped) i =>
         if contains coverage i then (coverage, true)
         else ((coverage ++ [i])%list, overlapped))
      l (coverage, overlapped) in
  (forall z, z ∈ fst r <-> z ∈ coverage \/ z ∈ l) /\
  (snd r = true <-> overlapped = true \/ exists z, z ∈ l /\ z ∈ coverage).
Proof.
  revert coverage overlapped.
  induction l as [|i l IH]; intros coverage overlapped Hnd; cbv zeta.
  - simpl. split; [set_solver|]. split; [auto|].
    intros [?|(z & Hz & _)]; [assumption|]. inversion Hz.
  - apply NoDup_cons in Hnd as [Hi Hnd]. simpl fold_left.
    destruct (contains coverage i) eqn:Ei; unfold contains in Ei.
    + apply bool_decide_eq_true in Ei.
      destruct (IH coverage true Hnd) as [Hc Ho]. split.
      * intros z. rewrite Hc. set_solver.
      * rewrite Ho. split; [intros _|auto].
        right. exists i. set_solver.
    + apply bool_decide_eq_false in Ei.
      destruct (IH (coverage ++ [i])%list overlapped Hnd) as [Hc Ho]. split.
      * intros z. rewrite Hc. set_solver.
      * rewrite Ho. split.
        -- intros [?|(z & Hz & Hin)]; [auto|]. right. exists z.
           set_solver.
        -- intros [?|(z & Hz & Hin)]; [auto|]. right. exists z.
           set_solver.
Qed.

Lemma coverRange_spec (from to : Z) (coverage : list Z) (overlapped : bool) :
  let r := coverRange from to (coverage, overlapped) in
  (forall z, z ∈ fst r <-> z ∈ coverage \/ from <= z <= to) /\
  (snd r = true <->
   overlapped = true \/ exists z, from <= z <= to /\ z ∈ coverage).
Proof.
  destruct (coverLoop_spec (seqZ from (to - from + 1)) coverage overlapped
              (NoDup_seqZ _ _)) as [Hc Ho].
  unfold coverRange. split.
  - intros z. rewrite Hc, elem_of_seqZ. intuition lia.
  - rewrite Ho. split; (intros [?|(z & Hz & Hin)]; [auto|]); right; exists z;
      rewrite elem_of_seqZ in *; intuition lia.
Qed.

Lemma validRange_not_case (c : Element) :
  isCase c = false -> validRange c = None.
Proof. unfold validRange, isCase. now intros ->. Qed.

Lemma coverChild_spec (c : Element) (coverage : list Z) (overlapped : bool)
    (n : nat) :
  let r := coverChild (coverage, overlapped, n) c in
  (forall z, z ∈ fst (fst r) <-> z ∈ coverage \/ covers c z) /\
  (snd (fst r) = true <->
   overlapped = true \/ exists z, covers c z /\ z ∈ coverage) /\
  snd r = (n + (if isCase c then 1 else 0))%nat.
Proof.
  assert (Hnone : validRange c = None ->
            (forall z, z ∈ coverage <-> z ∈ coverage \/ covers c z) /\
            (overlapped = true <->
             overlapped = true \/ exists z, covers c z /\ z ∈ coverage)).
  { intros E. unfold covers. rewrite E. split; [|split]; naive_solver. }
  unfold coverChild, isCase. cbv zeta.
  destruct (String.eqb (nodeName c) "case") eqn:En.
  2:{ simpl. destruct Hnone as [? ?].
      - apply validRange_not_case. exact En.
      - split; [assumption|]. split; [assumption|lia]. }
  assert (Hv : validRange c =
               match getCaseRuleBounds c with
               | Some (Int from, Int to) =>
                   if from <=? to then Some (from, to) else None
               | _ => None
               end).
  { unfold validRange. now rewrite En. }
  destruct (getCaseRuleBounds c) as [[[|from] [|to]]|]; simpl;
    try (destruct (Hnone Hv) as [? ?];
         split; [assumption|]; split; [assumption|lia]).
  destruct (from <=? to) eqn:Ele; rewrite ?Ele in Hv;
    try (destruct (Hnone Hv) as [? ?]; simpl;
         split; [assumption|]; split; [assumption|lia]).
  destruct (coverRange_spec from to coverage overlapped) as [Hc Ho].
  destruct (coverRange from to (coverage, overlapped)) as [cov' ov'].
  simpl in *. unfold covers. rewrite Hv. split; [|split; [|lia]].
  - intros z. rewrite Hc. naive_solver.
  - rewrite Ho. naive_solver.
Qed.

Lemma overlapIn_cons (c : Element) (cs : list Element) :
  overlapIn (c :: cs) <->
  (exists z, covers c z /\ coveredIn cs z) \/ overlapIn cs.
Proof.
  unfold overlapIn, coveredIn. split.
  - intros (i & j & c1 & c2 & z & Hne & Hi & Hj & H1 & H2).
    destruct i as [|i], j as [|j]; simpl in *; simplify_eq.
    + left. exists z. split; [assumption|]. exists c2.
      split; [|assumption]. eapply list_elem_of_lookup_2. eassumption.
    + left. exists z. split; [assumption|]. exists c1.
      split; [|assumption]. eapply list_elem_of_lookup_2. eassumption.
    + right. exists i, j, c1, c2, z. repeat split; try assumption. congruence.
  - intros [(z & Hc & c2 & Hin & Hc2)|(i & j & c1 & c2 & z & Hne & Hi & Hj & H1 & H2)].
    + apply list_elem_of_lookup_1 in Hin as [j Hj].
      exists 0%nat, (S j), c, c2, z. repeat split; try assumption. congruence.
    + exists (S i), (S j), c1, c2, z. repeat split; try assumption. congruence.
Qed.

Lemma coveredIn_cons (c : Element) (cs : list Element) (z : Z) :
  coveredIn (c :: cs) z <-> covers c z \/ coveredIn cs z.
Proof. unfold coveredIn. set_solver. Qed.

Lemma coveredIn_nil (z : Z) : ~ coveredIn [] z.
Proof. unfold coveredIn. set_solver. Qed.

Lemma overlapIn_nil : ~ overlapIn [].
Proof. intros (i & j & c1 & c2 & z & _ & Hi & _). destruct i; discriminate. Qed.

Lemma fold_coverChild_spec (cs : list Element) (coverage : list Z)
    (overlapped : bool) (n : nat) :
  let r := fold_left coverChild cs (coverage, overlapped, n) in
  (forall z, z ∈ fst (fst r) <-> z ∈ coverage \/ coveredIn cs z) /\
  (snd (fst r) = true <->
   overlapped = true \/ (exists z, coveredIn cs z /\ z ∈ coverage)
   \/ overlapIn cs) /\
  snd r = (n + length (filter (fun c => Is_true (isCase c)) cs))%nat.
Proof.
  revert coverage overlapped n.
  induction cs as [|c cs IH]; intros coverage overlapped n; cbv zeta.
  - simpl. pose proof coveredIn_nil. pose proof overlapIn_nil.
    split; [|split]; [naive_solver | naive_solver | lia].
  - change (fold_left coverChild (c :: cs) (coverage, overlapped, n))
      with (fold_left coverChild cs (coverChild (coverage, overlapped, n) c)).
    destruct (coverChild_spec c coverage overlapped n) as (Hc1 & Ho1 & Hn1).
    destruct (coverChild (coverage, overlapped, n) c) as [[cov1 ov1] n1].
    simpl in Hc1, Ho1, Hn1.
    destruct (IH cov1 ov1 n1) as (Hc & Ho & Hn). split; [|split].
    + intros z. rewrite Hc, Hc1, coveredIn_cons. tauto.
    + rewrite Ho, Ho1, overlapIn_cons. split.
      * intros [[?|(z & ? & ?)]|[(z & Hz & Hin)|?]]; [auto| |  | auto].
        -- right. left. exists z. rewrite coveredIn_cons. auto.
        -- apply Hc1 in Hin as [?|?].
           ++ right. left. exists z. rewrite coveredIn_cons. auto.
           ++ right. right. left. exists z. auto.
      * intros [?|[(z & Hz & Hin)|[(z & Hz & Hin)|?]]]; [auto| | | auto].
        -- apply coveredIn_cons in Hz as [?|?].
           ++ left. right. exists z. auto.
           ++ right. left. exists z. rewrite Hc1. auto.
        -- right. left. exists z. rewrite Hc1. auto.
    + rewrite Hn, Hn1, filter_cons. destruct (isCase c); simpl; lia.
Qed.

Lemma findMissed_true (coverage : list Z) (lo hi : Z) :
  findMissed coverage (lo, hi) = true <->
  exists z, lo <= z <= hi /\ z ∉ coverage.
Proof.
  unfold findMissed. simpl fst. simpl snd.
  assert (G : forall l m0,
             fold_left (fun (m : bool) i =>
                          if negb (contains coverage i) then true else m) l m0
             = true <-> m0 = true \/ exists z, z ∈ l /\ z ∉ coverage).
  { induction l as [|i l IH]; intros m0; simpl.
    - split; [auto|]. intros [?|(z & Hz & _)]; [assumption|]. inversion Hz.
    - rewrite IH. unfold contains.
      destruct (bool_decide (i ∈ coverage)) eqn:Ei; simpl.
      + apply bool_decide_eq_true in Ei. set_solver.
      + apply bool_decide_eq_false in Ei. set_solver. }
  rewrite G. split.
  - intros [?|(z & Hz & Hn)]; [discriminate|]. exists z.
    rewrite elem_of_seqZ in Hz. split; [lia|assumption].
  - intros (z & Hz & Hn). right. exists z. rewrite elem_of_seqZ.
    split; [lia|assumption].
Qed.

Lemma findMissed_false (coverage : list Z) (lo hi : Z) :
  findMissed coverage (lo, hi) = false ->
  forall z, lo <= z <= hi -> z ∈ coverage.
Proof.
  intros E z Hz. destruct (decide (z ∈ coverage)) as [|Hn]; [assumption|].
  assert (findMissed coverage (lo, hi) = true) as E'.
  { apply findMissed_true. eauto. }
  congruence.
Qed.

Lemma no_case_no_cover (cs : list Element) :
  filter (fun c => Is_true (isCase c)) cs = [] ->
  (forall z, ~ coveredIn cs z) /\ ~ overlapIn cs.
Proof.
  intros E.
  assert (G : forall c z, c ∈ cs -> ~ covers c z).
  { intros c z Hin (from & to & Hv & _).
    destruct (isCase c) eqn:Ec.
    - assert (c ∈ filter (fun c => Is_true (isCase c)) cs) as Hf.
      { apply list_elem_of_filter. split; [now rewrite Ec|assumption]. }
      rewrite E in Hf. inversion Hf.
    - rewrite validRange_not_case in Hv by assumption. discriminate. }
  split.
  - intros z (c & Hin & Hc). eapply G; eassumption.
  - intros (i & j & c1 & c2 & z & _ & Hi & _ & Hc & _).
    eapply G; [|eassumption]. eapply list_elem_of_lookup_2. eassumption.
Qed.

(** What the coverage part of [randomTable] appends, in terms of the ranges
    of the children. *)
Lemma checkNumbersCoverage_errors (rule : Element) (v : BookValidator) :
  exists missed overlapped : bool,
    errors (checkNumbersCoverage rule v) =
    (errors v
     ++ (if missed
         then [errorText (sectionId (currentSection v)) (nodeName rule)
                 "Missed numbers"]
         else [])
     ++ (if overlapped
         then [errorText (sectionId (currentSection v)) (nodeName rule)
                 "Overlapped numbers"]
         else []))%list
    /\ (missed = true <->
        (exists c, c ∈ children rule /\ nodeName c = "case") /\
        ~ (forall z, fst (numberToTest rule) <= z <= snd (numberToTest rule) ->
             coveredBy rule z))
    /\ (overlapped = true <-> overlap rule).
Proof.
  rewrite checkNumbersCoverage_unfold. unfold coveredBy, overlap.
  destruct (fold_coverChild_spec (children rule) [] false 0)
    as (Hc & Ho & Hn).
  destruct (fold_left coverChild (children rule) ([], false, 0%nat))
    as [[coverage overlapped] n].
  simpl in Hc, Ho, Hn.
  assert (Hcov : forall z, z ∈ coverage <-> coveredIn (children rule) z).
  { intros z. rewrite Hc. split; [intros [Hz|?]; [inversion Hz|assumption]|auto]. }
  assert (Hov : overlapped = true <-> overlapIn (children rule)).
  { rewrite Ho. split; [|auto].
    intros [?|[(z & _ & Hz)|?]]; [discriminate|inversion Hz|assumption]. }
  destruct (n =? 0)%nat eqn:En.
  - apply Nat.eqb_eq in En. subst n.
    assert (Hf : filter (fun c => Is_true (isCase c)) (children rule) = []).
    { apply length_zero_iff_nil. lia. }
    destruct (no_case_no_cover _ Hf) as [_ Hno].
    exists false, false. rewrite !app_nil_r. split; [reflexivity|]. split.
    + split; [discriminate|]. intros [(c & Hin & Hname) _].
      assert (c ∈ filter (fun c => Is_true (isCase c)) (children rule)) as Hc'.
      { apply list_elem_of_filter. split; [|assumption].
        unfold isCase. now rewrite Hname. }
      rewrite Hf in Hc'. inversion Hc'.
    + split; [discriminate|]. intros ?. contradiction.
  - apply Nat.eqb_neq in En.
    assert (Hcase : exists c, c ∈ children rule /\ nodeName c = "case").
    { destruct (filter (fun c => Is_true (isCase c)) (children rule))
        as [|c l] eqn:Ef; [simpl in Hn; lia|].
      assert (c ∈ filter (fun c => Is_true (isCase c)) (children rule)) as Hc'.
      { rewrite Ef. left. }
      apply list_elem_of_filter in Hc' as [Hc1 Hc2]. exists c.
      split; [assumption|]. unfold isCase in Hc1.
      apply Is_true_true in Hc1. now apply String.eqb_eq. }
    destruct (numberToTest rule) as [lo hi] eqn:Ent. simpl fst. simpl snd.
    exists (findMissed coverage (lo, hi)), overlapped. split; [|split].
    + destruct (findMissed coverage (lo, hi)), overlapped;
        rewrite ?errors_addError, <- ?app_assoc, ?app_nil_r; reflexivity.
    + split.
      * intros Hm. split; [assumption|]. intros Hall.
        apply findMissed_true in Hm as (z & Hz & Hnot).
        apply Hnot, Hcov, Hall, Hz.
      * intros [_ Hnall].
        destruct (findMissed coverage (lo, hi)) eqn:Em; [reflexivity|].
        exfalso. apply Hnall. intros z Hz. apply Hcov.
        eapply findMissed_false; eassumption.
    + exact Hov.
Qed.

(** What [randomTable] appends, in terms of the selector of the link and of
    the ranges of the children. *)
Lemma randomTable_errors (rule : Element) (v : BookValidator) :
  exists missed overlapped : bool,
    errors (after (randomTable rule v)) =
    (errors v
     ++ (if missed
         then [errorText (sectionId (currentSection v)) (nodeName rule)
                 "Missed numbers"]
         else [])
     ++ (if overlapped
         then [errorText (sectionId (currentSection v)) (nodeName rule)
                 "Overlapped numbers"]
         else []))%list
    /\ (missed = true <->
        reachesCoverage rule v = true /\
        (exists c, c ∈ children rule /\ nodeName c = "case") /\
        ~ (forall z, fst (numberToTest rule) <= z <= snd (numberToTest rule) ->
             coveredBy rule z))
    /\ (overlapped = true <-> reachesCoverage rule v = true /\ overlap rule).
Proof.
  destruct (reachesCoverage rule v) eqn:Er.
  - rewrite (randomTable_reaches rule v Er). simpl after.
    destruct (checkNumbersCoverage_errors rule v)
      as (missed & overlapped & E & Hm & Ho).
    exists missed, overlapped. split; [exact E|]. split.
    + rewrite Hm. tauto.
    + rewrite Ho. tauto.
  - rewrite (randomTable_throws rule v Er). simpl after.
    exists false, false. rewrite !app_nil_r. split; [reflexivity|].
    split; (split; [discriminate | intros [? _]; discriminate]).
Qed.



(** C6. On a [randomTable] without any [case] child the check appends
    neither "Missed numbers" nor "Overlapped numbers", whatever the
    attributes of the rule and however the check ends. *)
Theorem randomTable_without_cases (rule : Element) (v : BookValidator) :
  (forall c, c ∈ children rule -> nodeName c <> "case") ->
  exists new,
    errors (after (randomTable rule v)) = (errors v ++ new)%list /\
    (errorText (sectionId (currentSection v)) (nodeName rule) "Missed numbers"
       ∉ new) /\
    (errorText (sectionId (currentSection v)) (nodeName rule)
       "Overlapped numbers" ∉ new).
Proof.
  intros Hnone.
  destruct (randomTable_errors rule v) as (missed & overlapped & E & Hm & Ho).
  assert (missed = false) as ->.
  { destruct missed; [|reflexivity].
    destruct Hm as [Hm _]. destruct (Hm eq_refl) as (_ & (c & Hin & Hn) & _).
    exfalso. eapply Hnone; eassumption. }
  assert (overlapped = false) as ->.
  { destruct overlapped; [|reflexivity].
    destruct Ho as [Ho _].
    destruct (Ho eq_refl) as (_ & i & j & c1 & c2 & z & _ & Hi & _ & Hc & _).
    destruct Hc as (from & to & Hv & _). unfold validRange in Hv.
    destruct (String.eqb (nodeName c1) "case") eqn:En; [|discriminate].
    apply String.eqb_eq in En. exfalso.
    eapply Hnone; [|exact En]. eapply list_elem_of_lookup_2. eassumption. }
  exists []. split; [exact E|]. split; apply not_elem_of_nil.
Qed.

(** The error of the missing link is never among the errors the check
    appends, whatever jQuery finds. *)
Lemma randomTable_never_reports_link (rule : Element) (v : BookValidator) :
  exists new,
    errors (after (randomTable rule v)) = (errors v ++ new)%list /\
    errorText (sectionId (currentSection v)) (nodeName rule) msgLinkNotFound
      ∉ new.
Proof.
  destruct (randomTable_errors rule v) as (missed & overlapped & E & _ & _).
  eexists. split; [exact E|]. rewrite elem_of_app. intros [Hi|Hi].
  - destruct missed; [|inversion Hi].
    apply list_elem_of_singleton, errorText_inj_msg in Hi. discriminate.
  - destruct overlapped; [|inversion Hi].
    apply list_elem_of_singleton, errorText_inj_msg in Hi. discriminate.
Qed.

End RandomTableProperties.

(** ** Every check only appends errors of its rule *)

Section Appends.
Context `{Collaborators}.

Lemma remake_id (v : BookValidator) :
  remake (errors v) (mechanicsXmlText (mechanics v))
    (mechanicsXml (mechanics v)) v = v.
Proof. destruct v as [[? ? ? ?] ? ? ?]. reflexivity. Qed.

Lemma setErrors_remake_doc (es : list string) (v : BookValidator) :
  setErrors es v
  = remake es (mechanicsXmlText (mechanics v)) (mechanicsXml (mechanics v)) v.
Proof. destruct v as [[? ? ? ?] ? ? ?]. reflexivity. Qed.

Lemma appends_mono (P Q : string -> Prop) f v :
  (forall s, P s -> Q s) -> appends P f v -> appends Q f v.
Proof.
  intros HPQ (new & HP & Hf). exists new. split; [|exact Hf].
  eapply Forall_impl; eassumption.
Qed.

Lemma appends_ext (P : string -> Prop) f g v :
  (forall es text doc, f (remake es text doc v) = g (remake es text doc v)) ->
  appends P f v -> appends P g v.
Proof.
  intros E (new & HP & Hf). exists new. split; [exact HP|].
  intros es text doc. rewrite <- E. apply Hf.
Qed.

Lemma appends_id (P : string -> Prop) v : appends P (fun w => w) v.
Proof.
  exists []. split; [constructor|]. intros es text doc. now rewrite app_nil_r.
Qed.

Lemma appends_addError (P : string -> Prop) rule msg v :
  P (errorText (sectionId (currentSection v)) (nodeName rule) msg) ->
  appends P (addError rule msg) v.
Proof.
  intros HP. eexists [_]. split; [repeat constructor; exact HP|].
  intros es text doc. reflexivity.
Qed.

Lemma appends_seq (P : string -> Prop) f g v :
  appends P f v -> appends P g v -> appends P (fun w => g (f w)) v.
Proof.
  intros (new1 & HP1 & Hf) (new2 & HP2 & Hg). exists (new1 ++ new2)%list.
  split; [now apply Forall_app|].
  intros es text doc. now rewrite Hf, Hg, app_assoc.
Qed.

Lemma appends_when (P : string -> Prop) (b : bool) rule msg v :
  (b = true -> P (errorText (sectionId (currentSection v)) (nodeName rule) msg)) ->
  appends P (fun w => if b then addError rule msg w else w) v.
Proof.
  intros HP. destruct b; [apply appends_addError; auto | apply appends_id].
Qed.

Lemma appends_forOf {A : Type} (P : string -> Prop)
    (body : A -> BookValidator -> BookValidator) (items : list A) v :
  (forall x, x ∈ items -> appends P (body x) v) ->
  appends P (forOf body items) v.
Proof.
  unfold forOf. induction items as [|x items IH]; intros Hbody; simpl.
  - apply appends_id.
  - apply (appends_seq P (body x)
             (fun w => fold_left (fun v0 x0 => body x0 v0) items w)).
    + apply Hbody. left.
    + apply IH. intros y Hy. apply Hbody. now right.
Qed.

Lemma ruleError_intro v rule msg :
  ruleError v rule (errorText (sectionId (currentSection v)) (nodeName rule) msg).
Proof. now exists msg. Qed.

(** A guarded [addError] whose guard [E] has been decided in the state [v]:
    nothing is appended, or exactly the error of the rule. *)
Ltac appends_nothing E :=
  exists []; split; [constructor|];
  intros ? ? ?; simpl; rewrite ?E; simpl; now rewrite app_nil_r.

Ltac appends_one_error E :=
  eexists [_]; split; [repeat constructor; apply ruleError_intro|];
  intros ? ? ?; simpl; rewrite ?E; reflexivity.

Lemma validateObjectIds_found rule property allowMultiple w :
  fst (validateObjectIdsAttribute rule property allowMultiple w) =
  negb (length (getPropertyValueAsArray rule property allowMultiple) =? 0)%nat.
Proof.
  unfold validateObjectIdsAttribute.
  now destruct (length _ =? 0)%nat.
Qed.

Lemma appends_validateObjectIds rule property allowMultiple v :
  appends (ruleError v rule)
    (fun w => snd (validateObjectIdsAttribute rule property allowMultiple w)) v.
Proof.
  unfold validateObjectIdsAttribute.
  destruct (length _ =? 0)%nat; simpl; [apply appends_id|].
  apply appends_forOf. intros id _.
  unfold getObject.
  destruct (bool_decide (is_Some (objectsTable (mechanics v) !! id))) eqn:E;
    [appends_nothing E | appends_one_error E].
Qed.

Lemma appends_validateDisciplines rule property allowMultiple v :
  appends (ruleError v rule)
    (validateDisciplinesAttribute rule property allowMultiple) v.
Proof.
  unfold validateDisciplinesAttribute.
  destruct (length _ =? 0)%nat; simpl; [apply appends_id|].
  apply (appends_ext _
           (forOf (fun disciplineId w =>
                     if negb (tableHas (getDisciplinesTable (book v))
                                disciplineId)
                     then addError rule
                            ("Wrong discipline id: " +:+ disciplineId) w
                     else w)
                  (getPropertyValueAsArray rule property allowMultiple)));
    [reflexivity|].
  apply appends_forOf. intros id _.
  destruct (tableHas (getDisciplinesTable (book v)) id) eqn:E;
    [appends_nothing E | appends_one_error E].
Qed.

Lemma appends_validateSections rule property allowMultiple v :
  appends (ruleError v rule)
    (validateSectionsAttribute rule property allowMultiple) v.
Proof.
  unfold validateSectionsAttribute. apply appends_forOf. intros id _.
  destruct (length (getSectionXml (book v) id) =? 0)%nat eqn:E;
    [appends_one_error E | appends_nothing E].
Qed.

Lemma appends_pick rule v : appends (ruleError v rule) (pick rule) v.
Proof.
  set (found := negb (length (getPropertyValueAsArray rule "objectId" false)
                      =? 0)%nat).
  set (classFound := truthy (attr rule "class")).
  apply (appends_ext _
           (fun w =>
              (fun w2 => if classFound && negb (truthy (attr rule "count"))
                         then addError rule msgCount w2 else w2)
                ((fun w1 => if negb ((found && negb classFound)
                                     || (negb found && classFound))
                            then addError rule msgOnlyOne w1 else w1)
                   (snd (validateObjectIdsAttribute rule "objectId" false w))))).
  - intros es text doc. unfold pick.
    pose proof (validateObjectIds_found rule "objectId" false
                  (remake es text doc v)) as Hf.
    destruct (validateObjectIdsAttribute rule "objectId" false
                (remake es text doc v)) as [b w1].
    simpl in Hf. subst b. reflexivity.
  - apply (appends_seq _
             (fun w => (fun w1 => if negb ((found && negb classFound)
                                           || (negb found && classFound))
                                  then addError rule msgOnlyOne w1 else w1)
                         (snd (validateObjectIdsAttribute rule "objectId" false w)))
             (fun w2 => if classFound && negb (truthy (attr rule "count"))
                        then addError rule msgCount w2 else w2)).
    + apply (appends_seq _
               (fun w => snd (validateObjectIdsAttribute rule "objectId" false w))
               (fun w1 => if negb ((found && negb classFound)
                                   || (negb found && classFound))
                          then addError rule msgOnlyOne w1 else w1)).
      * apply appends_validateObjectIds.
      * apply appends_when. intros _. apply ruleError_intro.
    + apply appends_when. intros _. apply ruleError_intro.
Qed.

Lemma appends_checkNumbersCoverage rule v :
  appends (ruleError v rule) (checkNumbersCoverage rule) v.
Proof.
  apply (appends_ext _
           (fun w =>
              let '(coverage, overlapped, nCasesFound) :=
                fold_left coverChild (children rule) ([], false, 0%nat) in
              if (nCasesFound =? 0)%nat then w
              else
                let v1 :=
                  if findMissed coverage (numberToTest rule)
                  then addError rule "Missed numbers" w else w in
                if overlapped then addError rule "Overlapped numbers" v1
                else v1)).
  { intros es text doc. symmetry. apply checkNumbersCoverage_unfold. }
  destruct (fold_left coverChild (children rule) ([], false, 0%nat))
    as [[coverage overlapped] n].
  destruct (n =? 0)%nat; [apply appends_id|].
  apply (appends_seq _
           (fun w => if findMissed coverage (numberToTest rule)
                     then addError rule "Missed numbers" w else w)
           (fun w => if overlapped
                     then addError rule "Overlapped numbers" w else w));
    apply appends_when; intros _; apply ruleError_intro.
Qed.

Lemma appends_case rule v : appends (ruleError v rule) (case rule) v.
Proof.
  unfold case. destruct (getCaseRuleBounds rule) as [[b0 b1]|].
  - apply appends_when. intros _. apply ruleError_intro.
  - apply appends_addError, ruleError_intro.
Qed.

(** The statements of [test] before the check of the choice. *)
Lemma appends_test_attributes rule v :
  appends (ruleError v rule)
    (fun w =>
       (fun w5 =>
          if truthy (attr rule "bookLanguage")
             && (negb (String.eqb (default "" (attr rule "bookLanguage")) "en")
                 && negb (String.eqb (default "" (attr rule "bookLanguage")) "es"))
          then addError rule
                 ("Wrong language: " +:+ default "" (attr rule "bookLanguage")) w5
          else w5)
         (snd (validateObjectIdsAttribute rule "currentWeapon" false
                 (validateSectionsAttribute rule "sectionVisited" true
                    (snd (validateObjectIdsAttribute rule "hasObject" true
                            (validateDisciplinesAttribute rule
                               "hasDiscipline" true w))))))) v.
Proof.
  set (language := attr rule "bookLanguage").
  apply (appends_seq _
           (fun w =>
              snd (validateObjectIdsAttribute rule "currentWeapon" false
                     (validateSectionsAttribute rule "sectionVisited" true
                        (snd (validateObjectIdsAttribute rule "hasObject" true
                                (validateDisciplinesAttribute rule
                                   "hasDiscipline" true w))))))
           (fun w5 =>
              if truthy language
                 && (negb (String.eqb (default "" language) "en")
                     && negb (String.eqb (default "" language) "es"))
              then addError rule ("Wrong language: " +:+ default "" language) w5
              else w5));
    [|apply appends_when; intros _; apply ruleError_intro].
  apply (appends_seq _
           (fun w =>
              validateSectionsAttribute rule "sectionVisited" true
                (snd (validateObjectIdsAttribute rule "hasObject" true
                        (validateDisciplinesAttribute rule "hasDiscipline" true w))))
           (fun w => snd (validateObjectIdsAttribute rule "currentWeapon" false w)));
    [|apply appends_validateObjectIds].
  apply (appends_seq _
           (fun w =>
              snd (validateObjectIdsAttribute rule "hasObject" true
                     (validateDisciplinesAttribute rule "hasDiscipline" true w)))
           (validateSectionsAttribute rule "sectionVisited" true));
    [|apply appends_validateSections].
  apply (appends_seq _
           (validateDisciplinesAttribute rule "hasDiscipline" true)
           (fun w => snd (validateObjectIdsAttribute rule "hasObject" true w)));
    [apply appends_validateDisciplines | apply appends_validateObjectIds].
Qed.

(** *** Methods that can throw *)

Lemma appendsWith_mono (docs docs' : option string -> Element -> Prop)
    (P Q : string -> Prop) f v :
  (forall text doc, docs' text doc -> docs text doc) ->
  (forall s, P s -> Q s) ->
  appendsWith docs P f v -> appendsWith docs' Q f v.
Proof.
  intros Hd HPQ (new & log & c & HP & Hf). exists new, log, c.
  split; [eapply Forall_impl; eassumption|].
  intros es text doc Hdoc. apply Hf, Hd, Hdoc.
Qed.

Lemma appendsWith_ext docs (P : string -> Prop) f g v :
  (forall es text doc, docs text doc ->
     f (remake es text doc v) = g (remake es text doc v)) ->
  appendsWith docs P f v -> appendsWith docs P g v.
Proof.
  intros E (new & log & c & HP & Hf). exists new, log, c. split; [exact HP|].
  intros es text doc Hdoc. rewrite <- E by exact Hdoc. now apply Hf.
Qed.

Lemma appendsWith_returned docs (P : string -> Prop) f v :
  appends P f v -> appendsWith docs P (fun w => returned (f w)) v.
Proof.
  intros (new & HP & Hf). exists new, [], Returned. split; [exact HP|].
  intros es text doc _. now rewrite Hf.
Qed.

Lemma appendsWith_threw docs (P : string -> Prop) v :
  appendsWith docs P threw v.
Proof.
  exists [], [], Threw. split; [constructor|].
  intros es text doc _. now rewrite app_nil_r.
Qed.

Lemma appendsWith_notFollowed docs (P : string -> Prop) v :
  appendsWith docs P notFollowed v.
Proof.
  exists [], [], NotFollowed. split; [constructor|].
  intros es text doc _. now rewrite app_nil_r.
Qed.

Lemma appendsWith_andThen docs (P : string -> Prop) f g v :
  appendsWith docs P f v -> appendsWith docs P g v ->
  appendsWith docs P (fun w => andThen (f w) g) v.
Proof.
  intros (new1 & log1 & c1 & HP1 & Hf) (new2 & log2 & c2 & HP2 & Hg).
  destruct c1.
  - exists (new1 ++ new2)%list, (log1 ++ log2)%list, c2.
    split; [now apply Forall_app|].
    intros es text doc Hdoc. rewrite (Hf _ _ _ Hdoc). unfold andThen. simpl.
    rewrite (Hg _ _ _ Hdoc). unfold withCalls. simpl.
    now rewrite app_assoc.
  - exists new1, log1, Threw. split; [exact HP1|].
    intros es text doc Hdoc. now rewrite (Hf _ _ _ Hdoc).
  - exists new1, log1, NotFollowed. split; [exact HP1|].
    intros es text doc Hdoc. now rewrite (Hf _ _ _ Hdoc).
Qed.

Lemma appendsWith_after docs (P : string -> Prop) g f v :
  appends P g v -> appendsWith docs P f v ->
  appendsWith docs P (fun w => f (g w)) v.
Proof.
  intros (new1 & HP1 & Hg) (new2 & log & c & HP2 & Hf).
  exists (new1 ++ new2)%list, log, c. split; [now apply Forall_app|].
  intros es text doc Hdoc. rewrite Hg, (Hf _ _ _ Hdoc). now rewrite app_assoc.
Qed.

Lemma appendsWith_forEach {A : Type} docs (P : string -> Prop)
    (body : A -> BookValidator -> Result) (items : list A) v :
  (forall x, x ∈ items -> appendsWith docs P (body x) v) ->
  appendsWith docs P (forEach body items) v.
Proof.
  induction items as [|x items IH]; intros Hbody.
  - exists [], [], Returned. split; [constructor|].
    intros es text doc _. simpl. now rewrite app_nil_r.
  - change (appendsWith docs P
              (fun w => andThen (body x w) (forEach body items)) v).
    apply appendsWith_andThen.
    + apply Hbody. left.
    + apply IH. intros y Hy. apply Hbody. now right.
Qed.

Lemma appendsWith_validateSectionChoice docs rule property v :
  appendsWith docs (ruleError v rule)
    (validateSectionChoiceAttribute rule property) v.
Proof.
  destruct (truthy (attr rule property)) eqn:Et.
  - destruct (jQueryFind (xmlSection (currentSection v))
                ("choice[idref=" +:+ default "" (attr rule property) +:+ "]"))
      as [choices|] eqn:Ef.
    + destruct (length choices =? 0)%nat eqn:E.
      * eexists [_], [], Returned.
        split; [repeat constructor; apply ruleError_intro|].
        intros es text doc _. unfold validateSectionChoiceAttribute.
        rewrite Et. simpl. rewrite Ef, E. reflexivity.
      * exists [], [], Returned. split; [constructor|].
        intros es text doc _. unfold validateSectionChoiceAttribute.
        rewrite Et. simpl. rewrite Ef, E. now rewrite app_nil_r.
    + exists [], [], Threw. split; [constructor|].
      intros es text doc _. unfold validateSectionChoiceAttribute.
      rewrite Et. simpl. rewrite Ef. now rewrite app_nil_r.
  - exists [], [], Returned. split; [constructor|].
    intros es text doc _. unfold validateSectionChoiceAttribute.
    rewrite Et. simpl. now rewrite app_nil_r.
Qed.

Lemma appendsWith_randomTable docs rule v :
  appendsWith docs (ruleError v rule) (randomTable rule) v.
Proof.
  destruct (reachesCoverage rule v) eqn:Er.
  - apply (appendsWith_ext docs _
             (fun w => returned (checkNumbersCoverage rule w))).
    + intros es text doc _. symmetry. apply randomTable_reaches. exact Er.
    + apply appendsWith_returned, appends_checkNumbersCoverage.
  - apply (appendsWith_ext docs _ threw).
    + intros es text doc _. symmetry. apply randomTable_throws. exact Er.
    + apply appendsWith_threw.
Qed.

Lemma appendsWith_test docs rule v :
  appendsWith docs (ruleError v rule) (test rule) v.
Proof.
  apply (appendsWith_after docs _ _
           (validateSectionChoiceAttribute rule "isChoiceEnabled")).
  - apply appends_test_attributes.
  - apply appendsWith_validateSectionChoice.
Qed.

Lemma appendsWith_ruleCheck docs rule check v :
  member (nodeName rule) = RuleCheck check ->
  appendsWith docs (ruleError v rule) (check rule) v.
Proof.
  unfold member.
  destruct (String.eqb (nodeName rule) "pick");
    [intros [= <-]; apply appendsWith_returned, appends_pick|].
  destruct (String.eqb (nodeName rule) "randomTable");
    [intros [= <-]; apply appendsWith_randomTable|].
  destruct (String.eqb (nodeName rule) "case");
    [intros [= <-]; apply appendsWith_returned, appends_case|].
  destruct (String.eqb (nodeName rule) "test");
    [intros [= <-]; apply appendsWith_test|].
  destruct (String.eqb (nodeName rule) "addError"); [discriminate|].
  destruct (String.eqb (nodeName rule) "validateXml"); [discriminate|].
  destruct (inNames (nodeName rule) ["validateNumericExpression";
                                     "validateBooleanExpression"]);
    [discriminate|].
  destruct (inNames (nodeName rule) ["validateRule"; "validateChildrenRules"]);
    [discriminate|].
  destruct (inNames (nodeName rule) fieldNames); [discriminate|].
  destruct (inNames (nodeName rule) otherMethodNames
            || inNames (nodeName rule) objectPrototypeNames);
    discriminate.
Qed.

Lemma member_validateXml (name : string) :
  member name = ValidateXmlMember -> name = "validateXml".
Proof.
  unfold member.
  destruct (String.eqb name "pick"); [discriminate|].
  destruct (String.eqb name "randomTable"); [discriminate|].
  destruct (String.eqb name "case"); [discriminate|].
  destruct (String.eqb name "test"); [discriminate|].
  destruct (String.eqb name "addError"); [discriminate|].
  destruct (String.eqb name "validateXml") eqn:E;
    [intros _; now apply String.eqb_eq|].
  destruct (inNames name ["validateNumericExpression";
                          "validateBooleanExpression"]); [discriminate|].
  destruct (inNames name ["validateRule"; "validateChildrenRules"]);
    [discriminate|].
  destruct (inNames name fieldNames); [discriminate|].
  destruct (inNames name otherMethodNames || inNames name objectPrototypeNames);
    discriminate.
Qed.

Lemma appendsWith_validateXml (xsdText : option string) v :
  appendsWith (documentOf v) (fun _ => True)
    (fun w => let '(v', log) := validateXml xsdText w in
              withCalls log (returned v')) v.
Proof.
  destruct (validateXml xsdText v) as [v1 log] eqn:Ev.
  exists (drop (length (errors v)) (errors v1)), log, Returned.
  split; [apply Forall_forall; auto|].
  intros es text doc [-> ->]. rewrite <- !setErrors_remake_doc.
  revert Ev. unfold validateXml, withCalls, returned.
  destruct (truthy xsdText); simpl.
  - match goal with
    | |- context [String.eqb ?a ?b] => destruct (String.eqb a b)
    end; intros [= <- <-]; simpl.
    + rewrite drop_all, app_nil_r. reflexivity.
    + rewrite drop_app_length. reflexivity.
  - intros [= <- <-]. simpl. rewrite drop_app_length. reflexivity.
Qed.

Lemma descendants_unfold (e : Element) :
  descendants e = flat_map (fun c => c :: descendants c) (childNodes e).
Proof.
  destruct e as [name atts cs]. simpl.
  induction cs as [|c cs IH]; simpl; [reflexivity|]. now rewrite IH.
Qed.

Lemma descendants_child (e c d : Element) :
  c ∈ childNodes e -> d ∈ c :: descendants c -> d ∈ descendants e.
Proof.
  intros Hc Hd. rewrite descendants_unfold.
  apply list_elem_of_In, in_flat_map. exists c.
  split; apply list_elem_of_In; assumption.
Qed.

(** [validateRule] is the call of the member that bears the name of the
    rule, if any, followed by [validateChildrenRules] on the rule. *)
Lemma validateRule_unfold (xsdText : option string) (rule : Element)
    (v : BookValidator) :
  validateRule xsdText rule v =
  andThen (callMember xsdText rule v)
    (validateChildrenRules xsdText (Some rule)).
Proof.
  destruct rule as [name atts cs].
  unfold callMember, validateChildrenRules, children. simpl.
  assert (L : forall w,
             (fix loop (cs0 : list Element) (v0 : BookValidator) : Result :=
                match cs0 with
                | [] => returned v0
                | child :: cs' =>
                    andThen (validateRule xsdText child v0) (loop cs')
                end) cs w
             = forEach (validateRule xsdText) cs w).
  { induction cs as [|c cs IH]; intros w; simpl; [reflexivity|].
    unfold andThen. destruct (completion _); try reflexivity.
    now rewrite IH. }
  unfold andThen.
  destruct (member name); rewrite ?L;
    match goal with
    | |- context [completion ?r] => destruct (completion r)
    end; rewrite ?L; reflexivity.
Qed.

(** The walk from a rule, for any family [docs] of rules documents and any
    family [Q] of errors that the call of the member of a rule appends. *)
Lemma validateRule_appendsWith (xsdText : option string)
    (docs : BookValidator -> option string -> Element -> Prop)
    (Q : BookValidator -> Element -> string -> Prop)
    (allowed : string -> Prop) :
  (forall rule v,
     allowed (nodeName rule) -> member (nodeName rule) <> WalkMember ->
     appendsWith (docs v) (Q v rule) (callMember xsdText rule) v) ->
  forall rule v,
    (forall r, r ∈ rule :: descendants rule -> allowed (nodeName r)) ->
    appendsWith (docs v)
      (fun s => exists r, r ∈ rule :: descendants rule /\ Q v r s)
      (validateRule xsdText rule) v.
Proof.
  intros Hown.
  induction rule as [name atts cs IH] using Element_tree_ind. intros v Hall.
  set (rule := Elem name atts cs) in *.
  assert (Hkids : appendsWith (docs v)
                    (fun s => exists r, r ∈ rule :: descendants rule /\ Q v r s)
                    (validateChildrenRules xsdText (Some rule)) v).
  { unfold validateChildrenRules. apply appendsWith_forEach. intros c Hc.
    rewrite Forall_forall in IH.
    eapply appendsWith_mono; [| |apply (IH c Hc v)].
    - auto.
    - intros s (r & Hr & HQ). exists r. split; [|exact HQ].
      right. eapply descendants_child; [exact Hc|exact Hr].
    - intros r Hr. apply Hall. right.
      eapply descendants_child; [exact Hc|exact Hr]. }
  apply (appendsWith_ext _ _
           (fun w => andThen (callMember xsdText rule w)
                       (validateChildrenRules xsdText (Some rule)))).
  { intros es text doc _. symmetry. apply validateRule_unfold. }
  apply appendsWith_andThen; [|exact Hkids].
  destruct (member (nodeName rule)) eqn:Em;
    try (eapply appendsWith_mono; [| |apply Hown];
         [auto
         |intros s HQ; exists rule; split; [left|exact HQ]
         |apply Hall; left
         |rewrite Em; discriminate]).
  apply (appendsWith_ext _ _ (validateChildrenRules xsdText (Some rule)));
    [|exact Hkids].
  intros es text doc _. unfold callMember. now rewrite Em.
Qed.

(** The call of a member, whatever the member, for the document of the
    validator. *)
Lemma callMember_appendsWith (xsdText : option string) (rule : Element)
    (v : BookValidator) :
  member (nodeName rule) <> WalkMember ->
  appendsWith (documentOf v) (fun _ => True) (callMember xsdText rule) v.
Proof.
  intros Hw. unfold callMember.
  destruct (member (nodeName rule)) eqn:Em.
  - apply appendsWith_returned, appends_id.
  - apply (appendsWith_mono anyDocument _ (ruleError v rule) _);
      [intros; exact I | intros; exact I
      | apply appendsWith_ruleCheck; exact Em].
  - apply appendsWith_returned, appends_addError. exact I.
  - apply appendsWith_validateXml.
  - apply appendsWith_returned, appends_id.
  - contradiction.
  - apply appendsWith_threw.
  - apply appendsWith_notFollowed.
Qed.

(** The call of a member other than [validateXml], for any document: it
    appends errors of the rule only. *)
Lemma callMember_appendsRule (xsdText : option string) (rule : Element)
    (v : BookValidator) :
  nodeName rule <> "validateXml" ->
  member (nodeName rule) <> WalkMember ->
  appendsWith anyDocument (ruleError v rule) (callMember xsdText rule) v.
Proof.
  intros Hx Hw. unfold callMember.
  destruct (member (nodeName rule)) eqn:Em.
  - apply appendsWith_returned, appends_id.
  - apply appendsWith_ruleCheck. exact Em.
  - apply appendsWith_returned, appends_addError, ruleError_intro.
  - exfalso. apply Hx, member_validateXml, Em.
  - apply appendsWith_returned, appends_id.
  - contradiction.
  - apply appendsWith_threw.
  - apply appendsWith_notFollowed.
Qed.

(** One section, for any family of documents: the current section becomes
    the section [id], and what the rules below [parent] append is appended. *)
Lemma validateSectionInternal_appendsWith (xsdText : option string)
    (docs : BookValidator -> option string -> Element -> Prop)
    (Q : BookValidator -> Element -> string -> Prop)
    (allowed : string -> Prop) :
  (forall s v text doc, docs (setCurrentSection s v) text doc <-> docs v text doc) ->
  (forall rule v,
     allowed (nodeName rule) -> member (nodeName rule) <> WalkMember ->
     appendsWith (docs v) (Q v rule) (callMember xsdText rule) v) ->
  forall (id : string) (parent : option Element) (v : BookValidator),
    (forall r, r ∈ from_option descendants [] parent -> allowed (nodeName r)) ->
    exists new log c,
      Forall (fun s => exists r,
                r ∈ from_option descendants [] parent /\
                Q (setCurrentSection (newSection (book v) id (mechanics v)) v) r s)
             new /\
      forall es text doc,
        docs v text doc ->
        getSection (mechanics (remake es text doc v)) id = parent ->
        validateSectionInternal xsdText id (remake es text doc v) =
        {| after :=
             remake (es ++ new) text doc
               (setCurrentSection (newSection (book v) id (mechanics v)) v);
           calls := log; completion := c |}.
Proof.
  intros Hdocs Hown id parent v Hall.
  set (v1 := setCurrentSection (newSection (book v) id (mechanics v)) v).
  assert (E : forall es text doc,
             getSection (mechanics (remake es text doc v)) id = parent ->
             validateSectionInternal xsdText id (remake es text doc v)
             = validateChildrenRules xsdText parent (remake es text doc v1)).
  { intros es text doc Hroot. rewrite <- Hroot. reflexivity. }
  destruct parent as [p|].
  - destruct (appendsWith_forEach (docs v1)
                (fun s => exists r, r ∈ descendants p /\ Q v1 r s)
                (validateRule xsdText) (children p) v1)
      as (new & log & c & HP & Hf).
    { intros ch Hc.
      eapply appendsWith_mono;
        [| |apply (validateRule_appendsWith xsdText docs Q allowed Hown ch v1)].
      - auto.
      - intros s (r & Hr & HQ). exists r. split; [|exact HQ].
        eapply descendants_child; [exact Hc|exact Hr].
      - intros r Hr. apply Hall. simpl.
        eapply descendants_child; [exact Hc|exact Hr]. }
    exists new, log, c. split; [exact HP|]. intros es text doc Hdoc Hroot.
    rewrite (E _ _ _ Hroot). simpl.
    apply (Hf es text doc). now apply Hdocs.
  - exists [], [], Returned. split; [constructor|]. intros es text doc Hdoc Hroot.
    rewrite (E _ _ _ Hroot). simpl.
    now rewrite app_nil_r.
Qed.

End Appends.

(** ** Sections, the schema check and the traversal *)

Section Traversal.
Context `{Collaborators}.

Lemma setErrors_remake (es : list string) (v : BookValidator) :
  setErrors es v
  = remake es (mechanicsXmlText (mechanics v)) (mechanicsXml (mechanics v)) v.
Proof. destruct v as [[? ? ? ?] ? ? ?]. reflexivity. Qed.

Lemma setErrors_errors (v : BookValidator) : setErrors (errors v) v = v.
Proof. now destruct v. Qed.

(** One section, whatever its rules: what it appends, the calls it makes and
    how it ends do not depend on the errors already there. *)
Lemma validateSectionInternal_frame (xsdText : option string) (id : string)
    (v : BookValidator) :
  exists new log c, forall es,
    validateSectionInternal xsdText id (setErrors es v) =
    {| after :=
         setErrors (es ++ new)
           (setCurrentSection (newSection (book v) id (mechanics v)) v);
       calls := log; completion := c |}.
Proof.
  destruct (validateSectionInternal_appendsWith xsdText documentOf
              (fun _ _ _ => True) (fun _ => True)
              (fun _ _ _ _ => conj (fun x => x) (fun x => x))
              (fun rule w _ Hw => callMember_appendsWith xsdText rule w Hw)
              id (getSection (mechanics v) id) v (fun _ _ => I))
    as (new & log & c & _ & Hf).
  exists new, log, c. intros es.
  rewrite !setErrors_remake.
  apply (Hf es _ _ (conj eq_refl eq_refl)).
  destruct v as [[? ? ? ?] ? ? ?]. reflexivity.
Qed.

(** A section within a longer run is [validateSection] on its own, after the
    errors of the run. *)
Lemma validateSectionInternal_validateSection (xsdText : option string)
    (id : string) (v : BookValidator) :
  validateSectionInternal xsdText id v =
  {| after :=
       setErrors (errors v ++ errors (after (validateSection xsdText id v)))
         (setCurrentSection (newSection (book v) id (mechanics v)) v);
     calls := calls (validateSection xsdText id v);
     completion := completion (validateSection xsdText id v) |}.
Proof.
  destruct (validateSectionInternal_frame xsdText id v)
    as (new & log & c & Hf).
  unfold validateSection. rewrite (Hf []). simpl.
  specialize (Hf (errors v)). now rewrite setErrors_errors in Hf.
Qed.

Lemma validateSection_reset (xsdText : option string) (id : string)
    (v w : BookValidator) :
  mechanics v = mechanics w -> book v = book w ->
  validateSection xsdText id v = validateSection xsdText id w.
Proof. destruct v, w. simpl. intros -> ->. reflexivity. Qed.

(** The sections of a list, one after the other: the run returns when each
    of them returns on its own, its errors are then theirs in order, and a
    run that does not return ends as the first section that does not. *)
Lemma forEach_sections (xsdText : option string) (ids : list string) :
  forall v,
    let r := forEach (validateSectionInternal xsdText) ids v in
    mechanics (after r) = mechanics v /\ book (after r) = book v /\
    (completion r = Returned <->
     forall id, id ∈ ids -> completion (validateSection xsdText id v) = Returned) /\
    (completion r = Returned ->
     errors (after r)
     = (errors v
        ++ concat (map (fun id => errors (after (validateSection xsdText id v)))
                       ids))%list) /\
    (completion r <> Returned ->
     exists id, id ∈ ids /\
                completion (validateSection xsdText id v) = completion r).
Proof.
  induction ids as [|id ids IH]; intros v; cbv zeta.
  - simpl. split; [reflexivity|]. split; [reflexivity|]. split; [|split].
    + split; [intros _ id Hid; inversion Hid | reflexivity].
    + intros _. now rewrite app_nil_r.
    + intros Hc. now contradiction Hc.
  - change (forEach (validateSectionInternal xsdText) (id :: ids) v)
      with (andThen (validateSectionInternal xsdText id v)
              (forEach (validateSectionInternal xsdText) ids)).
    rewrite validateSectionInternal_validateSection. unfold andThen. simpl.
    set (v1 := setErrors
                 (errors v ++ errors (after (validateSection xsdText id v)))
                 (setCurrentSection (newSection (book v) id (mechanics v)) v)).
    assert (Hreset : forall id',
              validateSection xsdText id' v1 = validateSection xsdText id' v).
    { intros id'. now apply validateSection_reset. }
    destruct (completion (validateSection xsdText id v)) eqn:Ec.
    + destruct (IH v1) as (Hm & Hb & Hiff & Herr & Hnot). simpl.
      split; [exact Hm|]. split; [exact Hb|]. split; [|split].
      * rewrite Hiff. split.
        -- intros Hall id' Hin. apply elem_of_cons in Hin as [->|Hin];
             [exact Ec|]. rewrite <- Hreset. now apply Hall.
        -- intros Hall id' Hin. rewrite Hreset. apply Hall. now right.
      * intros Hc. rewrite (Herr Hc). simpl. rewrite <- app_assoc.
        assert (Hmap : map (fun id0 =>
                              errors (after (validateSection xsdText id0 v1))) ids
                       = map (fun id0 =>
                                errors (after (validateSection xsdText id0 v))) ids).
        { apply map_ext. intros id'. now rewrite Hreset. }
        now rewrite Hmap.
      * intros Hc. destruct (Hnot Hc) as (id' & Hin & E). exists id'.
        split; [now right|]. now rewrite <- Hreset.
    + simpl. split; [reflexivity|]. split; [reflexivity|]. split; [|split].
      * split; [discriminate|]. intros Hall.
        rewrite <- Ec. apply Hall. left.
      * discriminate.
      * intros _. exists id. split; [left|exact Ec].
    + simpl. split; [reflexivity|]. split; [reflexivity|]. split; [|split].
      * split; [discriminate|]. intros Hall.
        rewrite <- Ec. apply Hall. left.
      * discriminate.
      * intros _. exists id. split; [left|exact Ec].
Qed.

(** The sections the loop of [validateBook] validates, from [cur] on. *)
Lemma traverseSections_spec (xsdText : option string) (fuel : nat) :
  forall (lastId cur : string) (v : BookValidator),
    match traverseSections fuel xsdText lastId cur v with
    | Some r =>
        exists n,
          (n <= fuel)%nat /\
          (forall k, (k < n)%nat ->
             Nat.iter k (nextSectionLink (book v)) cur <> lastId) /\
          r = forEach (validateSectionInternal xsdText)
                (map (fun k => Nat.iter k (nextSectionLink (book v)) cur)
                     (seq 0 n)) v /\
          (completion r = Returned ->
           Nat.iter n (nextSectionLink (book v)) cur = lastId)
    | None =>
        (forall k, (k <= fuel)%nat ->
           Nat.iter k (nextSectionLink (book v)) cur <> lastId) /\
        completion
          (forEach (validateSectionInternal xsdText)
             (map (fun k => Nat.iter k (nextSectionLink (book v)) cur)
                  (seq 0 fuel)) v) = Returned
    end.
Proof.
  induction fuel as [|fuel IH]; intros lastId cur v; simpl.
  - destruct (String.eqb cur lastId) eqn:E.
    + apply String.eqb_eq in E. exists 0%nat. simpl.
      split; [lia|]. split; [intros; lia|]. split; [reflexivity|]. now intros _.
    + apply String.eqb_neq in E. split; [|reflexivity]. intros k Hk.
      assert (k = 0)%nat as -> by lia. exact E.
  - destruct (String.eqb cur lastId) eqn:E.
    + apply String.eqb_eq in E. exists 0%nat. simpl.
      split; [lia|]. split; [intros; lia|]. split; [reflexivity|]. now intros _.
    + apply String.eqb_neq in E.
      assert (Hshift : forall n,
                map (fun k => Nat.iter k (nextSectionLink (book v)) cur)
                    (seq 0 (S n))
                = cur :: map (fun k => Nat.iter k (nextSectionLink (book v))
                                         (nextSectionLink (book v) cur))
                             (seq 0 n)).
      { intros n. simpl. f_equal. rewrite <- seq_shift, map_map.
        apply map_ext. intros k. now rewrite Nat.iter_succ_r. }
      rewrite validateSectionInternal_validateSection. simpl.
      set (v1 := setErrors
                   (errors v ++ errors (after (validateSection xsdText cur v)))
                   (setCurrentSection (newSection (book v) cur (mechanics v)) v)).
      assert (Hhead : forall ids,
                forEach (validateSectionInternal xsdText) (cur :: ids) v
                = andThen
                    {| after := v1;
                       calls := calls (validateSection xsdText cur v);
                       completion := completion (validateSection xsdText cur v) |}
                    (forEach (validateSectionInternal xsdText) ids)).
      { intros ids. simpl.
        now rewrite validateSectionInternal_validateSection. }
      destruct (completion (validateSection xsdText cur v)) eqn:Ec.
      * specialize (IH lastId (nextSectionLink (book v) cur) v1).
        change (book v1) with (book v) in IH.
        destruct (traverseSections fuel xsdText lastId
                    (nextSectionLink (book v) cur) v1) as [r2|];
          unfold fmap, option_fmap, option_map; cbv iota beta.
        -- destruct IH as (n & Hn & Hbefore & Hr2 & Hlast).
           exists (S n). split; [lia|]. split; [|split].
           ++ intros [|k] Hk; [exact E|].
              rewrite Nat.iter_succ_r. apply Hbefore. lia.
           ++ rewrite Hshift, Hhead. unfold andThen. simpl. now rewrite Hr2.
           ++ intros Hc. rewrite Nat.iter_succ_r. apply Hlast. exact Hc.
        -- destruct IH as (Hnever & Hret). split.
           ++ intros [|k] Hk; [exact E|].
              rewrite Nat.iter_succ_r. apply Hnever. lia.
           ++ unfold andThen. simpl.
              assert (Htail :
                        map (fun k => Nat.iter k (nextSectionLink (book v)) cur)
                            (seq 1 fuel)
                        = map (fun k => Nat.iter k (nextSectionLink (book v))
                                          (nextSectionLink (book v) cur))
                              (seq 0 fuel)).
              { rewrite <- seq_shift, map_map.
                apply map_ext. intros k. now rewrite Nat.iter_succ_r. }
              rewrite Htail. exact Hret.
      * exists 1%nat. split; [lia|]. split; [|split].
        -- intros k Hk. assert (k = 0)%nat as -> by lia. exact E.
        -- change (map _ (seq 0 1)) with [cur]. rewrite Hhead.
           unfold andThen. simpl. reflexivity.
        -- discriminate.
      * exists 1%nat. split; [lia|]. split; [|split].
        -- intros k Hk. assert (k = 0)%nat as -> by lia. exact E.
        -- change (map _ (seq 0 1)) with [cur]. rewrite Hhead.
           unfold andThen. simpl. reflexivity.
        -- discriminate.
Qed.

(** The schema check pushes at most one error, which does not depend on the
    errors already there: nothing, the error of the missing schema, or the
    trimmed output of the schema validator. *)
Lemma validateXml_spec (xsdText : option string) (v : BookValidator) :
  exists pre log,
    (pre = [] \/ (truthy xsdText = false /\ pre = [msgXsdNotLoaded])
     \/ exists module, pre = [trim (validateXML module)]) /\
    forall es s,
      validateXml xsdText (setCurrentSection s (setErrors es v))
      = (setCurrentSection s (setErrors (es ++ pre) v), log).
Proof.
  unfold validateXml. destruct (truthy xsdText); simpl.
  - match goal with
    | |- context [String.eqb ?a ?b] => destruct (String.eqb a b) eqn:E
    end; simpl.
    + eexists [], _. split; [now left|]. intros es s.
      rewrite app_nil_r. reflexivity.
    + eexists [_], _. split; [right; right; eexists; reflexivity|].
      intros es s. reflexivity.
  - exists [msgXsdNotLoaded], []. split; [right; left; now split|]. reflexivity.
Qed.

Lemma setCurrentSection_current (v : BookValidator) :
  setCurrentSection (currentSection v) v = v.
Proof. now destruct v. Qed.

Lemma validateXml_fields (xsdText : option string) (v : BookValidator) :
  mechanics (fst (validateXml xsdText v)) = mechanics v /\
  book (fst (validateXml xsdText v)) = book v /\
  currentSection (fst (validateXml xsdText v)) = currentSection v.
Proof.
  destruct (validateXml_spec xsdText v) as (pre & log & _ & Hf).
  specialize (Hf (errors v) (currentSection v)).
  rewrite setErrors_errors, setCurrentSection_current in Hf. rewrite Hf.
  repeat split.
Qed.

Lemma validateBook_unfold (xsdText : option string) (fuel : nat)
    (v : BookValidator) :
  validateBook xsdText fuel v =
  withCalls (snd (validateXml xsdText (setErrors [] v))) <$>
    traverseSections fuel xsdText (lastSectionId (mechanics v)) INITIAL_SECTION
      (fst (validateXml xsdText (setErrors [] v))).
Proof.
  unfold validateBook, getLastSectionId.
  destruct (validateXml_fields xsdText (setErrors [] v)) as (Hm & _).
  destruct (validateXml xsdText (setErrors [] v)) as [v1 log].
  simpl in *. now rewrite Hm.
Qed.

(** A whole-book validation is the schema check followed by the sections of
    the chain of links, up to the last section or to the first section that
    does not return. *)
Lemma validateBook_spec (xsdText : option string) (fuel : nat)
    (v : BookValidator) :
  match validateBook xsdText fuel v with
  | Some r =>
      exists n,
        (n <= fuel)%nat /\
        (forall k, (k < n)%nat ->
           spineSection (book v) k <> lastSectionId (mechanics v)) /\
        r = withCalls (snd (validateXml xsdText (setErrors [] v)))
              (forEach (validateSectionInternal xsdText)
                 (map (spineSection (book v)) (seq 0 n))
                 (fst (validateXml xsdText (setErrors [] v)))) /\
        (completion r = Returned ->
         spineSection (book v) n = lastSectionId (mechanics v))
  | None =>
      (forall k, (k <= fuel)%nat ->
         spineSection (book v) k <> lastSectionId (mechanics v)) /\
      (forall k, (k < fuel)%nat ->
         completion (validateSection xsdText (spineSection (book v) k) v)
         = Returned)
  end.
Proof.
  rewrite validateBook_unfold.
  destruct (validateXml_fields xsdText (setErrors [] v)) as (Hm & Hb & _).
  pose proof (traverseSections_spec xsdText fuel (lastSectionId (mechanics v))
                INITIAL_SECTION (fst (validateXml xsdText (setErrors [] v))))
    as Ht.
  rewrite Hb in Ht. change (book (setErrors [] v)) with (book v) in Ht.
  destruct (traverseSections fuel xsdText (lastSectionId (mechanics v))
              INITIAL_SECTION (fst (validateXml xsdText (setErrors [] v))))
    as [r|]; simpl.
  - destruct Ht as (n & Hn & Hbefore & -> & Hlast). exists n.
    split; [exact Hn|]. split; [exact Hbefore|]. split; [reflexivity|].
    exact Hlast.
  - destruct Ht as (Hnever & Hret). split; [exact Hnever|]. intros k Hk.
    destruct (forEach_sections xsdText
                (map (fun k => Nat.iter k (nextSectionLink (book v))
                                 INITIAL_SECTION) (seq 0 fuel))
                (fst (validateXml xsdText (setErrors [] v))))
      as (_ & _ & Hiff & _).
    rewrite (validateSection_reset xsdText _ v
               (fst (validateXml xsdText (setErrors [] v))))
      by (symmetry; assumption).
    apply Hiff; [exact Hret|].
    apply list_elem_of_In, in_map_iff. exists k. split; [reflexivity|].
    apply in_seq. lia.
Qed.


(** Every error of a section is an error of one of its rule nodes, when none
    of them is named after [validateXml]. *)
Lemma validateSection_shape (xsdText : option string) (id : string)
    (v : BookValidator) :
  noSchemaRule (mechanics v) id ->
  Forall (sectionRuleError (mechanics v) id)
    (errors (after (validateSection xsdText id v))).
Proof.
  intros Hno.
  destruct (validateSectionInternal_appendsWith xsdText (fun _ => anyDocument)
              ruleError (fun name => name <> "validateXml")
              (fun _ _ _ _ => conj (fun x => x) (fun x => x))
              (fun rule w Hx Hw => callMember_appendsRule xsdText rule w Hx Hw)
              id (getSection (mechanics v) id) v)
    as (new & log & c & HP & Hf).
  { intros r Hr. apply Hno. unfold ruleNodeOf.
    destruct (getSection (mechanics v) id) as [root|]; simpl in Hr;
      [now exists root | inversion Hr]. }
  unfold validateSection. rewrite setErrors_remake.
  rewrite (Hf [] _ _ I); [|destruct v as [[? ? ? ?] ? ? ?]; reflexivity].
  simpl. eapply Forall_impl; [exact HP|].
  intros s (r & Hr & msg & ->). exists r, msg. split; [|reflexivity].
  unfold ruleNodeOf. destruct (getSection (mechanics v) id) as [root|];
    simpl in Hr; [now exists root | inversion Hr].
Qed.

(** The sections of a list, however the run ends: the errors appended are
    errors of rule nodes of these sections. *)
Lemma forEach_sections_shape (xsdText : option string) (ids : list string) :
  forall v,
    (forall id, id ∈ ids -> noSchemaRule (mechanics v) id) ->
    exists new,
      errors (after (forEach (validateSectionInternal xsdText) ids v))
      = (errors v ++ new)%list /\
      Forall (fun s => exists id, id ∈ ids /\
                         sectionRuleError (mechanics v) id s) new.
Proof.
  induction ids as [|id ids IH]; intros v Hno.
  - exists []. simpl. split; [now rewrite app_nil_r|constructor].
  - change (forEach (validateSectionInternal xsdText) (id :: ids) v)
      with (andThen (validateSectionInternal xsdText id v)
              (forEach (validateSectionInternal xsdText) ids)).
    rewrite validateSectionInternal_validateSection. unfold andThen. simpl.
    pose proof (validateSection_shape xsdText id v (Hno id ltac:(left)))
      as Hshape.
    assert (Hhere : Forall (fun s => exists id0, id0 ∈ id :: ids /\
                                       sectionRuleError (mechanics v) id0 s)
                      (errors (after (validateSection xsdText id v)))).
    { eapply Forall_impl; [exact Hshape|]. intros s Hs. exists id.
      split; [left|exact Hs]. }
    destruct (completion (validateSection xsdText id v)).
    + match goal with
      | |- context [forEach _ ids ?v1] =>
          destruct (IH v1) as (new2 & He & HP2)
      end.
      { intros id' Hin. apply (Hno id'). now right. }
      simpl. rewrite He. simpl. rewrite <- app_assoc.
      eexists. split; [reflexivity|]. apply Forall_app. split; [exact Hhere|].
      eapply Forall_impl; [exact HP2|]. intros s (id' & Hin & Hs).
      exists id'. split; [now right|exact Hs].
    + simpl. eexists. split; [reflexivity|exact Hhere].
    + simpl. eexists. split; [reflexivity|exact Hhere].
Qed.

Lemma validateXml_errors (xsdText : option string) (v : BookValidator) :
  exists pre log,
    (pre = [] \/ (truthy xsdText = false /\ pre = [msgXsdNotLoaded])
     \/ exists module, pre = [trim (validateXML module)]) /\
    forall es,
      validateXml xsdText (setErrors es v) = (setErrors (es ++ pre) v, log).
Proof.
  destruct (validateXml_spec xsdText v) as (pre & log & Hpre & Hf).
  exists pre, log. split; [exact Hpre|]. intros es.
  specialize (Hf es (currentSection v)).
  assert (E : forall es', setCurrentSection (currentSection v) (setErrors es' v)
                          = setErrors es' v) by (intros; now destruct v).
  now rewrite !E in Hf.
Qed.

Lemma runCall_fields (xsdText : option string) (fuel : nat) (c : Call)
    (v : BookValidator) (r : Result) :
  runCall xsdText fuel c v = Some r ->
  mechanics (after r) = mechanics v /\ book (after r) = book v.
Proof.
  destruct c as [id|]; simpl.
  - intros [= <-]. unfold validateSection.
    rewrite validateSectionInternal_validateSection. now split.
  - intros Hrun. pose proof (validateBook_spec xsdText fuel v) as Hs.
    rewrite Hrun in Hs. destruct Hs as (n & _ & _ & -> & _).
    destruct (validateXml_fields xsdText (setErrors [] v)) as (Hm & Hb & _).
    destruct (forEach_sections xsdText (map (spineSection (book v)) (seq 0 n))
                (fst (validateXml xsdText (setErrors [] v))))
      as (Hm2 & Hb2 & _).
    simpl. split; [now rewrite Hm2, Hm | now rewrite Hb2, Hb].
Qed.

(** C2, as amended. After [validateSection id], when no rule node of the
    section is named after [validateXml], every error has the shape
    [Section <id>, rule <tagName>: <message>] with [tagName] the name of a
    rule node of the section [id]. After [validateBook], when no rule node of
    a section on the chain is named after [validateXml], the error list is
    the errors of the schema check (none, the error of the missing schema,
    or the trimmed output of the schema validator), followed by errors of
    that shape, each for a rule node of a section of the chain before the
    last section. *)
Theorem errors_shape_after_call (xsdText : option string) (fuel : nat)
    (c : Call) (v : BookValidator) (r : Result) :
  runCall xsdText fuel c v = Some r ->
  completion r <> NotFollowed ->
  match c with
  | CallValidateSection id =>
      noSchemaRule (mechanics v) id ->
      Forall (sectionRuleError (mechanics v) id) (errors (after r))
  | CallValidateBook =>
      (forall k, noSchemaRule (mechanics v) (spineSection (book v) k)) ->
      exists pre rest,
        errors (after r) = (pre ++ rest)%list /\
        pre = errors (fst (validateXml xsdText (setErrors [] v))) /\
        (pre = [] \/ (truthy xsdText = false /\ pre = [msgXsdNotLoaded])
         \/ exists module, pre = [trim (validateXML module)]) /\
        Forall (fun s => exists k,
                  (forall j, (j <= k)%nat ->
                     spineSection (book v) j <> lastSectionId (mechanics v)) /\
                  sectionRuleError (mechanics v) (spineSection (book v) k) s)
               rest
  end.
Proof.
  destruct c as [id|]; simpl.
  - intros [= <-] _ Hno. now apply validateSection_shape.
  - intros Hrun _ Hno. pose proof (validateBook_spec xsdText fuel v) as Hs.
    rewrite Hrun in Hs. destruct Hs as (n & _ & Hbefore & -> & _).
    destruct (validateXml_fields xsdText (setErrors [] v)) as (Hm & _).
    destruct (forEach_sections_shape xsdText
                (map (spineSection (book v)) (seq 0 n))
                (fst (validateXml xsdText (setErrors [] v))))
      as (new & He & HP).
    { intros id Hin. apply list_elem_of_In, in_map_iff in Hin as (k & <- & _).
      rewrite Hm. apply Hno. }
    exists (errors (fst (validateXml xsdText (setErrors [] v)))), new.
    split; [exact He|]. split; [reflexivity|]. split.
    + destruct (validateXml_errors xsdText v) as (pre & log & Hpre & Hf).
      rewrite (Hf []). exact Hpre.
    + eapply Forall_impl; [exact HP|]. intros s (id & Hin & Hsh).
      apply list_elem_of_In, in_map_iff in Hin as (k & <- & Hk).
      apply in_seq in Hk. exists k. split.
      * intros j Hj. apply Hbefore. lia.
      * now rewrite Hm in Hsh.
Qed.

Lemma traverseSections_currentSection (xsdText : option string) (fuel : nat)
    (lastId cur : string) (s : BookSection) (v : BookValidator) :
  outcome <$> traverseSections fuel xsdText lastId cur (setCurrentSection s v)
  = outcome <$> traverseSections fuel xsdText lastId cur v.
Proof.
  destruct fuel; simpl; destruct (String.eqb cur lastId); reflexivity.
Qed.

(** A call gives the same errors, the same calls outside and the same
    completion whatever the error list and the current section before it. *)
Lemma runCall_reset (xsdText : option string) (fuel : nat) (c : Call)
    (m : Mechanics) (b : Book) (es es' : list string) (s s' : BookSection) :
  outcome <$> runCall xsdText fuel c
                {| mechanics := m; book := b; errors := es;
                   currentSection := s |}
  = outcome <$> runCall xsdText fuel c
                  {| mechanics := m; book := b; errors := es';
                     currentSection := s' |}.
Proof.
  destruct c as [id|]; [reflexivity|]. simpl.
  rewrite !validateBook_unfold.
  set (v0 := {| mechanics := m; book := b; errors := [];
                currentSection := s' |}).
  destruct (validateXml_spec xsdText v0) as (pre & log & _ & Hf).
  pose proof (Hf [] s) as E1. pose proof (Hf [] s') as E2.
  change (setCurrentSection s (setErrors [] v0))
    with (setErrors [] {| mechanics := m; book := b; errors := es;
                          currentSection := s |}) in E1.
  change (setCurrentSection s' (setErrors [] v0))
    with (setErrors [] {| mechanics := m; book := b; errors := es';
                          currentSection := s' |}) in E2.
  rewrite E1, E2. simpl fst. simpl snd. simpl mechanics.
  change ([] ++ pre)%list with pre.
  pose proof (traverseSections_currentSection xsdText fuel (lastSectionId m)
                INITIAL_SECTION s
                (setCurrentSection s' (setErrors pre v0))) as Ht.
  change (setCurrentSection s (setCurrentSection s' (setErrors pre v0)))
    with (setCurrentSection s (setErrors pre v0)) in Ht.
  destruct (traverseSections fuel xsdText (lastSectionId m) INITIAL_SECTION
              (setCurrentSection s (setErrors pre v0))) as [r1|];
    destruct (traverseSections fuel xsdText (lastSectionId m) INITIAL_SECTION
                (setCurrentSection s' (setErrors pre v0))) as [r2|];
    simpl in Ht |- *; try discriminate; [|reflexivity].
  injection Ht as E. unfold outcome in *. simpl. congruence.
Qed.

(** C7. Each of the two operations resets the error list: the errors after a
    call, what it calls outside and how it ends are the same whatever the
    error list (and the current section) before the call, in particular the
    same as with the empty list of a validator just built; so after a first
    call that was followed to its end, the errors of a second call are those
    that call gives on a new validator. *)
Theorem errors_reset_by_each_call (xsdText : option string) (fuel : nat)
    (c : Call) :
  (forall (m : Mechanics) (b : Book) (es : list string) (s : BookSection),
     outcome <$> runCall xsdText fuel c
                   {| mechanics := m; book := b; errors := es;
                      currentSection := s |}
     = outcome <$> runCall xsdText fuel c (newBookValidator m b)) /\
  (forall (xsd1 : option string) (fuel1 : nat) (c1 : Call)
          (v0 : BookValidator) (r1 : Result),
     runCall xsd1 fuel1 c1 v0 = Some r1 ->
     completion r1 <> NotFollowed ->
     outcome <$> runCall xsdText fuel c (after r1)
     = outcome <$> runCall xsdText fuel c
                     (newBookValidator (mechanics v0) (book v0))).
Proof.
  split.
  - intros m b es s. apply runCall_reset.
  - intros xsd1 fuel1 c1 v0 r1 Hrun _.
    apply runCall_fields in Hrun as [Hm Hb].
    destruct (after r1) as [m1 b1 es1 s1]. simpl in Hm, Hb. subst m1 b1.
    apply runCall_reset.
Qed.

(** The walk from a rule, whatever the names of the rule nodes: what it
    appends, the calls it makes and how it ends do not depend on the errors
    already there. *)
Lemma forEach_rules_frame (xsdText : option string) (cs : list Element)
    (v : BookValidator) :
  exists new log c, forall es,
    forEach (validateRule xsdText) cs (setErrors es v) =
    {| after := setErrors (es ++ new) v; calls := log; completion := c |}.
Proof.
  destruct (appendsWith_forEach (documentOf v) (fun _ => True)
              (validateRule xsdText) cs v) as (new & log & c & _ & Hf).
  { intros ch _.
    eapply appendsWith_mono;
      [| |apply (validateRule_appendsWith xsdText documentOf
                   (fun _ _ _ => True) (fun _ => True)
                   (fun rule w _ Hw => callMember_appendsWith xsdText rule w Hw)
                   ch v (fun _ _ => I))]; auto. }
  exists new, log, c. intros es. rewrite !setErrors_remake.
  apply (Hf es _ _ (conj eq_refl eq_refl)).
Qed.

(** A loop over rules that returns has validated each of them, and keeps
    what each of them appended. *)
Lemma forEach_rules_reaches (xsdText : option string) (cs : list Element)
    (c : Element) :
  forall w,
    completion (forEach (validateRule xsdText) cs w) = Returned ->
    c ∈ cs ->
    exists es post,
      errors (after (forEach (validateRule xsdText) cs w))
      = (errors (after (validateRule xsdText c (setErrors es w))) ++ post)%list.
Proof.
  induction cs as [|c0 cs IH]; intros w Hret Hin; [inversion Hin|].
  change (forEach (validateRule xsdText) (c0 :: cs) w)
    with (andThen (validateRule xsdText c0 w)
            (forEach (validateRule xsdText) cs)) in *.
  destruct (forEach_rules_frame xsdText [c0] w) as (new1 & log1 & c1 & H1).
  assert (E1 : forall es,
             validateRule xsdText c0 (setErrors es w)
             = {| after := setErrors (es ++ new1) w; calls := log1;
                  completion := c1 |}).
  { intros es. specialize (H1 es). simpl in H1. unfold andThen in H1.
    destruct (validateRule xsdText c0 (setErrors es w)) as [a l k].
    simpl in H1. destruct k; simpl in H1.
    - unfold withCalls, returned in H1. simpl in H1.
      rewrite app_nil_r in H1. exact H1.
    - exact H1.
    - exact H1. }
  destruct (forEach_rules_frame xsdText cs w) as (new2 & log2 & c2 & H2).
  pose proof (E1 (errors w)) as E1w. rewrite setErrors_errors in E1w.
  rewrite E1w in Hret |- *. unfold andThen in Hret |- *. simpl in Hret |- *.
  destruct c1; try discriminate. simpl in Hret |- *.
  apply elem_of_cons in Hin as [->|Hin].
  - exists (errors w), new2. rewrite setErrors_errors, E1w. simpl.
    now rewrite H2.
  - destruct (IH (setErrors (errors w ++ new1) w) Hret Hin) as (es & post & E).
    exists es, post. exact E.
Qed.

(** The check [pick] reports an object id that the mechanics do not know. *)
Lemma pick_unknown_object (rule : Element) (v : BookValidator) (o : string) :
  attr rule "objectId" = Some o -> o <> "" ->
  getObject (mechanics v) o = None ->
  errorText (sectionId (currentSection v)) (nodeName rule)
    ("Object id " +:+ o +:+ " not found") ∈ errors (pick rule v).
Proof.
  intros Ho Hne Hnone. rewrite (pick_with_objectId rule v o Ho Hne). cbv zeta.
  rewrite Hnone. rewrite bool_decide_eq_false_2 by (intros [x Hx]; discriminate).
  destruct (truthy (attr rule "class")), (truthy (attr rule "count"));
    rewrite ?errors_addError; set_solver.
Qed.

(** A section whose validation returns has run the check of each [pick]
    rule among the children of its rules. *)
Lemma validateSection_pick (xsdText : option string) (id : string)
    (v : BookValidator) (root c : Element) (o : string) :
  completion (validateSection xsdText id v) = Returned ->
  getSection (mechanics v) id = Some root ->
  c ∈ children root -> nodeName c = "pick" ->
  attr c "objectId" = Some o -> o <> "" ->
  getObject (mechanics v) o = None ->
  errorText id "pick" ("Object id " +:+ o +:+ " not found")
    ∈ errors (after (validateSection xsdText id v)).
Proof.
  intros Hret Hroot Hc Hname Ho Hne Hnone.
  unfold validateSection, validateSectionInternal in *.
  simpl mechanics in *. rewrite Hroot in *. simpl validateChildrenRules in *.
  match type of Hret with
  | completion (forEach _ _ ?w0) = _ => set (w := w0) in *
  end.
  destruct (forEach_rules_reaches xsdText (children root) c w Hret Hc)
    as (es & post & E).
  rewrite E. apply elem_of_app. left.
  rewrite validateRule_unfold. unfold callMember, member. rewrite Hname.
  simpl String.eqb. cbv iota. unfold andThen. simpl completion. cbv iota.
  simpl after.
  destruct (forEach_rules_frame xsdText (children c)
              (pick c (setErrors es w))) as (new & log & k & Hf).
  specialize (Hf (errors (pick c (setErrors es w)))).
  rewrite setErrors_errors in Hf.
  unfold validateChildrenRules. rewrite Hf. simpl.
  apply elem_of_app. left.
  pose proof (pick_unknown_object c (setErrors es w) o Ho Hne Hnone) as Hin.
  rewrite Hname in Hin. exact Hin.
Qed.

(** C8. When the schema text is not loaded, [validateXml] pushes exactly the
    error of the missing schema and does nothing else (the schema validator
    is not called); a whole-book validation that returns then holds that
    error first, followed by the errors that [validateSection] gives for
    each section of the chain before the last one; among them is the error
    of every [pick] rule of such a section that names an unknown object. *)
Theorem schema_not_loaded (xsdText : option string) (v : BookValidator) :
  truthy xsdText = false ->
  validateXml xsdText v = (pushError msgXsdNotLoaded v, []) /\
  (forall fuel r,
     validateBook xsdText fuel v = Some r -> completion r = Returned ->
     exists n,
       firstReach (book v) (lastSectionId (mechanics v)) n /\
       errors (after r)
       = msgXsdNotLoaded
         :: concat (map (fun k =>
                           errors (after (validateSection xsdText
                                            (spineSection (book v) k) v)))
                        (seq 0 n)) /\
       forall k root c o,
         (k < n)%nat ->
         getSection (mechanics v) (spineSection (book v) k) = Some root ->
         c ∈ children root -> nodeName c = "pick" ->
         attr c "objectId" = Some o -> o <> "" ->
         getObject (mechanics v) o = None ->
         errorText (spineSection (book v) k) "pick"
           ("Object id " +:+ o +:+ " not found") ∈ errors (after r)).
Proof.
  intros Hx.
  assert (HX : forall u, validateXml xsdText u = (pushError msgXsdNotLoaded u, [])).
  { intros u. unfold validateXml. now rewrite Hx. }
  split; [apply HX|]. intros fuel r Hrun Hret.
  pose proof (validateBook_spec xsdText fuel v) as Hs.
  rewrite Hrun in Hs. destruct Hs as (n & _ & Hbefore & Hr & Hlast).
  rewrite HX in Hr. simpl fst in Hr. simpl snd in Hr.
  exists n. split; [split; [now apply Hlast|exact Hbefore]|].
  destruct (forEach_sections xsdText (map (spineSection (book v)) (seq 0 n))
              (pushError msgXsdNotLoaded (setErrors [] v)))
    as (_ & _ & Hiff & Herr & _).
  assert (Hret' : completion
                    (forEach (validateSectionInternal xsdText)
                       (map (spineSection (book v)) (seq 0 n))
                       (pushError msgXsdNotLoaded (setErrors [] v)))
                  = Returned).
  { rewrite Hr in Hret. exact Hret. }
  assert (Hreset : forall id,
            validateSection xsdText id
              (pushError msgXsdNotLoaded (setErrors [] v))
            = validateSection xsdText id v).
  { intros id. now apply validateSection_reset. }
  assert (Herrs : errors (after r)
                  = msgXsdNotLoaded
                    :: concat (map (fun k =>
                                      errors (after (validateSection xsdText
                                                       (spineSection (book v) k) v)))
                                   (seq 0 n))).
  { rewrite Hr. simpl after. rewrite (Herr Hret'). simpl. f_equal. f_equal.
    rewrite map_map. apply map_ext. intros k. now rewrite Hreset. }
  split; [exact Herrs|].
  intros k root c o Hk Hroot Hc Hname Ho Hne Hnone.
  rewrite Herrs. right. apply list_elem_of_In, in_concat.
  exists (errors (after (validateSection xsdText (spineSection (book v) k) v))).
  split.
  - apply in_map_iff. exists k. split; [reflexivity|]. apply in_seq. lia.
  - apply list_elem_of_In.
    apply (validateSection_pick xsdText _ v root c o); try assumption.
    rewrite <- Hreset. apply Hiff; [exact Hret'|].
    apply list_elem_of_In, in_map_iff. exists k. split; [reflexivity|].
    apply in_seq. lia.
Qed.

(** One section under two rules documents that hold the same rules for it,
    none of them named after [validateXml]: the same errors are appended,
    the same calls are made, and the section ends the same way. *)
Lemma validateSectionInternal_documents (xsdText : option string)
    (id : string) (v : BookValidator) (t1 t2 : option string)
    (d1 d2 : Element) :
  sectionOf d2 id = sectionOf d1 id ->
  (forall root r, sectionOf d1 id = Some root -> r ∈ descendants root ->
                  nodeName r <> "validateXml") ->
  exists new log c, forall es es',
    validateSectionInternal xsdText id (remake es t1 d1 v) =
    {| after := remake (es ++ new) t1 d1
                  (setCurrentSection (newSection (book v) id (mechanics v)) v);
       calls := log; completion := c |} /\
    validateSectionInternal xsdText id (remake es' t2 d2 v) =
    {| after := remake (es' ++ new) t2 d2
                  (setCurrentSection (newSection (book v) id (mechanics v)) v);
       calls := log; completion := c |}.
Proof.
  intros Hsame Hno.
  destruct (validateSectionInternal_appendsWith xsdText (fun _ => anyDocument)
              ruleError (fun name => name <> "validateXml")
              (fun _ _ _ _ => conj (fun x => x) (fun x => x))
              (fun rule w Hx Hw => callMember_appendsRule xsdText rule w Hx Hw)
              id (sectionOf d1 id) v)
    as (new & log & c & _ & Hf).
  { intros r Hr. destruct (sectionOf d1 id) as [root|] eqn:Er; simpl in Hr;
      [now apply (Hno root) | inversion Hr]. }
  exists new, log, c. intros es es'. split.
  - apply (Hf es t1 d1 I). reflexivity.
  - apply (Hf es' t2 d2 I). exact Hsame.
Qed.

(** The loop under two rules documents that agree on every section but the
    last one. *)
Lemma traverseSections_documents (xsdText : option string) (lastId : string)
    (t1 t2 : option string) (d1 d2 : Element) (fuel : nat) :
  (forall id, id <> lastId -> sectionOf d2 id = sectionOf d1 id) ->
  (forall id root r, id <> lastId -> sectionOf d1 id = Some root ->
                     r ∈ descendants root -> nodeName r <> "validateXml") ->
  forall (cur : string) (v : BookValidator) (es es' : list string),
    match traverseSections fuel xsdText lastId cur (remake es t1 d1 v),
          traverseSections fuel xsdText lastId cur (remake es' t2 d2 v) with
    | Some r, Some r' =>
        exists new u,
          after r = remake (es ++ new) t1 d1 u /\
          after r' = remake (es' ++ new) t2 d2 u /\
          calls r = calls r' /\ completion r = completion r'
    | None, None => True
    | _, _ => False
    end.
Proof.
  intros Hsame Hno. induction fuel as [|fuel IH]; intros cur v es es'; simpl.
  - destruct (String.eqb cur lastId); [|exact I].
    exists [], v. simpl. now rewrite !app_nil_r.
  - destruct (String.eqb cur lastId) eqn:E.
    + exists [], v. simpl. now rewrite !app_nil_r.
    + apply String.eqb_neq in E.
      destruct (validateSectionInternal_documents xsdText cur v t1 t2 d1 d2
                  (Hsame cur E) (fun root r => Hno cur root r E))
        as (new1 & log1 & c1 & Hf).
      destruct (Hf es es') as [E1 E2]. rewrite E1, E2. simpl.
      destruct c1.
      * specialize (IH (nextSectionLink (book v) cur)
                      (setCurrentSection
                         (newSection (book v) cur (mechanics v)) v)
                      (es ++ new1)%list (es' ++ new1)%list).
        destruct (traverseSections fuel xsdText lastId
                    (nextSectionLink (book v) cur) (remake (es ++ new1) t1 d1 _))
          as [r|];
          destruct (traverseSections fuel xsdText lastId
                      (nextSectionLink (book v) cur)
                      (remake (es' ++ new1) t2 d2 _)) as [r'|];
          simpl; try exact IH.
        destruct IH as (new2 & u & Ha & Ha' & Hcalls & Hcompl).
        exists (new1 ++ new2)%list, u. rewrite !app_assoc.
        split; [exact Ha|]. split; [exact Ha'|]. split; [|exact Hcompl].
        now rewrite Hcalls.
      * eexists new1, _. simpl. repeat split.
      * eexists new1, _. simpl. repeat split.
Qed.

(** C9, as amended. A whole-book validation is the schema check followed by
    the validation of the sections [spineSection 0 .. n-1] on the chain of
    next-section links, none of which is the last section; when it returns,
    [n] links lead to the last section. The rule checks of the last section
    are never run: under any other rules document that holds the same rules
    for every section but the last one (none of these rules being named
    after [validateXml]), the run ends the same way and the errors after
    those of the schema check are the same. The schema check itself reads
    the whole document. *)
Theorem validateBook_skips_last_section (xsdText : option string)
    (fuel : nat) (v : BookValidator) (r : Result) :
  validateBook xsdText fuel v = Some r ->
  (exists n,
     (forall k, (k < n)%nat ->
        spineSection (book v) k <> lastSectionId (mechanics v)) /\
     r = withCalls (snd (validateXml xsdText (setErrors [] v)))
           (forEach (validateSectionInternal xsdText)
              (map (spineSection (book v)) (seq 0 n))
              (fst (validateXml xsdText (setErrors [] v)))) /\
     (completion r = Returned ->
      spineSection (book v) n = lastSectionId (mechanics v))) /\
  (forall (text' : option string) (doc' : Element),
     (forall id, id <> lastSectionId (mechanics v) ->
        sectionOf doc' id = getSection (mechanics v) id) ->
     (forall id, id <> lastSectionId (mechanics v) ->
        noSchemaRule (mechanics v) id) ->
     exists r' rest,
       validateBook xsdText fuel (remake (errors v) text' doc' v) = Some r' /\
       completion r' = completion r /\
       errors (after r)
       = (errors (fst (validateXml xsdText (setErrors [] v))) ++ rest)%list /\
       errors (after r')
       = (errors (fst (validateXml xsdText
                         (setErrors [] (remake (errors v) text' doc' v))))
          ++ rest)%list).
Proof.
  intros Hrun. split.
  - pose proof (validateBook_spec xsdText fuel v) as Hs.
    rewrite Hrun in Hs. destruct Hs as (n & _ & Hbefore & Hr & Hlast).
    exists n. split; [exact Hbefore|]. split; [exact Hr|exact Hlast].
  - intros text' doc' Hsame Hno. rewrite validateBook_unfold in Hrun |- *.
    set (v' := remake (errors v) text' doc' v) in *.
    change (lastSectionId (mechanics v')) with (lastSectionId (mechanics v)).
    destruct (validateXml_errors xsdText v) as (pre & log & _ & HX).
    destruct (validateXml_errors xsdText v') as (pre' & log' & _ & HX').
    rewrite (HX []) in Hrun |- *. rewrite (HX' []).
    simpl fst in *. simpl snd in *. simpl app in *.
    rewrite setErrors_remake in Hrun.
    change (setErrors pre' v') with (remake pre' text' doc' v).
    pose proof (traverseSections_documents xsdText
                  (lastSectionId (mechanics v))
                  (mechanicsXmlText (mechanics v)) text'
                  (mechanicsXml (mechanics v)) doc' fuel Hsame) as Hf.
    specialize (Hf (fun id root rr Hid Hroot Hin =>
                      Hno id Hid rr (ex_intro _ root (conj Hroot Hin)))
                   INITIAL_SECTION v pre pre').
    destruct (traverseSections fuel xsdText (lastSectionId (mechanics v))
                INITIAL_SECTION
                (remake pre (mechanicsXmlText (mechanics v))
                   (mechanicsXml (mechanics v)) v))
      as [w|]; [|discriminate].
    simpl in Hrun. injection Hrun as <-.
    destruct (traverseSections fuel xsdText (lastSectionId (mechanics v))
                INITIAL_SECTION (remake pre' text' doc' v))
      as [w'|]; [|contradiction].
    destruct Hf as (new & u & Ha & Ha' & _ & Hcompl).
    exists (withCalls log' w'), new. simpl.
    split; [reflexivity|]. split; [now symmetry|].
    rewrite Ha, Ha'. split; reflexivity.
Qed.


End Traversal.

(** ** The properties on the small book *)

(** The rule nodes of the small book, section by section. *)
Lemma sample_sections (id : string) (root : Element) :
  getSection sampleMechanics id = Some root ->
  root = Elem "section" {[ "id" := "tssf" ]}
           [Elem "pick" {[ "objectId" := "sword" ]} []; Elem "randomTable" ∅ []]
  \/ root = Elem "section" {[ "id" := "sect1" ]} [sampleTable]
  \/ root = Elem "section" {[ "id" := "sect2" ]} [Elem "pick" ∅ []].
Proof.
  unfold getSection. intros Hhead.
  assert (Hin : root ∈ filter
                  (fun e => Is_true (selNameAttr "section" "id" id e))
                  (flat_map children
                     (filter (fun e => Is_true (String.eqb (nodeName e) "sections"))
                        (children (mechanicsXml sampleMechanics))))).
  { destruct (filter _ _) as [|x l]; [discriminate|].
    injection Hhead as ->. left. }
  apply list_elem_of_filter in Hin as [_ Hin].
  change (root ∈ [Elem "section" {[ "id" := "tssf" ]}
                    [Elem "pick" {[ "objectId" := "sword" ]} [];
                     Elem "randomTable" ∅ []];
                  Elem "section" {[ "id" := "sect1" ]} [sampleTable];
                  Elem "section" {[ "id" := "sect2" ]} [Elem "pick" ∅ []]])
    in Hin.
  repeat (apply elem_of_cons in Hin as [Hin|Hin]; [auto|]).
  inversion Hin.
Qed.

Lemma sample_noSchemaRule (id : string) : noSchemaRule sampleMechanics id.
Proof.
  intros r (root & Hroot & Hin).
  destruct (sample_sections id root Hroot) as [->|[->| ->]];
    change (descendants _) with
      [Elem "pick" {[ "objectId" := "sword" ]} []; Elem "randomTable" ∅ []]
      in Hin
    || change (descendants _) with
         [sampleTable; caseFromTo "0" "4"; caseFromTo "3" "8"] in Hin
    || change (descendants _) with [Elem "pick" ∅ []] in Hin;
    repeat (apply elem_of_cons in Hin as [->|Hin]; [discriminate|]);
    inversion Hin.
Qed.

(** Two rules documents of the small book that differ in the rules of the
    last section only hold the same rules for every other section. *)
Lemma rulesDocument_sectionOf (a b c c' : list Element) (id : string) :
  id <> "sect2" ->
  sectionOf (rulesDocument a b c') id = sectionOf (rulesDocument a b c) id.
Proof.
  intros Hid. unfold sectionOf, getSection, rulesDocument, children. simpl.
  rewrite !filter_cons. simpl.
  assert (Hlast : forall cs,
            ~ Is_true (selNameAttr "section" "id" id
                         (Elem "section" {[ "id" := "sect2" ]} cs))).
  { intros cs Ht. unfold selNameAttr in Ht. simpl in Ht.
    apply Is_true_true, bool_decide_eq_true in Ht.
    change (Some "sect2" = Some id) in Ht. congruence. }
  repeat match goal with
         | |- context [decide (Is_true (selNameAttr "section" "id" id ?e))] =>
             destruct (decide (Is_true (selNameAttr "section" "id" id e)))
         end; try reflexivity; exfalso; eapply Hlast; eassumption.
Qed.

(** C1. The section tssf of the small book has no link to a random table, and
    its rules hold a [randomTable] without [text-en]: jQuery finds nothing
    for the selector of the link, and the validation of the section returns
    with the error of the unknown object of the [pick] rule and nothing about
    the missing link. *)
Theorem randomTable_missing_link_not_reported :
  getSection sampleMechanics "tssf"
  = Some (Elem "section" {[ "id" := "tssf" ]}
            [Elem "pick" {[ "objectId" := "sword" ]} [];
             Elem "randomTable" ∅ []])
  /\ truthy (attr (Elem "randomTable" ∅ []) "text-en") = false
  /\ jqEq (parseInt "0")
       (jqFind (selNameAttr "a" "href" "random")
          (getSectionXml sampleBook "tssf")) = []
  /\ jQueryFind (Collaborators := sampleCollaborators)
       (getSectionXml sampleBook "tssf")
       (linkSelector (Elem "randomTable" ∅ [])) = Some []
  /\ completion (validateSection (H:=sampleCollaborators) None "tssf"
                   sampleValidator) = Returned
  /\ errors (after (validateSection (H:=sampleCollaborators) None "tssf"
                      sampleValidator))
     = ["Section tssf, rule pick: Object id sword not found"].
Proof. repeat split; vm_compute; reflexivity. Qed.

(** C2, as it is stated, fails: without the schema text, the first error of a
    whole-book validation is the error of the missing schema, which does not
    have the shape of the errors of the rules; and the validation of a
    section with a rule node named after [validateXml] gives that error
    too. *)
Lemma schema_error_shape_counterexample :
  (fun r => errors (after r)) <$>
    validateBook (H:=sampleCollaborators) None 5 sampleValidator
  = Some [msgXsdNotLoaded;
          "Section tssf, rule pick: Object id sword not found";
          "Section sect1, rule randomTable: Missed numbers";
          "Section sect1, rule randomTable: Overlapped numbers"]
  /\ getSection oddMechanics "tssf"
     = Some (Elem "section" {[ "id" := "tssf" ]} [Elem "validateXml" ∅ []])
  /\ outcome (validateSection (H:=sampleCollaborators) None "tssf"
                (validatorOf oddMechanics))
     = ([msgXsdNotLoaded], [], Returned)
  /\ ~ (exists id tagName message,
          msgXsdNotLoaded = errorText id tagName message).
Proof.
  split; [vm_compute; reflexivity|]. split; [vm_compute; reflexivity|].
  split; [vm_compute; reflexivity|].
  intros (id & tagName & message & E). discriminate E.
Qed.

(** The shape of the errors, on the section sect1 of the small book. *)
Lemma errors_shape_witness :
  runCall (H:=sampleCollaborators) None 0 (CallValidateSection "sect1")
    sampleValidator
  = Some (validateSection (H:=sampleCollaborators) None "sect1" sampleValidator)
  /\ completion (validateSection (H:=sampleCollaborators) None "sect1"
                   sampleValidator) <> NotFollowed
  /\ noSchemaRule sampleMechanics "sect1"
  /\ Forall (sectionRuleError sampleMechanics "sect1")
       (errors (after (validateSection (H:=sampleCollaborators) None "sect1"
                         sampleValidator))).
Proof.
  assert (Hc : completion (validateSection (H:=sampleCollaborators) None "sect1"
                             sampleValidator) <> NotFollowed).
  { vm_compute. discriminate. }
  split; [reflexivity|]. split; [exact Hc|].
  split; [apply sample_noSchemaRule|].
  exact (errors_shape_after_call (H:=sampleCollaborators) None 0
           (CallValidateSection "sect1") sampleValidator _ eq_refl Hc
           (sample_noSchemaRule "sect1")).
Defined.




(** A table whose only child is a [pick]: no error of coverage. *)
Lemma randomTable_without_cases_witness :
  (forall c,
     c ∈ children (Elem "randomTable" {[ "zeroAsTen" := "true" ]}
                     [Elem "pick" ∅ []]) ->
     nodeName c <> "case")
  /\ exists new,
       errors (after (randomTable (H:=sampleCollaborators)
                        (Elem "randomTable" {[ "zeroAsTen" := "true" ]}
                           [Elem "pick" ∅ []]) sampleValidator))
       = (errors sampleValidator ++ new)%list /\
       (errorText (sectionId (currentSection sampleValidator))
          (nodeName (Elem "randomTable" {[ "zeroAsTen" := "true" ]}
                       [Elem "pick" ∅ []])) "Missed numbers" ∉ new) /\
       (errorText (sectionId (currentSection sampleValidator))
          (nodeName (Elem "randomTable" {[ "zeroAsTen" := "true" ]}
                       [Elem "pick" ∅ []])) "Overlapped numbers" ∉ new).
Proof.
  assert (Hnone : forall c,
            c ∈ children (Elem "randomTable" {[ "zeroAsTen" := "true" ]}
                            [Elem "pick" ∅ []]) ->
            nodeName c <> "case").
  { intros c Hc. apply list_elem_of_singleton in Hc. subst c. discriminate. }
  split; [exact Hnone|].
  exact (randomTable_without_cases (H:=sampleCollaborators)
           (Elem "randomTable" {[ "zeroAsTen" := "true" ]} [Elem "pick" ∅ []])
           sampleValidator Hnone).
Defined.

(** A whole-book validation of the small book leaves four errors; the
    validation of the section sect1 that follows gives the two errors of
    that section and nothing of the first call. *)
Lemma errors_reset_witness :
  exists r1,
    runCall (H:=sampleCollaborators) None 5 CallValidateBook sampleValidator
    = Some r1
    /\ length (errors (after r1)) = 4%nat
    /\ outcome <$> runCall (H:=sampleCollaborators) None 5
                     (CallValidateSection "sect1") (after r1)
       = Some (["Section sect1, rule randomTable: Missed numbers";
                "Section sect1, rule randomTable: Overlapped numbers"],
               [], Returned).
Proof.
  destruct (runCall (H:=sampleCollaborators) None 5 CallValidateBook
              sampleValidator) as [r1|] eqn:Hrun; [|vm_compute in Hrun; discriminate].
  exists r1. split; [reflexivity|]. split.
  - vm_compute in Hrun. injection Hrun as <-. reflexivity.
  - assert (Hc : completion r1 <> NotFollowed).
    { vm_compute in Hrun. injection Hrun as <-. discriminate. }
    rewrite (proj2 (errors_reset_by_each_call (H:=sampleCollaborators) None 5
                      (CallValidateSection "sect1"))
               None 5%nat CallValidateBook sampleValidator r1 Hrun Hc).
    vm_compute. reflexivity.
Defined.

(** The small book without the schema text: the error of the schema comes
    first, the errors of the rules of tssf and sect1 follow, the unknown
    object of the [pick] rule of tssf among them. *)
Lemma schema_not_loaded_witness :
  truthy None = false
  /\ validateXml (H:=sampleCollaborators) None sampleValidator
     = (pushError msgXsdNotLoaded sampleValidator, [])
  /\ exists r,
       validateBook (H:=sampleCollaborators) None 2 sampleValidator = Some r
       /\ completion r = Returned
       /\ errors (after r)
          = [msgXsdNotLoaded;
             "Section tssf, rule pick: Object id sword not found";
             "Section sect1, rule randomTable: Missed numbers";
             "Section sect1, rule randomTable: Overlapped numbers"]
       /\ errorText "tssf" "pick" "Object id sword not found" ∈ errors (after r).
Proof.
  split; [reflexivity|].
  destruct (schema_not_loaded (H:=sampleCollaborators) None sampleValidator
              eq_refl) as (Hxml & Hbook).
  split; [exact Hxml|].
  destruct (validateBook (H:=sampleCollaborators) None 2 sampleValidator)
    as [r|] eqn:Hrun; [|vm_compute in Hrun; discriminate].
  exists r. split; [reflexivity|].
  assert (Hret : completion r = Returned).
  { vm_compute in Hrun. injection Hrun as <-. reflexivity. }
  split; [exact Hret|]. split.
  { vm_compute in Hrun. injection Hrun as <-. reflexivity. }
  destruct (Hbook 2%nat r Hrun Hret) as (n & [Hn Hbefore] & _ & Hpick).
  apply (Hpick 0%nat
           (Elem "section" {[ "id" := "tssf" ]}
              [Elem "pick" {[ "objectId" := "sword" ]} [];
               Elem "randomTable" ∅ []])
           (Elem "pick" {[ "objectId" := "sword" ]} []) "sword").
  - destruct n as [|n]; [vm_compute in Hn; discriminate|lia].
  - vm_compute. reflexivity.
  - left.
  - reflexivity.
  - vm_compute. reflexivity.
  - discriminate.
  - vm_compute. reflexivity.
Defined.

(** C9, as it is stated, fails: the two rules documents of the small book
    hold the same rules for tssf and sect1 and differ in the rules of the
    last section sect2 only, and the whole-book validation with a schema
    gives one more error for the second one: the schema check reads the
    rules of the last section too. *)
Lemma last_section_schema_counterexample :
  getSection otherLastMechanics "tssf" = getSection sampleMechanics "tssf"
  /\ getSection otherLastMechanics "sect1" = getSection sampleMechanics "sect1"
  /\ getSection otherLastMechanics "sect2"
     = Some (Elem "section" {[ "id" := "sect2" ]} [Elem "unknown" ∅ []])
  /\ lastSectionId otherLastMechanics = "sect2"
  /\ (fun r => errors (after r)) <$>
       validateBook (H:=sampleCollaborators) (Some "<xs:schema/>") 2
         sampleValidator
     = Some ["Section tssf, rule pick: Object id sword not found";
             "Section sect1, rule randomTable: Missed numbers";
             "Section sect1, rule randomTable: Overlapped numbers"]
  /\ (fun r => errors (after r)) <$>
       validateBook (H:=sampleCollaborators) (Some "<xs:schema/>") 2
         (validatorOf otherLastMechanics)
     = Some ["mechanics-1.xml:1: element unknown: Schemas validity error";
             "Section tssf, rule pick: Object id sword not found";
             "Section sect1, rule randomTable: Missed numbers";
             "Section sect1, rule randomTable: Overlapped numbers"].
Proof. repeat split; vm_compute; reflexivity. Qed.

(** The whole-book validation of the small book, whose last section is
    sect2, and the same validation with other rules for sect2: the errors
    after those of the schema check are the same. *)
Lemma validateBook_skips_last_section_witness :
  exists r,
    validateBook (H:=sampleCollaborators) (Some "<xs:schema/>") 2
      sampleValidator = Some r
    /\ exists r' rest,
         validateBook (H:=sampleCollaborators) (Some "<xs:schema/>") 2
           (remake (errors sampleValidator) None
              (mechanicsXml otherLastMechanics) sampleValidator) = Some r'
         /\ completion r' = completion r
         /\ errors (after r)
            = (errors (fst (validateXml (H:=sampleCollaborators)
                              (Some "<xs:schema/>")
                              (setErrors [] sampleValidator))) ++ rest)%list
         /\ errors (after r')
            = (errors (fst (validateXml (H:=sampleCollaborators)
                              (Some "<xs:schema/>")
                              (setErrors []
                                 (remake (errors sampleValidator) None
                                    (mechanicsXml otherLastMechanics)
                                    sampleValidator)))) ++ rest)%list.
Proof.
  destruct (validateBook (H:=sampleCollaborators) (Some "<xs:schema/>") 2
              sampleValidator) as [r|] eqn:Hrun;
    [|vm_compute in Hrun; discriminate].
  exists r. split; [reflexivity|].
  apply (proj2 (validateBook_skips_last_section (H:=sampleCollaborators)
                  (Some "<xs:schema/>") 2 sampleValidator r Hrun)).
  - intros id Hid. apply (rulesDocument_sectionOf _ _ _ _ id Hid).
  - intros id _. apply sample_noSchemaRule.
Defined.


(** The chain of the small book reaches its last section after two links:
    two turns of the loop are enough, one is not. *)
Example validateBook_small_book_fuel :
  completion <$> validateBook (H:=sampleCollaborators) None 2 sampleValidator
  = Some Returned
  /\ validateBook (H:=sampleCollaborators) None 1 sampleValidator = None.
Proof. split; vm_compute; reflexivity. Qed.

(** A book whose chain of links loops away from the last section, and whose
    sections all return, is never validated to the end. *)
Example validateBook_loop_never_returns (fuel : nat) :
  validateBook (H:=sampleCollaborators) None fuel
    {| mechanics := sampleMechanics; book := loopBook; errors := [];
       currentSection := unsetSection |}
  = None.
Proof.
  pose proof (validateBook_spec (H:=sampleCollaborators) None fuel
                {| mechanics := sampleMechanics; book := loopBook;
                   errors := []; currentSection := unsetSection |}) as Hs.
  destruct (validateBook _ _ _) as [r|]; [|reflexivity].
  exfalso. destruct Hs as (n & _ & _ & Hr & Hlast).
  assert (Hnever : forall k, spineSection (H:=sampleCollaborators) loopBook k
                             <> "sect2") by (intros [|k]; discriminate).
  apply (Hnever n), Hlast. rewrite Hr. simpl completion.
  apply (forEach_sections (H:=sampleCollaborators)). intros id Hin.
  apply list_elem_of_In, in_map_iff in Hin as (k & <- & _).
  destruct k as [|k]; vm_compute; reflexivity.
Qed.

(** *** The examples of the specification, on the small book *)

Example case_inverted_range :
  errors (case (H:=sampleCollaborators) (caseFromTo "5" "2") sampleValidator)
  = ["Section tssf, rule case: Wrong range"]
  /\ errors (case (H:=sampleCollaborators) (caseFromTo "2" "5") sampleValidator)
     = [].
Proof. split; vm_compute; reflexivity. Qed.

Example test_wrong_language :
  outcome (test (H:=sampleCollaborators)
             (Elem "test" {[ "bookLanguage" := "fr" ]} []) sampleValidator)
  = (["Section tssf, rule test: Wrong language: fr"], [], Returned)
  /\ outcome (test (H:=sampleCollaborators)
                (Elem "test" {[ "bookLanguage" := "en" ]} []) sampleValidator)
     = ([], [], Returned).
Proof. split; vm_compute; reflexivity. Qed.

Example test_references :
  outcome (test (H:=sampleCollaborators)
             (Elem "test" {[ "hasDiscipline" := "camflage|hunting";
                             "hasObject" := "axe|rope";
                             "sectionVisited" := "sect1|sect9";
                             "isChoiceEnabled" := "sect2" ]} [])
             sampleValidator)
  = (["Section tssf, rule test: Wrong discipline id: hunting";
      "Section tssf, rule test: Object id rope not found";
      "Section tssf, rule test: Section does not exists: sect9";
      "Section tssf, rule test: No choice found on this section with destination to sect2"],
     [], Returned).
Proof. vm_compute. reflexivity. Qed.

Example schema_loaded_and_valid :
  (fun r => (errors (after r), length (calls r), completion r)) <$>
    validateBook (H:=sampleCollaborators) (Some "<xs:schema/>") 2
      sampleValidator
  = Some (["Section tssf, rule pick: Object id sword not found";
           "Section sect1, rule randomTable: Missed numbers";
           "Section sect1, rule randomTable: Overlapped numbers"], 2%nat,
          Returned).
Proof. vm_compute. reflexivity. Qed.

(** A rule named after a field of the validator: the call is a [TypeError],
    and the rules after it are not validated. *)
Example field_name_throws :
  outcome (forEach (validateRule (H:=sampleCollaborators) None)
             [Elem "errors" ∅ []; Elem "pick" ∅ []] sampleValidator)
  = ([], [], Threw).
Proof. vm_compute. reflexivity. Qed.

(** Rules named after [addError] and [validateRule]: the error of the first
    has [undefined] as its message, the children of the second are
    validated twice. *)
Example method_names :
  outcome (forEach (validateRule (H:=sampleCollaborators) None)
             [Elem "addError" ∅ [];
              Elem "validateRule" ∅ [Elem "pick" {[ "objectId" := "axe";
                                                     "class" := "weapon" ]} []]]
             sampleValidator)
  = (["Section tssf, rule addError: undefined";
      "Section tssf, rule pick: " +:+ msgOnlyOne;
      "Section tssf, rule pick: " +:+ msgCount;
      "Section tssf, rule pick: " +:+ msgOnlyOne;
      "Section tssf, rule pick: " +:+ msgCount],
     [], Returned).
Proof. vm_compute. reflexivity. Qed.
(** * Further properties of the validator *)

Section AttributeChecks.
Context `{Collaborators}.

(** A loop of guarded [addError] appends one error per item the guard
    selects, in the order of the items, and writes nothing else. *)
Lemma forOf_guarded (bad : string -> bool) (msg : string -> string)
    (rule : Element)
    (body : string -> BookValidator -> BookValidator) (items : list string) :
  forall v,
    (forall x w,
       mechanics w = mechanics v -> book w = book v ->
       currentSection w = currentSection v ->
       body x w = if bad x then addError rule (msg x) w else w) ->
    mechanics (forOf body items v) = mechanics v /\
    book (forOf body items v) = book v /\
    currentSection (forOf body items v) = currentSection v /\
    errors (forOf body items v) =
    (errors v
     ++ map (fun x => errorText (sectionId (currentSection v)) (nodeName rule)
                        (msg x))
            (List.filter bad items))%list.
Proof.
  unfold forOf. induction items as [|x items IH]; intros v Hbody; simpl.
  - now rewrite app_nil_r.
  - rewrite (Hbody x v eq_refl eq_refl eq_refl).
    destruct (bad x) eqn:Eb.
    + destruct (IH (addError rule (msg x) v)) as (Hm & Hb & Hs & He).
      { intros y w Hm Hb Hs. apply Hbody; assumption. }
      split; [exact Hm|]. split; [exact Hb|]. split; [exact Hs|].
      rewrite He. simpl. now rewrite <- app_assoc.
    + apply IH. exact Hbody.
Qed.

Lemma forOf_guarded_errors (bad : string -> bool) (msg : string -> string)
    (rule : Element)
    (body : string -> BookValidator -> BookValidator) (items : list string)
    (v : BookValidator) :
  (forall x w,
     mechanics w = mechanics v -> book w = book v ->
     currentSection w = currentSection v ->
     body x w = if bad x then addError rule (msg x) w else w) ->
  errors (forOf body items v) =
  (errors v
   ++ map (fun x => errorText (sectionId (currentSection v)) (nodeName rule)
                      (msg x))
          (List.filter bad items))%list.
Proof. intros Hbody. now apply forOf_guarded. Qed.

Lemma objectIds_appended (rule : Element) (property : string)
    (allowMultiple : bool) (v : BookValidator) :
  errors (snd (validateObjectIdsAttribute rule property allowMultiple v)) =
  (errors v
   ++ map (fun id => errorText (sectionId (currentSection v)) (nodeName rule)
                       ("Object id " +:+ id +:+ " not found"))
          (List.filter
             (fun id => negb (bool_decide (is_Some (getObject (mechanics v) id))))
             (getPropertyValueAsArray rule property allowMultiple)))%list.
Proof.
  unfold validateObjectIdsAttribute.
  destruct (getPropertyValueAsArray rule property allowMultiple)
    as [|id ids] eqn:Eids; cbn [length Nat.eqb fst snd].
  - simpl. now rewrite app_nil_r.
  - apply forOf_guarded_errors. intros x w Hm _ _. now rewrite Hm.
Qed.

Lemma disciplines_appended (rule : Element) (property : string)
    (allowMultiple : bool) (v : BookValidator) :
  errors (validateDisciplinesAttribute rule property allowMultiple v) =
  (errors v
   ++ map (fun id => errorText (sectionId (currentSection v)) (nodeName rule)
                       ("Wrong discipline id: " +:+ id))
          (List.filter
             (fun id => negb (tableHas (getDisciplinesTable (book v)) id))
             (getPropertyValueAsArray rule property allowMultiple)))%list.
Proof.
  unfold validateDisciplinesAttribute.
  destruct (getPropertyValueAsArray rule property allowMultiple)
    as [|id ids] eqn:Eids; cbn [length Nat.eqb].
  - simpl. now rewrite app_nil_r.
  - cbv zeta. apply forOf_guarded_errors. intros x w _ _ _. reflexivity.
Qed.

Lemma sections_appended (rule : Element) (property : string)
    (allowMultiple : bool) (v : BookValidator) :
  errors (validateSectionsAttribute rule property allowMultiple v) =
  (errors v
   ++ map (fun id => errorText (sectionId (currentSection v)) (nodeName rule)
                       ("Section does not exists: " +:+ id))
          (List.filter
             (fun id => negb (bool_decide (is_Some (bookSections (book v) !! id))))
             (getPropertyValueAsArray rule property allowMultiple)))%list.
Proof.
  unfold validateSectionsAttribute.
  apply forOf_guarded_errors.
  intros x w _ Hb _. rewrite Hb. unfold getSectionXml.
  destruct (bookSections (book v) !! x); reflexivity.
Qed.


Lemma choice_appended (rule : Element) (property : string)
    (v : BookValidator) :
  errors (after (validateSectionChoiceAttribute rule property v)) =
  (errors v
   ++ if truthy (attr rule property)
      then match jQueryFind (xmlSection (currentSection v))
                   ("choice[idref=" +:+ default "" (attr rule property) +:+ "]")
           with
           | Some choices =>
               if (length choices =? 0)%nat
               then [errorText (sectionId (currentSection v)) (nodeName rule)
                       ("No choice found on this section with destination to "
                        +:+ default "" (attr rule property))]
               else []
           | None => []
           end
      else [])%list.
Proof.
  unfold validateSectionChoiceAttribute.
  destruct (truthy (attr rule property)); simpl; [|now rewrite app_nil_r].
  destruct (jQueryFind _ _) as [choices|]; simpl; [|now rewrite app_nil_r].
  destruct (length choices =? 0)%nat; simpl;
    [reflexivity|now rewrite app_nil_r].
Qed.

Lemma jqFind_nothing (sel : Element -> bool) (q : JQuery) :
  jqFind sel q = [] <->
  forall e d, e ∈ q -> d ∈ descendants e -> sel d = false.
Proof.
  unfold jqFind. split.
  - intros E e d He Hd. destruct (sel d) eqn:Es; [|reflexivity].
    assert (d ∈ flat_map (fun e => filter (fun d => Is_true (sel d))
                                      (descendants e)) q) as Hin.
    { apply list_elem_of_In, in_flat_map. exists e.
      split; [now apply list_elem_of_In|]. apply list_elem_of_In.
      apply list_elem_of_filter. split; [now rewrite Es|assumption]. }
    rewrite E in Hin. inversion Hin.
  - intros Hno.
    destruct (flat_map _ q) as [|d l] eqn:E; [reflexivity|]. exfalso.
    assert (d ∈ flat_map (fun e => filter (fun d => Is_true (sel d))
                                      (descendants e)) q) as Hin.
    { rewrite E. left. }
    apply list_elem_of_In, in_flat_map in Hin as (e & He & Hd).
    apply list_elem_of_In, list_elem_of_filter in Hd as [Hs Hd].
    apply list_elem_of_In in He.
    rewrite (Hno e d He Hd) in Hs. exact Hs.
Qed.

(** X1. [validateObjectIdsAttribute] returns true exactly when the attribute
    gives at least one id, and appends one "Object id ... not found" per id
    that is not an object of the mechanics, in the order of the ids and
    with repetitions. *)
Theorem validateObjectIds_errors (rule : Element) (property : string)
    (allowMultiple : bool) (v : BookValidator) :
  (fst (validateObjectIdsAttribute rule property allowMultiple v) = true <->
   getPropertyValueAsArray rule property allowMultiple <> []) /\
  errors (snd (validateObjectIdsAttribute rule property allowMultiple v)) =
  (errors v
   ++ map (fun id => errorText (sectionId (currentSection v)) (nodeName rule)
                       ("Object id " +:+ id +:+ " not found"))
          (List.filter
             (fun id => negb (bool_decide (is_Some (getObject (mechanics v) id))))
             (getPropertyValueAsArray rule property allowMultiple)))%list.
Proof.
  split; [|apply objectIds_appended].
  rewrite validateObjectIds_found.
  destruct (getPropertyValueAsArray rule property allowMultiple); simpl.
  - split; [discriminate|congruence].
  - split; [discriminate|reflexivity].
Qed.

(** X2. [validateDisciplinesAttribute] appends one "Wrong discipline id" per
    id for which [disciplinesTable[id]] is falsy, in the order of the ids,
    and nothing else: the ids that are neither a key of the disciplines
    table of the book nor the name of a member that every JavaScript object
    inherits ([constructor], [toString], ...). *)
Theorem validateDisciplines_errors (rule : Element) (property : string)
    (allowMultiple : bool) (v : BookValidator) :
  errors (validateDisciplinesAttribute rule property allowMultiple v) =
  (errors v
   ++ map (fun id => errorText (sectionId (currentSection v)) (nodeName rule)
                       ("Wrong discipline id: " +:+ id))
          (List.filter
             (fun id =>
                negb (bool_decide (is_Some (getDisciplinesTable (book v) !! id)))
                && negb (bool_decide (id ∈ objectPrototypeNames)))
             (getPropertyValueAsArray rule property allowMultiple)))%list.
Proof.
  rewrite disciplines_appended. f_equal. f_equal.
  apply List.filter_ext. intros id. unfold tableHas.
  rewrite negb_orb. f_equal. f_equal. unfold inNames.
  generalize objectPrototypeNames. intros names.
  induction names as [|n names IH]; [reflexivity|]. simpl. rewrite IH.
  destruct (String.eqb id n) eqn:E.
  - apply String.eqb_eq in E. subst n. simpl. symmetry.
    apply bool_decide_eq_true. left.
  - apply String.eqb_neq in E. simpl.
    destruct (bool_decide (id ∈ names)) eqn:Eb.
    + symmetry. apply bool_decide_eq_true. right.
      now apply bool_decide_eq_true in Eb.
    + symmetry. apply bool_decide_eq_false. intros Hin.
      apply bool_decide_eq_false in Eb.
      apply elem_of_cons in Hin as [?|?]; contradiction.
Qed.

(** X3. [validateSectionsAttribute] appends one "Section does not exists" per
    id that is not a section of the book, in the order of the ids, and
    nothing else. *)
Theorem validateSections_errors (rule : Element) (property : string)
    (allowMultiple : bool) (v : BookValidator) :
  errors (validateSectionsAttribute rule property allowMultiple v) =
  (errors v
   ++ map (fun id => errorText (sectionId (currentSection v)) (nodeName rule)
                       ("Section does not exists: " +:+ id))
          (List.filter
             (fun id => negb (bool_decide (is_Some (bookSections (book v) !! id))))
             (getPropertyValueAsArray rule property allowMultiple)))%list.
Proof. apply sections_appended. Qed.

(** X4. [validateSectionChoiceAttribute] hands the selector
    [choice[idref=<value>]] to jQuery when the attribute has a non-empty
    value. It appends its one error exactly when jQuery finds nothing for
    that selector, and it throws, appending nothing, exactly when jQuery
    rejects the selector. For a value that jQuery reads as such (the
    [choice] elements whose [idref] is the value), the error is appended
    exactly when no [choice] element below the XML of the current section has
    that value as [idref]. *)
Theorem validateSectionChoice_error_iff (rule : Element) (property : string)
    (v : BookValidator) :
  exists new,
    errors (after (validateSectionChoiceAttribute rule property v))
    = (errors v ++ new)%list /\
    (new = [] \/
     new = [errorText (sectionId (currentSection v)) (nodeName rule)
              ("No choice found on this section with destination to "
               +:+ default "" (attr rule property))]) /\
    (new <> [] <->
     exists id,
       attr rule property = Some id /\ id <> "" /\
       jQueryFind (xmlSection (currentSection v))
         ("choice[idref=" +:+ id +:+ "]") = Some []) /\
    (completion (validateSectionChoiceAttribute rule property v) = Threw <->
     exists id,
       attr rule property = Some id /\ id <> "" /\
       jQueryFind (xmlSection (currentSection v))
         ("choice[idref=" +:+ id +:+ "]") = None) /\
    (completion (validateSectionChoiceAttribute rule property v) <> Threw ->
     completion (validateSectionChoiceAttribute rule property v) = Returned) /\
    (forall id,
       attr rule property = Some id -> id <> "" ->
       jQueryFind (xmlSection (currentSection v))
         ("choice[idref=" +:+ id +:+ "]")
       = Some (jqFind (selNameAttr "choice" "idref" id)
                 (xmlSection (currentSection v))) ->
       (new <> [] <->
        forall e d, e ∈ xmlSection (currentSection v) -> d ∈ descendants e ->
          ~ (nodeName d = "choice" /\ attr d "idref" = Some id))).
Proof.
  eexists. split; [apply choice_appended|].
  assert (Hsel : forall id d,
            selNameAttr "choice" "idref" id d = false <->
            ~ (nodeName d = "choice" /\ attr d "idref" = Some id)).
  { intros id d. unfold selNameAttr.
    rewrite andb_false_iff, String.eqb_neq, bool_decide_eq_false. split.
    - intros [Hn|Hn] [Hc Hi]; contradiction.
    - intros Hn. destruct (decide (nodeName d = "choice")) as [Hc|Hc];
        [right; intros Hi; apply Hn; now split | now left]. }
  unfold validateSectionChoiceAttribute.
  destruct (attr rule property) as [id|] eqn:Ea; simpl.
  - destruct (String.eqb id "") eqn:Eid; simpl.
    + apply String.eqb_eq in Eid. split; [now left|].
      split; [split; [congruence|]; intros (id' & [= <-] & Hne & _);
              contradiction|].
      split; [split; [discriminate|]; intros (id' & [= <-] & Hne & _);
              contradiction|].
      split; [reflexivity|]. intros id' [= <-] Hne. contradiction.
    + apply String.eqb_neq in Eid.
      destruct (jQueryFind (xmlSection (currentSection v))
                  ("choice[idref=" +:+ id +:+ "]")) as [choices|] eqn:Ef; simpl.
      * destruct choices as [|c choices]; simpl.
        -- split; [now right|].
           split; [split; [intros _; exists id; auto|discriminate]|].
           split; [split; [discriminate|];
                   intros (id' & [= <-] & _ & Hf); congruence|].
           split; [reflexivity|]. intros id' [= <-] _ Hf.
           split; [intros _|discriminate].
           rewrite Ef in Hf. injection Hf as Hf. symmetry in Hf.
           intros e d He Hd. apply Hsel.
           apply (proj1 (jqFind_nothing _ _) Hf e d He Hd).
        -- split; [now left|].
           split; [split; [congruence|];
                   intros (id' & [= <-] & _ & Hf); congruence|].
           split; [split; [discriminate|];
                   intros (id' & [= <-] & _ & Hf); congruence|].
           split; [reflexivity|]. intros id' [= <-] _ Hf.
           split; [congruence|]. intros Hno. exfalso.
           rewrite Ef in Hf. injection Hf as Hf.
           assert (jqFind (selNameAttr "choice" "idref" id)
                     (xmlSection (currentSection v)) = []) as E.
           { apply jqFind_nothing. intros e d He Hd. apply Hsel.
             exact (Hno e d He Hd). }
           congruence.
      * split; [now left|].
        split; [split; [congruence|];
                intros (id' & [= <-] & _ & Hf); congruence|].
        split; [split; [intros _; exists id; auto|reflexivity]|].
        split; [congruence|]. intros id' [= <-] _ Hf. congruence.
  - split; [now left|].
    split; [split; [congruence|]; intros (id & [=] & _)|].
    split; [split; [discriminate|]; intros (id & [=] & _)|].
    split; [reflexivity|]. intros id [=].
Qed.

End AttributeChecks.

Section RuleChecks.
Context `{Collaborators}.

Lemma appends_fields (P : string -> Prop) f v :
  appends P f v ->
  mechanics (f v) = mechanics v /\ book (f v) = book v /\
  currentSection (f v) = currentSection v.
Proof.
  intros (new & _ & Hf).
  specialize (Hf (errors v) (mechanicsXmlText (mechanics v))
                (mechanicsXml (mechanics v))).
  rewrite remake_id in Hf. rewrite Hf.
  destruct v as [[text doc objects lastId] b es s]. simpl.
  split; [reflexivity|]. split; reflexivity.
Qed.

Lemma elem_of_map_errorText (id tag m : string) (g : string -> string)
    (l : list string) :
  errorText id tag m ∈ map (fun x => errorText id tag (g x)) l ->
  exists x, x ∈ l /\ m = g x.
Proof.
  intros Hin. apply list_elem_of_In, in_map_iff in Hin as (x & E & Hx).
  exists x. split; [now apply list_elem_of_In|].
  symmetry. eapply errorText_inj_msg. exact E.
Qed.

(** The errors of [test], check after check, in the order of the source. *)
Lemma test_appended (rule : Element) (v : BookValidator) :
  errors (after (test rule v)) =
  (errors v
   ++ map (fun id => errorText (sectionId (currentSection v)) (nodeName rule)
                       ("Wrong discipline id: " +:+ id))
          (List.filter
             (fun id => negb (tableHas (getDisciplinesTable (book v)) id))
             (getPropertyValueAsArray rule "hasDiscipline" true))
   ++ map (fun id => errorText (sectionId (currentSection v)) (nodeName rule)
                       ("Object id " +:+ id +:+ " not found"))
          (List.filter
             (fun id => negb (bool_decide (is_Some (getObject (mechanics v) id))))
             (getPropertyValueAsArray rule "hasObject" true))
   ++ map (fun id => errorText (sectionId (currentSection v)) (nodeName rule)
                       ("Section does not exists: " +:+ id))
          (List.filter
             (fun id => negb (bool_decide (is_Some (bookSections (book v) !! id))))
             (getPropertyValueAsArray rule "sectionVisited" true))
   ++ map (fun id => errorText (sectionId (currentSection v)) (nodeName rule)
                       ("Object id " +:+ id +:+ " not found"))
          (List.filter
             (fun id => negb (bool_decide (is_Some (getObject (mechanics v) id))))
             (getPropertyValueAsArray rule "currentWeapon" false))
   ++ (if truthy (attr rule "bookLanguage")
          && (negb (String.eqb (default "" (attr rule "bookLanguage")) "en")
              && negb (String.eqb (default "" (attr rule "bookLanguage")) "es"))
       then [errorText (sectionId (currentSection v)) (nodeName rule)
               ("Wrong language: " +:+ default "" (attr rule "bookLanguage"))]
       else [])
   ++ (if truthy (attr rule "isChoiceEnabled")
       then match jQueryFind (xmlSection (currentSection v))
                    ("choice[idref=" +:+ default "" (attr rule "isChoiceEnabled")
                     +:+ "]")
            with
            | Some choices =>
                if (length choices =? 0)%nat
                then [errorText (sectionId (currentSection v)) (nodeName rule)
                        ("No choice found on this section with destination to "
                         +:+ default "" (attr rule "isChoiceEnabled"))]
                else []
            | None => []
            end
       else []))%list.
Proof.
  unfold test, validateBooleanExpression. cbv zeta.
  set (v1 := validateDisciplinesAttribute rule "hasDiscipline" true v).
  set (v2 := snd (validateObjectIdsAttribute rule "hasObject" true v1)).
  set (v3 := validateSectionsAttribute rule "sectionVisited" true v2).
  set (v4 := snd (validateObjectIdsAttribute rule "currentWeapon" false v3)).
  destruct (appends_fields _ _ v
              (appends_validateDisciplines rule "hasDiscipline" true v))
    as (Hm1 & Hb1 & Hs1).
  destruct (appends_fields _ _ v1
              (appends_validateObjectIds rule "hasObject" true v1))
    as (Hm2 & Hb2 & Hs2).
  destruct (appends_fields _ _ v2
              (appends_validateSections rule "sectionVisited" true v2))
    as (Hm3 & Hb3 & Hs3).
  destruct (appends_fields _ _ v3
              (appends_validateObjectIds rule "currentWeapon" false v3))
    as (Hm4 & Hb4 & Hs4).
  fold v1 in Hm1, Hb1, Hs1. fold v2 in Hm2, Hb2, Hs2.
  fold v3 in Hm3, Hb3, Hs3. fold v4 in Hm4, Hb4, Hs4.
  assert (E4 : errors v4 =
               (errors v
                ++ map (fun id => errorText (sectionId (currentSection v))
                                    (nodeName rule)
                                    ("Wrong discipline id: " +:+ id))
                       (List.filter
                          (fun id => negb (tableHas (getDisciplinesTable (book v)) id))
                          (getPropertyValueAsArray rule "hasDiscipline" true))
                ++ map (fun id => errorText (sectionId (currentSection v))
                                    (nodeName rule)
                                    ("Object id " +:+ id +:+ " not found"))
                       (List.filter
                          (fun id => negb (bool_decide
                                     (is_Some (getObject (mechanics v) id))))
                          (getPropertyValueAsArray rule "hasObject" true))
                ++ map (fun id => errorText (sectionId (currentSection v))
                                    (nodeName rule)
                                    ("Section does not exists: " +:+ id))
                       (List.filter
                          (fun id => negb (bool_decide
                                     (is_Some (bookSections (book v) !! id))))
                          (getPropertyValueAsArray rule "sectionVisited" true))
                ++ map (fun id => errorText (sectionId (currentSection v))
                                    (nodeName rule)
                                    ("Object id " +:+ id +:+ " not found"))
                       (List.filter
                          (fun id => negb (bool_decide
                                     (is_Some (getObject (mechanics v) id))))
                          (getPropertyValueAsArray rule "currentWeapon" false)))%list).
  { unfold v4. rewrite objectIds_appended. unfold v3.
    rewrite sections_appended. unfold v2. rewrite objectIds_appended.
    unfold v1 at 1. rewrite disciplines_appended.
    fold v1. fold v2. fold v3.
    rewrite Hs3, Hm3, Hs2, Hb2, Hm2, Hs1, Hb1, Hm1.
    now rewrite <- !app_assoc. }
  assert (Hs4' : currentSection v4 = currentSection v) by congruence.
  rewrite choice_appended.
  destruct (truthy (attr rule "bookLanguage")
            && (negb (String.eqb (default "" (attr rule "bookLanguage")) "en")
                && negb (String.eqb (default "" (attr rule "bookLanguage")) "es")));
    cbn [currentSection addError pushError setErrors errors];
    rewrite ?Hs4', E4, <- ?app_assoc; reflexivity.
Qed.

(** X5. The check [test] appends "Wrong language: L" exactly when the
    attribute [bookLanguage] has the non-empty value L and L is neither en
    nor es; the other checks of [test] never produce such a text. *)
Theorem test_wrong_language_iff (rule : Element) (v : BookValidator)
    (language : string) :
  exists new,
    errors (after (test rule v)) = (errors v ++ new)%list /\
    (errorText (sectionId (currentSection v)) (nodeName rule)
       ("Wrong language: " +:+ language) ∈ new
     <-> attr rule "bookLanguage" = Some language /\ language <> "" /\
         language <> "en" /\ language <> "es").
Proof.
  eexists. split; [apply test_appended|].
  rewrite !elem_of_app. split.
  - intros [Hin|[Hin|[Hin|[Hin|[Hin|Hin]]]]].
    + apply elem_of_map_errorText in Hin as (x & _ & E). discriminate E.
    + apply elem_of_map_errorText in Hin as (x & _ & E). discriminate E.
    + apply elem_of_map_errorText in Hin as (x & _ & E). discriminate E.
    + apply elem_of_map_errorText in Hin as (x & _ & E). discriminate E.
    + destruct (attr rule "bookLanguage") as [l|] eqn:Ea; simpl in Hin;
        [|inversion Hin].
      destruct (String.eqb l "") eqn:E0; simpl in Hin; [inversion Hin|].
      destruct (String.eqb l "en") eqn:E1; simpl in Hin; [inversion Hin|].
      destruct (String.eqb l "es") eqn:E2; simpl in Hin; [inversion Hin|].
      apply list_elem_of_singleton, errorText_inj_msg, append_inj_l in Hin.
      subst l. apply String.eqb_neq in E0, E1, E2. auto.
    + destruct (truthy (attr rule "isChoiceEnabled")); [|inversion Hin].
      destruct (jQueryFind _ _) as [choices|]; [|inversion Hin].
      destruct (length choices =? 0)%nat; [|inversion Hin].
      apply list_elem_of_singleton, errorText_inj_msg in Hin. discriminate Hin.
  - intros (Ea & H0 & H1 & H2). do 4 right. left. rewrite Ea. simpl.
    apply String.eqb_neq in H0, H1, H2. rewrite H0, H1, H2. simpl. left.
Qed.

(** X6. For a [case] rule whose bounds are two integers, the check [case]
    and the coverage loop of [randomTable] agree: the range counts for the
    coverage exactly when [case] appends no error, and it is ignored exactly
    when [case] appends "Wrong range". *)
Theorem case_wrong_range_iff_ignored (rule : Element) (v : BookValidator)
    (from to : Z) :
  nodeName rule = "case" ->
  getCaseRuleBounds rule = Some (Int from, Int to) ->
  (errors (case rule v) = errors v <-> validRange rule = Some (from, to)) /\
  (errors (case rule v)
   = (errors v ++ [errorText (sectionId (currentSection v)) (nodeName rule)
                     "Wrong range"])%list
   <-> validRange rule = None).
Proof.
  intros Hn Hb. unfold case, validRange. rewrite Hb.
  replace (String.eqb (nodeName rule) "case") with true
    by (now rewrite Hn).
  cbn [num_gt].
  destruct (from <=? to) eqn:Ele.
  - assert ((to <? from) = false) as -> by lia. split.
    + split; reflexivity.
    + split; [|discriminate]. intros E. exfalso. symmetry in E. revert E.
      apply app_cons_neq.
  - assert ((to <? from) = true) as -> by lia. split.
    + split; [|discriminate]. rewrite errors_addError. intros E.
      exfalso. revert E. apply app_cons_neq.
    + split; [reflexivity|]. intros _. apply errors_addError.
Qed.


(** X8. The check [pick] appends the error of the missing [count] exactly
    when [class] has a non-empty value and [count] has none, and the error
    "only one" exactly when [objectId] and [class] are both set or both
    unset. *)
Theorem pick_errors_iff (rule : Element) (v : BookValidator) :
  exists new,
    errors (pick rule v) = (errors v ++ new)%list /\
    (errorText (sectionId (currentSection v)) (nodeName rule) msgCount ∈ new
     <-> truthy (attr rule "class") = true /\
         truthy (attr rule "count") = false) /\
    (errorText (sectionId (currentSection v)) (nodeName rule) msgOnlyOne ∈ new
     <-> truthy (attr rule "objectId") = truthy (attr rule "class")).
Proof.
  assert (Hco : errorText (sectionId (currentSection v)) (nodeName rule) msgCount
                <> errorText (sectionId (currentSection v)) (nodeName rule)
                     msgOnlyOne).
  { intros E. apply errorText_inj_msg in E. discriminate E. }
  assert (Hobj : forall id m,
            m = msgCount \/ m = msgOnlyOne ->
            errorText (sectionId (currentSection v)) (nodeName rule) m
            <> errorText (sectionId (currentSection v)) (nodeName rule)
                 ("Object id " +:+ id +:+ " not found")).
  { intros id m [->| ->] E; apply errorText_inj_msg in E; discriminate E. }
  destruct (truthy (attr rule "objectId")) eqn:Eo.
  - destruct (attr rule "objectId") as [id|] eqn:Ea; [|discriminate].
    assert (Hid : id <> "") by (intros ->; discriminate).
    rewrite (pick_with_objectId rule v id Ea Hid). cbv zeta.
    destruct (bool_decide (is_Some (getObject (mechanics v) id)));
      destruct (truthy (attr rule "class")), (truthy (attr rule "count"));
      rewrite ?errors_addError, <- ?app_assoc;
      (eexists; split;
       [first [reflexivity | symmetry; apply app_nil_r]|]);
      cbn [currentSection addError pushError setErrors app];
      rewrite ?elem_of_cons, ?elem_of_nil;
      pose proof (Hobj id msgCount (or_introl eq_refl));
      pose proof (Hobj id msgOnlyOne (or_intror eq_refl));
      split; split; intros; intuition (try congruence; try discriminate).
  - rewrite (pick_without_objectId rule v Eo).
    destruct (truthy (attr rule "class")), (truthy (attr rule "count"));
      rewrite ?errors_addError;
      (eexists; split;
       [first [reflexivity | symmetry; apply app_nil_r]|]);
      rewrite ?elem_of_cons, ?elem_of_nil;
      split; split; intros; intuition (try congruence; try discriminate).
Qed.

End RuleChecks.

Section SchemaCheck.
Context `{Collaborators}.

Lemma append_cons (c : ascii) (s t : string) :
  String c s +:+ t = String c (s +:+ t).
Proof. reflexivity. Qed.

Lemma append_nil_r (s : string) : s +:+ "" = s.
Proof. induction s as [|c s IH]; [reflexivity|]. now rewrite append_cons, IH. Qed.

Lemma append_assoc (a b c : string) : (a +:+ b) +:+ c = a +:+ (b +:+ c).
Proof.
  induction a as [|x a IH]; [reflexivity|]. now rewrite !append_cons, IH.
Qed.










(** X10. The stripping of accented characters in [validateXml] leaves a text
    without the lead bytes of these characters (ASCII text in particular)
    as it is, and it never makes a text longer. *)
Theorem stripSpecialChars_plain (s : string) :
  (plainText s = true -> stripSpecialChars s = s) /\
  (String.length (stripSpecialChars s) <= String.length s)%nat.
Proof.
  split.
  - induction s as [|c1 t1 IH]; [reflexivity|]. intros Hp.
    simpl in Hp. apply andb_true_iff in Hp as [Hc Hp].
    apply negb_true_iff, bool_decide_eq_false in Hc.
    assert (H2 : forall c2, special2 c1 c2 = false).
    { intros c2. unfold special2.
      destruct (nat_of_ascii c1 =? 195)%nat eqn:E1;
        [apply Nat.eqb_eq in E1; exfalso; apply Hc; rewrite E1; set_solver|].
      destruct (nat_of_ascii c1 =? 194)%nat eqn:E2;
        [apply Nat.eqb_eq in E2; exfalso; apply Hc; rewrite E2; set_solver|].
      reflexivity. }
    assert (H3 : forall c2 c3, special3 c1 c2 c3 = false).
    { intros c2 c3. unfold special3.
      destruct (nat_of_ascii c1 =? 226)%nat eqn:E1;
        [apply Nat.eqb_eq in E1; exfalso; apply Hc; rewrite E1; set_solver|].
      reflexivity. }
    assert (U : forall t,
              stripSpecialChars (String c1 t)
              = String c1 (stripSpecialChars t)).
    { intros [|c2 [|c3 t3]]; simpl; rewrite ?H2, ?H3; reflexivity. }
    rewrite U, (IH Hp). reflexivity.
  - assert (G : forall n t, (String.length t <= n)%nat ->
                  (String.length (stripSpecialChars t) <= String.length t)%nat).
    { induction n as [|n IH]; intros t Hn.
      - destruct t; [simpl; lia|simpl in Hn; lia].
      - destruct t as [|c1 t1]; [simpl; lia|].
        destruct t1 as [|c2 t2]; [simpl; lia|].
        cbn [stripSpecialChars]. simpl in Hn.
        destruct (special2 c1 c2).
        + specialize (IH t2). simpl. lia.
        + destruct t2 as [|c3 t3].
          * specialize (IH (String c2 "")). simpl in IH |- *. lia.
          * destruct (special3 c1 c2 c3).
            -- specialize (IH t3). simpl in Hn |- *. lia.
            -- specialize (IH (String c2 (String c3 t3))).
               simpl in IH, Hn |- *. lia. }
    apply (G (String.length s)). lia.
Qed.

(** X11. [downloadXsd] asks the server only while no schema text is stored:
    after one answer with a non-empty text, the text is stored and every
    later call resolves at once, without a request and without changing
    the text, whatever the server would answer. *)
Theorem downloadXsd_once (xsdText answer : option string) (text : string) :
  truthy xsdText = false -> text <> "" ->
  requestSent (downloadXsd (Some text) xsdText) = true /\
  xsdTextAfter (downloadXsd (Some text) xsdText) = Some text /\
  downloadXsd answer (xsdTextAfter (downloadXsd (Some text) xsdText))
  = {| xsdTextAfter := Some text; requestSent := false;
       promiseResolved := true |}.
Proof.
  intros Hx Ht.
  assert (E : downloadXsd (Some text) xsdText
              = {| xsdTextAfter := Some text; requestSent := true;
                   promiseResolved := true |}).
  { unfold downloadXsd. now rewrite Hx. }
  rewrite E. simpl. split; [reflexivity|]. split; [reflexivity|].
  unfold downloadXsd. simpl. apply String.eqb_neq in Ht. now rewrite Ht.
Qed.

(** X12. After [downloadXsd], [validateXml] leaves the schema validator
    uncalled exactly when no text was stored before and the server gave no
    text (a failed request or an empty answer); it then records the error of
    the missing schema. *)
Theorem validateXml_after_download (xsdText answer : option string)
    (v : BookValidator) :
  (snd (validateXml (xsdTextAfter (downloadXsd answer xsdText)) v) = [] <->
   truthy xsdText = false /\ truthy answer = false) /\
  (truthy xsdText = false -> truthy answer = false ->
   fst (validateXml (xsdTextAfter (downloadXsd answer xsdText)) v)
   = pushError msgXsdNotLoaded v).
Proof.
  assert (Hlog : forall x,
            snd (validateXml x v) = [] <-> truthy x = false).
  { intros x. unfold validateXml. destruct (truthy x); simpl.
    - split; discriminate.
    - split; reflexivity. }
  assert (Hafter : truthy (xsdTextAfter (downloadXsd answer xsdText)) = false
                   <-> truthy xsdText = false /\ truthy answer = false).
  { unfold downloadXsd. destruct (truthy xsdText) eqn:Ex; simpl.
    - rewrite Ex. split; [discriminate|intros [? _]; discriminate].
    - destruct answer as [t|]; simpl.
      + split; [intros ->; now split|intros [_ ?]; assumption].
      + rewrite Ex. split; [now split|reflexivity]. }
  split.
  - rewrite Hlog. exact Hafter.
  - intros Hx Ha. unfold validateXml.
    now rewrite (proj2 Hafter (conj Hx Ha)).
Qed.

End SchemaCheck.

Section Walk.
Context `{Collaborators}.

Lemma forEach_unknown (xsdText : option string) (cs : list Element) :
  (forall c, c ∈ cs -> forall w, validateRule xsdText c w = returned w) ->
  forall v, forEach (validateRule xsdText) cs v = returned v.
Proof.
  induction cs as [|c cs IH]; intros Hcs v; [reflexivity|].
  cbn [forEach]. rewrite (Hcs c) by left.
  unfold andThen. cbn [returned completion after calls].
  rewrite IH; [reflexivity|]. intros c' Hc'. apply Hcs. now right.
Qed.

Lemma validateRule_unknown (xsdText : option string) (rule : Element) :
  (forall r, r ∈ rule :: descendants rule -> member (nodeName r) = NoMember) ->
  forall v, validateRule xsdText rule v = returned v.
Proof.
  induction rule as [name atts cs IH] using Element_tree_ind.
  intros Hno v. rewrite validateRule_unfold. unfold callMember.
  rewrite (Hno _ (list_elem_of_here _ _)).
  unfold andThen. cbn [returned completion after calls].
  unfold validateChildrenRules, children. cbn [childNodes].
  rewrite forEach_unknown; [reflexivity|].
  intros c Hc. rewrite Forall_forall in IH. apply IH; [exact Hc|].
  intros r Hr. apply Hno. right.
  eapply descendants_child; [exact Hc|exact Hr].
Qed.

(** X13. Rules whose names are no member of the validator are walked but
    never checked: when [this[nodeName]] is [undefined] for every rule node
    of a section (in particular when the mechanics have no rules for the
    section), [validateSection] returns with an empty error list and calls
    nothing outside of the validator. The element of the section itself is
    never checked, whatever its name. *)
Theorem unknown_rules_never_checked (xsdText : option string) (id : string)
    (v : BookValidator) :
  (forall r, ruleNodeOf (mechanics v) id r -> member (nodeName r) = NoMember) ->
  outcome (validateSection xsdText id v) = ([], [], Returned).
Proof.
  intros Hno. unfold validateSection, validateSectionInternal.
  cbv zeta. cbn [mechanics setErrors setCurrentSection book].
  destruct (getSection (mechanics v) id) as [root|] eqn:Eroot;
    [|reflexivity].
  unfold validateChildrenRules. rewrite forEach_unknown; [reflexivity|].
  intros c Hc. apply validateRule_unknown. intros r Hr. apply Hno.
  exists root. split; [exact Eroot|].
  eapply descendants_child; [exact Hc|exact Hr].
Qed.

(** The call of the member named by a rule: what it appends, the calls it
    makes and how it ends do not depend on the errors already there. *)
Lemma callMember_frame (xsdText : option string) (rule : Element)
    (v : BookValidator) :
  exists new log c, forall es,
    callMember xsdText rule (setErrors es v) =
    {| after := setErrors (es ++ new) v; calls := log; completion := c |}.
Proof.
  assert (member (nodeName rule) = WalkMember
          \/ member (nodeName rule) <> WalkMember) as [Ew|Ew].
  { destruct (member (nodeName rule)); (now left) || (right; discriminate). }
  - destruct (forEach_rules_frame xsdText (children rule) v)
      as (new & log & c & Hf).
    exists new, log, c. intros es. unfold callMember. rewrite Ew.
    apply Hf.
  - destruct (callMember_appendsWith xsdText rule v Ew)
      as (new & log & c & _ & Hf).
    exists new, log, c. intros es. rewrite !setErrors_remake.
    apply (Hf es _ _ (conj eq_refl eq_refl)).
Qed.

(** X14. The walk is depth-first: [validateRule] first calls the member of
    the validator that the rule names, if there is one, and then, when that
    call returned, validates the children of the rule. Its errors are the
    errors already there, then the errors of that call, then the errors of
    the children, the last two being what the call and the children give on
    an empty list; an exception of the call ends the walk before the
    children. *)
Theorem validateRule_own_then_children (xsdText : option string)
    (rule : Element) (v : BookValidator) :
  completion (validateRule xsdText rule v) <> NotFollowed ->
  errors (after (validateRule xsdText rule v)) =
  (errors v
   ++ errors (after (callMember xsdText rule (setErrors [] v)))
   ++ match completion (callMember xsdText rule (setErrors [] v)) with
      | Returned =>
          errors (after (validateChildrenRules xsdText (Some rule)
                           (setErrors [] v)))
      | _ => []
      end)%list /\
  completion (validateRule xsdText rule v) =
  match completion (callMember xsdText rule (setErrors [] v)) with
  | Returned =>
      completion (validateChildrenRules xsdText (Some rule) (setErrors [] v))
  | c => c
  end.
Proof.
  intros _.
  destruct (callMember_frame xsdText rule v) as (new1 & log1 & c1 & H1).
  destruct (forEach_rules_frame xsdText (children rule) v)
    as (new2 & log2 & c2 & H2).
  pose proof (H1 (errors v)) as E1. rewrite setErrors_errors in E1.
  rewrite validateRule_unfold. unfold validateChildrenRules.
  rewrite E1, !(H1 []). unfold andThen. cbn [completion after calls].
  destruct c1; cbn [withCalls completion after errors setErrors];
    rewrite ?H2; cbn [completion after errors setErrors app];
    rewrite ?app_nil_r; split; reflexivity || (now rewrite app_assoc).
Qed.

(** X15. A whole-book validation that returns is the schema check followed
    by the single-section validations of the sections on the chain of
    next-section links, from the initial section up to, and not including,
    the first occurrence of the last section: its errors are the errors of
    [validateXml] and then, section after section, the errors
    [validateSection] gives for each of them. *)
Theorem validateBook_is_sections (xsdText : option string) (fuel : nat)
    (v : BookValidator) (r : Result) :
  validateBook xsdText fuel v = Some r ->
  completion r = Returned ->
  exists n,
    firstReach (book v) (lastSectionId (mechanics v)) n /\
    errors (after r) =
    (errors (fst (validateXml xsdText (setErrors [] v)))
     ++ concat
          (map (fun k =>
                  errors (after (validateSection xsdText
                                   (spineSection (book v) k) v)))
               (seq 0 n)))%list /\
    calls r =
    (snd (validateXml xsdText (setErrors [] v))
     ++ concat
          (map (fun k =>
                  calls (validateSection xsdText (spineSection (book v) k) v))
               (seq 0 n)))%list.
Proof.
  intros Hrun Hret.
  pose proof (validateBook_spec xsdText fuel v) as Hs.
  rewrite Hrun in Hs. destruct Hs as (n & _ & Hbefore & Hr & Hlast).
  exists n. split; [split; [now apply Hlast|exact Hbefore]|].
  destruct (validateXml_fields xsdText (setErrors [] v)) as (Hm & Hb & _).
  set (v1 := fst (validateXml xsdText (setErrors [] v))) in *.
  destruct (forEach_sections xsdText (map (spineSection (book v)) (seq 0 n)) v1)
    as (_ & _ & _ & Herr & _).
  assert (Hret' : completion
                    (forEach (validateSectionInternal xsdText)
                       (map (spineSection (book v)) (seq 0 n)) v1)
                  = Returned).
  { rewrite Hr in Hret. exact Hret. }
  assert (Hreset : forall id,
            validateSection xsdText id v1 = validateSection xsdText id v).
  { intros id. apply validateSection_reset; assumption. }
  split.
  - rewrite Hr. cbn [withCalls after]. rewrite (Herr Hret').
    f_equal. f_equal. rewrite map_map. apply map_ext.
    intros k. now rewrite Hreset.
  - rewrite Hr. cbn [withCalls calls]. f_equal.
    clear Hr Hret Herr Hlast Hbefore Hrun.
    assert (G : forall ids w,
               mechanics w = mechanics v -> book w = book v ->
               completion (forEach (validateSectionInternal xsdText) ids w)
               = Returned ->
               calls (forEach (validateSectionInternal xsdText) ids w)
               = concat (map (fun id => calls (validateSection xsdText id v))
                             ids)).
    { induction ids as [|id ids IH]; intros w Hmw Hbw Hc; [reflexivity|].
      cbn [forEach] in Hc |- *.
      rewrite (validateSectionInternal_validateSection xsdText id w) in Hc |- *.
      unfold andThen in Hc |- *. cbn [completion after calls] in Hc |- *.
      rewrite (validateSection_reset xsdText id w v Hmw Hbw) in Hc |- *.
      destruct (completion (validateSection xsdText id v)) eqn:Ec;
        try discriminate Hc.
      cbn [withCalls calls completion] in Hc |- *.
      cbn [map concat]. f_equal. apply IH; [| |exact Hc].
      - cbn [mechanics setErrors setCurrentSection]. exact Hmw.
      - cbn [book setErrors setCurrentSection]. exact Hbw. }
    rewrite (G _ v1 Hm Hb Hret'). now rewrite map_map.
Qed.

End Walk.

(** * Properties of the list of saved games *)

Lemma fileRows_from (html : string) (fileNames : list string) :
  fold_left (fun html fileName => html +:+ fileRowHtml fileName) fileNames html
  = html +:+ fold_left (fun html fileName => html +:+ fileRowHtml fileName)
               fileNames "".
Proof.
  revert html. induction fileNames as [|f fs IH]; intros html;
    cbn [fold_left].
  - now rewrite append_nil_r.
  - change ("" +:+ fileRowHtml f) with (fileRowHtml f).
    rewrite IH, (IH (fileRowHtml f)). now rewrite append_assoc.
Qed.

(** X16. Adding the files of a list in two batches, none of them empty,
    appends the same html as adding them at once: one row per file, in the
    order of the list. *)
Theorem addFilesToList_batches (noSavedGames : string) (a b : list string) :
  a <> [] -> b <> [] ->
  addFilesToList noSavedGames (a ++ b)
  = addFilesToList noSavedGames a +:+ addFilesToList noSavedGames b.
Proof.
  intros Ha Hb. unfold addFilesToList.
  destruct a as [|x a]; [contradiction|].
  destruct b as [|y b]; [contradiction|].
  cbn [length app Nat.eqb].
  change ((x :: a) ++ y :: b)%list with (x :: (a ++ y :: b))%list.
  cbn [length Nat.eqb].
  change (x :: (a ++ y :: b))%list with ((x :: a) ++ y :: b)%list.
  rewrite fold_left_app. apply fileRows_from.
Qed.

(** * Properties of the game controller *)

Section GameControllerProperties.
Context `{Collaborators} `{GameCollaborators}.

Lemma sectionExists_newSection (b : Book) (id : string) (m : Mechanics) :
  sectionExists (newSection b id m)
  = bool_decide (is_Some (bookSections b !! id)).
Proof.
  unfold sectionExists, newSection, getSectionXml. simpl.
  destruct (bookSections b !! id); reflexivity.
Qed.

(** What [loadSection] does for a section of the book. *)
Lemma loadSection_existing (browser : Browser) (id : string)
    (choiceLinkClicked : bool) (yScroll : Num) (w : GameWorld)
    (st : GameState) :
  state w = Some st ->
  is_Some (bookSections (stateBook st) !! id) ->
  loadSection browser id choiceLinkClicked yScroll w =
  Some (setState (Some (setSectionStatesCurrentSection (Some id) st))
          (setControllerCurrentSection
             (Some (newSection (stateBook st) id (stateMechanics st))) w),
        ([EvToastrClear]
         ++ (if choiceLinkClicked then [EvFireChoiceSelected id] else [])
         ++ [EvSetSectionContent (newSection (stateBook st) id (stateMechanics st));
             EvUpdateNavigation (newSection (stateBook st) id (stateMechanics st));
             EvMechanicsRun (newSection (stateBook st) id (stateMechanics st));
             EvBindChoiceLinks;
             EvScrollTo (Int 0)
               (if negb (numTruthy yScroll) then Int 0 else yScroll);
             EvPersistState (setSectionStatesCurrentSection (Some id) st)]
         ++ (if truthy (debugParameter browser)
             then fst (debugValidate browser
                         (setSectionStatesCurrentSection (Some id) st)
                         (newSection (stateBook st) id (stateMechanics st)))
             else []))%list,
        if truthy (debugParameter browser)
        then snd (debugValidate browser
                    (setSectionStatesCurrentSection (Some id) st)
                    (newSection (stateBook st) id (stateMechanics st)))
        else Returned).
Proof.
  intros Hst Hex. unfold loadSection.
  rewrite Hst, sectionExists_newSection, (bool_decide_eq_true_2 _ Hex).
  cbn [negb]. cbv zeta.
  destruct (truthy (debugParameter browser)); [|reflexivity].
  destruct (debugValidate _ _ _) as [debug end_]. reflexivity.
Qed.

Lemma debugWarnings_app (a b : list GameEvent) :
  debugWarnings (a ++ b) = (debugWarnings a ++ debugWarnings b)%list.
Proof. unfold debugWarnings. apply omap_app. Qed.

Lemma debugWarnings_warnings (l : list string) :
  debugWarnings (map EvDebugWarning l) = l.
Proof.
  unfold debugWarnings. induction l as [|x l IH]; [reflexivity|].
  simpl. f_equal. exact IH.
Qed.

Lemma debugWarnings_validator (l : list Event) :
  debugWarnings (map EvValidator l) = [].
Proof.
  unfold debugWarnings. induction l as [|x l IH]; [reflexivity|].
  simpl. exact IH.
Qed.

Lemma debugValidate_no_scroll (browser : Browser) (st : GameState)
    (current : BookSection) (x y : Num) :
  EvScrollTo x y ∉ fst (debugValidate browser st current).
Proof.
  unfold debugValidate. cbn [fst]. intros Hin.
  apply elem_of_cons in Hin as [Hin|Hin]; [discriminate Hin|].
  apply elem_of_app in Hin as [Hin|Hin].
  - apply list_elem_of_In, in_map_iff in Hin as (t & Ht & _). discriminate Ht.
  - destruct (completion _); try (inversion Hin; fail).
    apply list_elem_of_In, in_map_iff in Hin as (t & Ht & _). discriminate Ht.
Qed.

(** X17. [loadSection] on an id that is no section of the book changes
    nothing, neither the current section of the controller nor the state,
    and calls nothing but [console.log]. *)
Theorem loadSection_missing_section (browser : Browser) (id : string)
    (choiceLinkClicked : bool) (yScroll : Num) (w : GameWorld)
    (st : GameState) :
  state w = Some st ->
  bookSections (stateBook st) !! id = None ->
  loadSection browser id choiceLinkClicked yScroll w
  = Some (w, [EvConsoleLog ("Section " +:+ id +:+ " does not exists")],
          Returned).
Proof.
  intros Hst Hno. unfold loadSection.
  rewrite Hst, sectionExists_newSection, Hno. reflexivity.
Qed.

Lemma loadSection_agree (browser : Browser) (id : string) (clicked : bool)
    (y : Num) (w w' : GameWorld) (evs : list GameEvent) (c : Completion) :
  sectionsAgree w ->
  loadSection browser id clicked y w = Some (w', evs, c) ->
  sectionsAgree w'.
Proof.
  intros Hw. unfold loadSection.
  destruct (state w) as [st|]; [|discriminate].
  destruct (sectionExists _).
  - cbn [negb]. cbv zeta.
    destruct (if truthy (debugParameter browser) then _ else _)
      as [debug end_].
    intros [= <- _ _]. intros s [= <-]. simpl. eexists.
    split; reflexivity.
  - simpl. intros [= <- _ _]. exact Hw.
Qed.

(** X18. Every call of the controller keeps the two records of the current
    section in step: if [state.sectionStates.currentSection] is the id of
    [gameController.currentSection] before [index], [loadSection],
    [onNavigatePrevNext] or [onLeave], it is so afterwards, also when the
    validation of the debug mode ends the call with an exception. *)
Theorem controller_keeps_sections_in_step (browser : Browser) (c : GameCall)
    (w w' : GameWorld) (evs : list GameEvent) (end_ : Completion) :
  sectionsAgree w ->
  runGameCall browser c w = Some (w', evs, end_) ->
  sectionsAgree w'.
Proof.
  intros Hw. destruct c as [|id clicked y|increment|]; simpl.
  - unfold index. destruct (checkBook browser); simpl;
      [|intros [= <- _ _]; exact Hw].
    destruct (state w) as [st|] eqn:Est; [|discriminate].
    destruct (bool_decide _); [intros [= <- _ _]; exact Hw|].
    destruct (stateActionChart st) as [chart|]; [|discriminate].
    destruct (loadSection browser _ false (yScrollPosition chart) w)
      as [[[w1 evs1] c1]|] eqn:El; [|discriminate].
    intros [= <- _ _]. eapply loadSection_agree; eassumption.
  - apply loadSection_agree. exact Hw.
  - unfold onNavigatePrevNext.
    destruct (controllerCurrentSection w); [|discriminate].
    apply loadSection_agree. exact Hw.
  - unfold onLeave. destruct (state w) as [st|] eqn:Est;
      [|intros [= <- _ _]; exact Hw].
    destruct (stateActionChart st) as [chart|];
      [|intros [= <- _ _]; exact Hw].
    intros [= <- _ _]. intros s Hs. simpl in Hs.
    destruct (Hw s Hs) as (st0 & Hst0 & Hcur).
    rewrite Est in Hst0. injection Hst0 as <-.
    eexists. split; [reflexivity|].
    destruct (negb _); simpl; exact Hcur.
Qed.

(** X19. The debug hook of [loadSection]: for a section of the book and with
    the debug parameter, the section is validated on a fresh validator of
    the state's mechanics and book with [validateSection], and [loadSection]
    ends as that validation ends. When it returns, the texts sent to the
    debug overlay are, in order, its errors; when it throws, nothing is sent.
    The texts are errors of rules of that section as long as no rule node of
    the section is named [validateXml]. Without the debug parameter nothing
    is validated and nothing is sent. *)
Theorem loadSection_debug_warnings (browser : Browser) (id : string)
    (choiceLinkClicked : bool) (yScroll : Num) (w w' : GameWorld)
    (st : GameState) (evs : list GameEvent) (end_ : Completion) :
  state w = Some st ->
  is_Some (bookSections (stateBook st) !! id) ->
  loadSection browser id choiceLinkClicked yScroll w = Some (w', evs, end_) ->
  completion (validateSection (schemaText browser) id
                (newBookValidator (stateMechanics st) (stateBook st)))
  <> NotFollowed ->
  end_ = (if truthy (debugParameter browser)
          then completion
                 (validateSection (schemaText browser) id
                    (newBookValidator (stateMechanics st) (stateBook st)))
          else Returned)
  /\ debugWarnings evs
     = (if truthy (debugParameter browser)
        then match completion
                     (validateSection (schemaText browser) id
                        (newBookValidator (stateMechanics st) (stateBook st)))
             with
             | Returned =>
                 errors (after (validateSection (schemaText browser) id
                                  (newBookValidator (stateMechanics st)
                                     (stateBook st))))
             | _ => []
             end
        else [])
  /\ (noSchemaRule (stateMechanics st) id ->
      Forall (sectionRuleError (stateMechanics st) id) (debugWarnings evs)).
Proof.
  intros Hst Hex Hload _.
  rewrite (loadSection_existing browser id choiceLinkClicked yScroll w st
             Hst Hex) in Hload.
  match type of Hload with
  | Some (_, ?l, ?c) = _ =>
      assert (Hevs : evs = l) by congruence;
      assert (Hend : end_ = c) by congruence
  end.
  clear Hload.
  assert (E : debugWarnings evs
              = (if truthy (debugParameter browser)
                 then match completion
                              (validateSection (schemaText browser) id
                                 (newBookValidator (stateMechanics st)
                                    (stateBook st)))
                      with
                      | Returned =>
                          errors (after (validateSection (schemaText browser) id
                                           (newBookValidator (stateMechanics st)
                                              (stateBook st))))
                      | _ => []
                      end
                 else [])).
  { rewrite Hevs. rewrite !debugWarnings_app.
    assert (debugWarnings (if choiceLinkClicked
                           then [EvFireChoiceSelected id] else []) = []) as ->
      by (destruct choiceLinkClicked; reflexivity).
    change (debugWarnings [EvToastrClear]) with (@nil string).
    match goal with
    | |- context [debugWarnings (EvSetSectionContent ?a :: ?l)] =>
        change (debugWarnings (EvSetSectionContent a :: l)) with (@nil string)
    end.
    cbn [app].
    destruct (truthy (debugParameter browser)); [|reflexivity].
    unfold debugValidate. cbn [fst sectionId newSection stateMechanics
      stateBook setSectionStatesCurrentSection].
    change (EvShowOriginSections :: ?l) with ([EvShowOriginSections] ++ l)%list.
    rewrite !debugWarnings_app, debugWarnings_validator.
    change (debugWarnings [EvShowOriginSections]) with (@nil string).
    cbn [app].
    destruct (completion _); [apply debugWarnings_warnings|reflexivity..]. }
  split.
  - rewrite Hend. destruct (truthy (debugParameter browser)); reflexivity.
  - split; [exact E|]. intros Hno. rewrite E.
    destruct (truthy (debugParameter browser)); [|constructor].
    destruct (completion _); [|constructor..].
    apply (validateSection_shape (schemaText browser) id
             (newBookValidator (stateMechanics st) (stateBook st))).
    exact Hno.
Qed.

(** X20. The scroll position survives leaving and coming back: when the game
    page is left at the offset [y] (and not for the Kai monastery at the top
    of the page), the next [index] scrolls the section it shows to [y]. *)
Theorem scroll_position_restored (leaving back : Browser) (w : GameWorld)
    (st : GameState) (chart : ActionChart) (y : Z) :
  state w = Some st ->
  stateActionChart st = Some chart ->
  pageYOffset leaving = Int y ->
  controllerName leaving <> "kaimonasteryController" \/ y <> 0 ->
  checkBook back = true ->
  sectionStatesCurrentSection st <> Some KAIMONASTERY_SECTION ->
  is_Some (bookSections (stateBook st) !! sectionToShow st) ->
  exists w' evs end_,
    index back (fst (onLeave leaving w)) = Some (w', evs, end_) /\
    EvScrollTo (Int 0) (Int y) ∈ evs /\
    forall x y', EvScrollTo x y' ∈ evs -> x = Int 0 /\ y' = Int y.
Proof.
  intros Hst Hchart Hy Hcase Hcheck Hkai Hex.
  unfold onLeave. rewrite Hst, Hchart, Hy. cbn [fst].
  assert (Hguard : negb (String.eqb (controllerName leaving)
                           "kaimonasteryController"
                         && num_eq (Int y) (Int 0)) = true).
  { apply negb_true_iff, andb_false_iff. destruct Hcase as [Hc|Hc].
    - left. now apply String.eqb_neq.
    - right. simpl. now apply Z.eqb_neq. }
  rewrite Hguard. unfold index. rewrite Hcheck. cbn [negb state setState].
  cbn [sectionStatesCurrentSection setYScrollPosition].
  rewrite (bool_decide_eq_false_2 _ Hkai).
  fold (sectionToShow st).
  change (stateActionChart (setYScrollPosition (Int y) st))
    with (Some {| yScrollPosition := Int y |}).
  cbn [yScrollPosition].
  rewrite (loadSection_existing back (sectionToShow st) false (Int y)
             (setState (Some (setYScrollPosition (Int y) st)) w)
             (setYScrollPosition (Int y) st) eq_refl Hex).
  eexists _, _, _. split; [reflexivity|].
  assert (Hscroll : (if negb (numTruthy (Int y)) then Int 0 else Int y) = Int y).
  { simpl. destruct (y =? 0) eqn:E0; simpl; [|reflexivity].
    apply Z.eqb_eq in E0. now subst y. }
  rewrite Hscroll. unfold gameTemplateSetup. split.
  - set_solver.
  - intros x y' Hin.
    repeat (rewrite elem_of_app in Hin || rewrite elem_of_cons in Hin
            || rewrite elem_of_nil in Hin).
    repeat match goal with
           | Hd : _ \/ _ |- _ => destruct Hd as [Hd|Hd]
           end;
      try discriminate Hin; try contradiction;
      try (injection Hin as -> ->; now split).
    all: exfalso; destruct (truthy (debugParameter back)); [|inversion Hin];
      eapply debugValidate_no_scroll; exact Hin.
Qed.

(** X21. After a section was loaded, [onNavigatePrevNext] with an increment
    that is not negative (zero and [NaN] included) loads the section of the
    next-section link of that section, and a negative increment loads the
    one [getPreviousSectionId] gives. *)
Theorem navigate_from_loaded_section (browser : Browser) (id : string)
    (choiceLinkClicked : bool) (yScroll increment : Num)
    (w w1 : GameWorld) (st : GameState) (evs : list GameEvent)
    (end_ : Completion) :
  state w = Some st ->
  is_Some (bookSections (stateBook st) !! id) ->
  loadSection browser id choiceLinkClicked yScroll w = Some (w1, evs, end_) ->
  onNavigatePrevNext browser increment w1
  = loadSection browser
      (if num_lt increment (Int 0)
       then getPreviousSectionId
              (newSection (stateBook st) id (stateMechanics st))
       else nextSectionLink (stateBook st) id)
      false (Int 0) w1.
Proof.
  intros Hst Hex Hload.
  rewrite (loadSection_existing browser id choiceLinkClicked yScroll w st
             Hst Hex) in Hload.
  injection Hload as <- _ _. unfold onNavigatePrevNext. simpl.
  destruct (num_lt increment (Int 0)); reflexivity.
Qed.

End GameControllerProperties.

(** ** The further properties on the small book and the small game *)

(** A [case] with the inverted range 5..2: flagged by [case], ignored by the
    coverage. *)
Lemma case_wrong_range_witness :
  nodeName (caseFromTo "5" "2") = "case"
  /\ getCaseRuleBounds (Collaborators:=sampleCollaborators) (caseFromTo "5" "2")
     = Some (Int 5, Int 2)
  /\ (errors (case (H:=sampleCollaborators) (caseFromTo "5" "2") sampleValidator)
      = errors sampleValidator
      <-> validRange (H:=sampleCollaborators) (caseFromTo "5" "2") = Some (5, 2))
  /\ (errors (case (H:=sampleCollaborators) (caseFromTo "5" "2") sampleValidator)
      = (errors sampleValidator
         ++ [errorText (sectionId (currentSection sampleValidator))
               (nodeName (caseFromTo "5" "2")) "Wrong range"])%list
      <-> validRange (H:=sampleCollaborators) (caseFromTo "5" "2") = None).
Proof.
  split; [reflexivity|]. split; [reflexivity|].
  exact (case_wrong_range_iff_ignored (H:=sampleCollaborators)
           (caseFromTo "5" "2") sampleValidator 5 2 eq_refl eq_refl).
Defined.



(** A first download of the schema, then a second call. *)
Lemma downloadXsd_once_witness :
  truthy None = false /\ "<xs:schema/>" <> ""
  /\ requestSent (downloadXsd (Some "<xs:schema/>") None) = true
  /\ xsdTextAfter (downloadXsd (Some "<xs:schema/>") None)
     = Some "<xs:schema/>"
  /\ downloadXsd None (xsdTextAfter (downloadXsd (Some "<xs:schema/>") None))
     = {| xsdTextAfter := Some "<xs:schema/>"; requestSent := false;
          promiseResolved := true |}.
Proof.
  assert (Hne : "<xs:schema/>" <> "") by discriminate.
  split; [reflexivity|]. split; [exact Hne|].
  exact (downloadXsd_once None None "<xs:schema/>" eq_refl Hne).
Defined.

(** A section whose rules are a combat with a rule inside, two names that
    are no member of the validator. *)
Lemma unknown_rules_witness :
  (forall r,
     ruleNodeOf (mechanics (validatorOf unknownRulesMechanics)) "tssf" r ->
     member (H:=sampleCollaborators) (nodeName r) = NoMember)
  /\ ruleNodeOf (mechanics (validatorOf unknownRulesMechanics)) "tssf"
       (Elem "disableCombats" ∅ [])
  /\ outcome (validateSection (H:=sampleCollaborators) None "tssf"
                (validatorOf unknownRulesMechanics))
     = ([], [], Returned).
Proof.
  assert (Hno : forall r,
            ruleNodeOf (mechanics (validatorOf unknownRulesMechanics)) "tssf" r ->
            member (H:=sampleCollaborators) (nodeName r) = NoMember).
  { intros r (root & Hroot & Hr). vm_compute in Hroot.
    injection Hroot as <-. apply list_elem_of_In in Hr. simpl in Hr.
    destruct Hr as [<-|[<-|[]]]; reflexivity. }
  split; [exact Hno|]. split.
  { eexists. split; [vm_compute; reflexivity|]. right. left. }
  exact (unknown_rules_never_checked (H:=sampleCollaborators) None "tssf"
           (validatorOf unknownRulesMechanics) Hno).
Defined.

(** A [test] rule with a [pick] inside: the error of the rule, then the
    error of its child. *)
Lemma validateRule_own_then_children_witness :
  completion (validateRule (H:=sampleCollaborators) None nestedRule
                sampleValidator) <> NotFollowed
  /\ errors (after (validateRule (H:=sampleCollaborators) None nestedRule
                      sampleValidator))
     = [errorText "tssf" "test" "Wrong language: fr";
        errorText "tssf" "pick" msgOnlyOne]
  /\ errors (after (callMember (H:=sampleCollaborators) None nestedRule
                      (setErrors [] sampleValidator)))
     = [errorText "tssf" "test" "Wrong language: fr"]
  /\ errors (after (validateChildrenRules (H:=sampleCollaborators) None
                      (Some nestedRule) (setErrors [] sampleValidator)))
     = [errorText "tssf" "pick" msgOnlyOne].
Proof.
  assert (Hc : completion (validateRule (H:=sampleCollaborators) None nestedRule
                             sampleValidator) <> NotFollowed).
  { vm_compute. discriminate. }
  split; [exact Hc|].
  destruct (validateRule_own_then_children (H:=sampleCollaborators) None
              nestedRule sampleValidator Hc) as [E _].
  split; [rewrite E; vm_compute; reflexivity|].
  split; vm_compute; reflexivity.
Defined.

(** The whole-book validation of the small book, section by section. *)
Lemma validateBook_is_sections_witness :
  exists r,
    validateBook (H:=sampleCollaborators) None 2 sampleValidator = Some r
    /\ completion r = Returned
    /\ exists n,
         firstReach (H:=sampleCollaborators) (book sampleValidator)
           (lastSectionId (mechanics sampleValidator)) n
         /\ errors (after r)
            = (errors (fst (validateXml (H:=sampleCollaborators) None
                              (setErrors [] sampleValidator)))
               ++ concat
                    (map (fun k =>
                            errors (after (validateSection
                                             (H:=sampleCollaborators) None
                                             (spineSection
                                                (H:=sampleCollaborators)
                                                (book sampleValidator) k)
                                             sampleValidator)))
                         (seq 0 n)))%list
         /\ calls r
            = (snd (validateXml (H:=sampleCollaborators) None
                      (setErrors [] sampleValidator))
               ++ concat
                    (map (fun k =>
                            calls (validateSection (H:=sampleCollaborators) None
                                     (spineSection (H:=sampleCollaborators)
                                        (book sampleValidator) k)
                                     sampleValidator))
                         (seq 0 n)))%list.
Proof.
  destruct (validateBook (H:=sampleCollaborators) None 2 sampleValidator)
    as [r|] eqn:Hrun; [|vm_compute in Hrun; discriminate].
  exists r. split; [reflexivity|].
  assert (Hret : completion r = Returned).
  { vm_compute in Hrun. injection Hrun as <-. reflexivity. }
  split; [exact Hret|].
  exact (validateBook_is_sections (H:=sampleCollaborators) None 2
           sampleValidator r Hrun Hret).
Defined.

(** Two saved games, added one after the other or together. *)
Lemma addFilesToList_batches_witness :
  ["save1.json"] <> [] /\ ["save2.json"] <> []
  /\ addFilesToList "No saved games" (["save1.json"] ++ ["save2.json"])
     = addFilesToList "No saved games" ["save1.json"]
       +:+ addFilesToList "No saved games" ["save2.json"].
Proof.
  assert (H1 : ["save1.json"] <> []) by discriminate.
  assert (H2 : ["save2.json"] <> []) by discriminate.
  split; [exact H1|]. split; [exact H2|].
  exact (addFilesToList_batches "No saved games" ["save1.json"]
           ["save2.json"] H1 H2).
Defined.

(** The small book has no section sect9. *)
Lemma loadSection_missing_witness :
  state sampleWorld = Some sampleGameState
  /\ bookSections (stateBook sampleGameState) !! "sect9" = None
  /\ loadSection (H:=sampleCollaborators) sampleBrowser "sect9" true (Int 10)
       sampleWorld
     = Some (sampleWorld, [EvConsoleLog "Section sect9 does not exists"],
             Returned).
Proof.
  split; [reflexivity|]. split; [reflexivity|].
  exact (loadSection_missing_section (H:=sampleCollaborators) sampleBrowser
           "sect9" true (Int 10) sampleWorld sampleGameState eq_refl eq_refl).
Defined.

(** From the section tssf that the controller shows, forward: the two
    records agree on tssf before the call and on sect1 after it. *)
Lemma controller_in_step_witness :
  sectionsAgree shownWorld
  /\ sectionId <$> controllerCurrentSection shownWorld = Some "tssf"
  /\ sectionStatesCurrentSection <$> state shownWorld = Some (Some "tssf")
  /\ exists w' evs end_,
       runGameCall (H:=sampleCollaborators) (H0:=sampleGameCollaborators)
         sampleBrowser (CallNavigate (Int 1)) shownWorld
       = Some (w', evs, end_)
       /\ sectionId <$> controllerCurrentSection w' = Some "sect1"
       /\ sectionStatesCurrentSection <$> state w' = Some (Some "sect1")
       /\ sectionsAgree w'.
Proof.
  assert (Hw : sectionsAgree shownWorld).
  { intros s Hs. injection Hs as <-. eexists. split; reflexivity. }
  split; [exact Hw|]. split; [reflexivity|]. split; [reflexivity|].
  destruct (runGameCall (H:=sampleCollaborators) (H0:=sampleGameCollaborators)
              sampleBrowser (CallNavigate (Int 1)) shownWorld)
    as [[[w' evs] end_]|] eqn:E; [|vm_compute in E; discriminate E].
  exists w', evs, end_. split; [reflexivity|].
  split; [vm_compute in E; injection E as <- _ _; reflexivity|].
  split; [vm_compute in E; injection E as <- _ _; reflexivity|].
  exact (controller_keeps_sections_in_step (H:=sampleCollaborators)
           (H0:=sampleGameCollaborators) sampleBrowser
           (CallNavigate (Int 1)) shownWorld w' evs end_ Hw E).
Defined.

(** Loading the section sect1 of the small game with the debug parameter. *)
Lemma loadSection_debug_witness :
  state sampleWorld = Some sampleGameState
  /\ is_Some (bookSections (stateBook sampleGameState) !! "sect1")
  /\ completion (validateSection (H:=sampleCollaborators)
                   (schemaText sampleBrowser) "sect1"
                   (newBookValidator (stateMechanics sampleGameState)
                      (stateBook sampleGameState))) <> NotFollowed
  /\ noSchemaRule (stateMechanics sampleGameState) "sect1"
  /\ exists w' evs,
       loadSection (H:=sampleCollaborators) sampleBrowser "sect1" false (Int 0)
         sampleWorld = Some (w', evs, Returned)
       /\ debugWarnings evs
          = ["Section sect1, rule randomTable: Missed numbers";
             "Section sect1, rule randomTable: Overlapped numbers"]
       /\ Forall (sectionRuleError (stateMechanics sampleGameState) "sect1")
            (debugWarnings evs).
Proof.
  assert (Hex : is_Some (bookSections (stateBook sampleGameState) !! "sect1")).
  { eexists. vm_compute. reflexivity. }
  assert (Hc : completion (validateSection (H:=sampleCollaborators)
                             (schemaText sampleBrowser) "sect1"
                             (newBookValidator (stateMechanics sampleGameState)
                                (stateBook sampleGameState))) <> NotFollowed).
  { vm_compute. discriminate. }
  split; [reflexivity|]. split; [exact Hex|]. split; [exact Hc|].
  split; [apply sample_noSchemaRule|].
  destruct (loadSection (H:=sampleCollaborators) sampleBrowser "sect1" false
              (Int 0) sampleWorld) as [[[w' evs] end_]|] eqn:E;
    [|vm_compute in E; discriminate E].
  destruct (loadSection_debug_warnings (H:=sampleCollaborators) sampleBrowser
              "sect1" false (Int 0) sampleWorld w' sampleGameState evs end_
              eq_refl Hex E Hc) as (Hend & Hd & HP).
  exists w', evs. split; [rewrite Hend; vm_compute; reflexivity|].
  split; [rewrite Hd; vm_compute; reflexivity|].
  apply HP, sample_noSchemaRule.
Defined.

(** Leaving the small game at the offset 240 and coming back. *)
Lemma scroll_position_witness :
  exists w' evs end_,
    index (H:=sampleCollaborators) (H0:=sampleGameCollaborators) sampleBrowser
      (fst (onLeave sampleBrowser sampleWorld)) = Some (w', evs, end_)
    /\ EvScrollTo (Int 0) (Int 240) ∈ evs
    /\ forall x y', EvScrollTo x y' ∈ evs -> x = Int 0 /\ y' = Int 240.
Proof.
  apply (scroll_position_restored (H:=sampleCollaborators)
           (H0:=sampleGameCollaborators) sampleBrowser sampleBrowser
           sampleWorld sampleGameState {| yScrollPosition := Int 0 |} 240).
  - reflexivity.
  - reflexivity.
  - reflexivity.
  - left. discriminate.
  - reflexivity.
  - discriminate.
  - eexists. vm_compute. reflexivity.
Defined.

(** From the section tssf of the small game, forward. *)
Lemma navigate_witness :
  exists w1 evs end_,
    loadSection (H:=sampleCollaborators) sampleBrowser "tssf" false (Int 0)
      sampleWorld = Some (w1, evs, end_)
    /\ onNavigatePrevNext (H:=sampleCollaborators)
         (H0:=sampleGameCollaborators) sampleBrowser (Int 0) w1
       = loadSection (H:=sampleCollaborators) sampleBrowser "sect1" false
           (Int 0) w1.
Proof.
  assert (Hex : is_Some (bookSections (stateBook sampleGameState) !! "tssf")).
  { eexists. vm_compute. reflexivity. }
  destruct (loadSection (H:=sampleCollaborators) sampleBrowser "tssf" false
              (Int 0) sampleWorld) as [[[w1 evs] end_]|] eqn:E;
    [|vm_compute in E; discriminate E].
  exists w1, evs, end_. split; [reflexivity|].
  exact (navigate_from_loaded_section (H:=sampleCollaborators)
           (H0:=sampleGameCollaborators) sampleBrowser "tssf" false (Int 0)
           (Int 0) sampleWorld w1 sampleGameState evs end_ eq_refl Hex E).
Defined.

(** The bytes 195 169 are the letter e with an acute accent: it is dropped,
    the text around it stays. *)
Example stripSpecialChars_accent :
  stripSpecialChars
    (String "c" (String (ascii_of_nat 195) (String (ascii_of_nat 169) "!")))
  = "c!".
Proof. vm_compute. reflexivity. Qed.

(** [trim] takes the blanks of Unicode too: the no-break space U+00A0 (bytes
    194 160) before a text and the byte order mark U+FEFF (239 187 191)
    after it. *)
Example trim_unicode_blanks :
  trim (String (ascii_of_nat 194) (String (ascii_of_nat 160)
          ("ok" +:+ String (ascii_of_nat 239) (String (ascii_of_nat 187)
                      (String (ascii_of_nat 191) " ")))))
  = "ok".
Proof. vm_compute. reflexivity. Qed.

(** The names [constructor] and [toString] pass the check of the
    disciplines, as every JavaScript object has such members; an unknown
    name does not. *)
Example disciplines_inherited_names :
  errors (validateDisciplinesAttribute (H:=sampleCollaborators)
            (Elem "test" {[ "hasDiscipline" := "constructor|toString|healing" ]} [])
            "hasDiscipline" true sampleValidator)
  = ["Section tssf, rule test: Wrong discipline id: healing"].
Proof. vm_compute. reflexivity. Qed.

(** A destination with a bracket in it is no selector for jQuery: the check
    of the choice throws. *)
Example choice_selector_throws :
  outcome (validateSectionChoiceAttribute (H:=sampleCollaborators)
             (Elem "test" {[ "isChoiceEnabled" := "sect]1" ]} [])
             "isChoiceEnabled" sampleValidator)
  = ([], [], Threw).
Proof. vm_compute. reflexivity. Qed.

(** A rule named [addError] is a call of that method, with the rule as its
    first argument and no message. *)
Example addError_rule :
  outcome (validateSection (H:=sampleCollaborators) None "tssf"
             (validatorOf (mechanicsOf (rulesDocument [Elem "addError" ∅ []]
                                          [] []))))
  = (["Section tssf, rule addError: undefined"], [], Returned).
Proof. vm_compute. reflexivity. Qed.

(** With the debug parameter and a table whose index jQuery rejects, the
    validation of the section throws: [loadSection] ends with the exception
    and nothing is sent to the debug overlay. *)
Example loadSection_debug_throws :
  (fun r => (debugWarnings r.1.2, r.2))
    <$> loadSection (H:=sampleCollaborators) sampleBrowser "sect1" false (Int 0)
          {| state :=
               Some {| stateBook := sampleBook; stateMechanics := oddMechanics;
                       sectionStatesCurrentSection := None;
                       stateActionChart := None |};
             controllerCurrentSection := None |}
  = Some ([], Threw).
Proof. vm_compute. reflexivity. Qed.
